(** * The esbuild build action of [@angular/build]

    A shallow embedding of
    [packages/angular/build/src/builders/application/build-action.ts]:
    the async generator [runEsBuildBuildAction] and its helper
    [writeAndEmitOutput].

    The generator talks to collaborators that live in other modules (the
    build [action], the logger, the file-system watcher, the result
    writer, the consumer of the generator).  Their answers are supplied by
    a [Session] script, every call the generator makes is recorded as an
    [Event], and the generator's mutable locals are threaded through a
    small state/trace/completion monad [Gen]. *)

From Stdlib Require Import Ascii String List Bool Arith Lia.
Import ListNotations.
Open Scope string_scope.
Open Scope list_scope.

Set Implicit Arguments.

(** ** Paths and JavaScript [Set<string>] *)

Definition path := string.

(** A JavaScript [Set] of strings: no duplicates, iteration in insertion
    order. *)
Module JsSet.
Definition t := list path.

Definition has (x : path) (s : t) : bool := existsb (String.eqb x) s.

Definition add (x : path) (s : t) : t :=
  if has x s then s else s ++ [x].

Definition delete (x : path) (s : t) : t :=
  filter (fun y => negb (String.eqb x y)) s.

Definition add_all (xs : list path) (s : t) : t :=
  fold_left (fun acc x => add x acc) xs s.

Definition delete_all (xs : list path) (s : t) : t :=
  fold_left (fun acc x => delete x acc) xs s.

(** [new Set(iterable)] *)
Definition of_list (xs : list path) : t := add_all xs [].

Definition size (s : t) : nat := List.length s.
End JsSet.

(** Two lists hold the same paths. *)
Definition same_set (a b : list path) : Prop :=
  forall p, In p a <-> In p b.

(** ** Data of the collaborators *)

(** Modelled from the spec: the kinds of [BuildOutputFile]
    ([tools/esbuild/bundler-context] is not part of the sources). *)
Inductive BuildOutputFileType := Browser | Server | Root.

Record BuildOutputFile := {
  file_path : path;
  contents : string;
  kind : BuildOutputFileType;
}.

Record BuildOutputAsset := {
  source : path;
  destination : path;
}.

(** [ExecutionResult] as the build action uses it.  [rid] stands for the
    identity of the JavaScript object. *)
Record ExecutionResult := {
  rid : nat;
  errors : list string;
  warnings : list string;
  watchFiles : list path;
  outputFiles : list BuildOutputFile;
  assetFiles : list BuildOutputAsset;
}.

(** What the generator yields: [ExecutionResult['output']] or
    [ExecutionResult['outputWithFiles']]. *)
Inductive BuildActionOutput :=
| Output (success : bool)
| OutputWithFiles (success : bool)
    (files : list BuildOutputFile) (assets : list BuildOutputAsset).

Definition succeeded (r : ExecutionResult) : bool :=
  match errors r with [] => true | _ :: _ => false end.

(** Modelled from the spec: the getter [output] of [ExecutionResult]
    ([tools/esbuild/bundler-execution-result] is not part of the sources),
    the plain summary view without file contents. *)
Definition output (r : ExecutionResult) : BuildActionOutput :=
  Output (succeeded r).

(** Modelled from the spec: the getter [outputWithFiles] of
    [ExecutionResult], the in-memory view that carries the files with
    their paths and contents. *)
Definition outputWithFiles (r : ExecutionResult) : BuildActionOutput :=
  OutputWithFiles (succeeded r) (outputFiles r) (assetFiles r).

Record NormalizedOutputOptions := {
  base : path;
  browser : path;
  server : path;
}.

Record NormalizedCachedOptions := {
  basePath : path;
}.

(** The batch of changes the watcher delivers. *)
Record ChangedFiles := {
  added : list path;
  modified : list path;
  removed : list path;
}.

(** The options argument of [runEsBuildBuildAction].  An absent optional
    boolean is [false]; [signal] tells whether an AbortSignal was passed,
    its [aborted] flag and whether its listener has run are read from
    the [Session]. *)
Record Options := {
  workspaceRoot : path;
  projectRoot : path;
  outputOptions : NormalizedOutputOptions;
  cacheOptions : NormalizedCachedOptions;
  writeToFileSystem : bool;
  writeToFileSystemFilter : option (BuildOutputFile -> bool);
  watch : bool;
  verbose : bool;
  progress : bool;
  deleteOutputPath : bool;
  poll : option nat;
  preserveSymlinks : bool;
  clearScreen : bool;
  colors : bool;
  jsonLogs : bool;
  signal : bool;                     (* an AbortSignal was passed *)
}.

(** What the module reads from its host: [existsSync] of [node:fs],
    [path.join] of [node:path] and [shouldWatchRoot] of
    [utils/environment-options]. *)
Record Host := {
  existsSync : path -> bool;
  path_join : path -> path -> path;
  shouldWatchRoot : bool;
}.

(** ** Events *)

Record WatcherConfig := {
  polling : bool;
  interval : option nat;
  followSymlinks : bool;
  ignored : list string;
}.

Definition exn := string.

(** The argument of [action]: nothing for the initial build, otherwise
    [result.createRebuildState(changes)]. *)
Record RebuildState := {
  previous : nat;
  fileChanges : ChangedFiles;
}.

Inductive Event :=
| EDeleteOutputDir (root : path) (dir : path) (emptyOnly : list path)
| EAction (rebuildState : option RebuildState)
| ELogMessages (result : nat)
| EShutdownSassWorkerPool
| ELoggerInfo (text : string)
| EConsoleClear
| ECreateWatcher (cfg : WatcherConfig)
| EAbortListener
| EWatcherAdd (paths : list path)
| EWatcherRemove (paths : list path)
| EWriteResultFiles (files : list BuildOutputFile)
    (assets : list BuildOutputAsset) (out : NormalizedOutputOptions)
| EYield (value : BuildActionOutput)
| EWatcherClose
| EDispose (result : nat).

(** ** The watcher *)

(** Modelled from the spec: the [BuildWatcher] of [tools/esbuild/watcher]
    (not part of the sources) keeps the set of subscribed paths; adding a
    subscribed path and removing an absent one change nothing. *)
Module BuildWatcher.
Record t := {
  config : WatcherConfig;
  watched : JsSet.t;
}.

Definition create (cfg : WatcherConfig) : t :=
  {| config := cfg; watched := [] |}.

Definition add (paths : list path) (w : t) : t :=
  {| config := config w; watched := JsSet.add_all paths (watched w) |}.

Definition remove (paths : list path) (w : t) : t :=
  {| config := config w; watched := JsSet.delete_all paths (watched w) |}.
End BuildWatcher.

(** ** The generator monad *)

(** How a piece of the generator body ends: normally, by an exception, or
    because the consumer called [return()] while the generator was
    suspended at a [yield]. *)
Inductive Completion (A : Type) :=
| Normal (a : A)
| Throws (e : exn)
| Returns.

Arguments Normal {A} a.
Arguments Throws {A} e.
Arguments Returns {A}.

(** A computation over locals [S]: the events it performs, the locals it
    leaves (also when it ends abruptly) and its completion. *)
Definition Gen (S A : Type) : Type := S -> list Event * S * Completion A.

Definition ret {S A} (a : A) : Gen S A := fun s => ([], s, Normal a).

Definition bind {S A B} (m : Gen S A) (k : A -> Gen S B) : Gen S B :=
  fun s =>
    match m s with
    | (t1, s1, Normal a) =>
        match k a s1 with
        | (t2, s2, c) => (t1 ++ t2, s2, c)
        end
    | (t1, s1, Throws e) => (t1, s1, Throws e)
    | (t1, s1, Returns) => (t1, s1, Returns)
    end.

Declare Scope gen_scope.
Delimit Scope gen_scope with gen.
Notation "x <- m ;; k" := (bind m (fun x => k))
  (at level 61, m at next level, right associativity) : gen_scope.
Notation "m ;; k" := (bind m (fun _ => k))
  (at level 61, right associativity) : gen_scope.
Open Scope gen_scope.

Definition emit {S} (ev : Event) : Gen S unit := fun s => ([ev], s, Normal tt).

Definition get {S} : Gen S S := fun s => ([], s, Normal s).

Definition modify {S} (f : S -> S) : Gen S unit := fun s => ([], f s, Normal tt).

Definition when {S} (b : bool) (m : Gen S unit) : Gen S unit :=
  if b then m else ret tt.

(** [try { body } finally { fin }]: [fin] runs however [body] ends, and
    the completion of [body] stands unless [fin] itself ends abruptly. *)
Definition try_finally {S A} (body : Gen S A) (fin : Gen S unit) : Gen S A :=
  fun s =>
    match body s with
    | (t1, s1, c) =>
        match fin s1 with
        | (t2, s2, Normal _) => (t1 ++ t2, s2, c)
        | (t2, s2, Throws e) => (t1 ++ t2, s2, Throws e)
        | (t2, s2, Returns) => (t1 ++ t2, s2, Returns)
        end
    end.

(** What the consumer of the generator does with a yielded value. *)
Inductive Consumer := Pull | Return.

(** [yield value] *)
Definition yield {S} (value : BuildActionOutput) (c : Consumer) : Gen S unit :=
  emit (EYield value) ;;
  match c with
  | Pull => ret tt
  | Return => fun s => ([], s, Returns)
  end.

(** The settled state of a promise returned by a collaborator. *)
Inductive Settled (A : Type) :=
| Fulfilled (a : A)
| Rejected (e : exn).

Arguments Fulfilled {A} a.
Arguments Rejected {A} e.

(** [await promise] *)
Definition await {S A} (p : Settled A) : Gen S A :=
  fun s =>
    match p with
    | Fulfilled a => ([], s, Normal a)
    | Rejected e => ([], s, Throws e)
    end.

(** [await Promise.allSettled(promises)] never rejects. *)
Definition allSettled {S A} (ps : list (Settled A)) : Gen S (list (Settled A)) :=
  ret ps.

(** Run [m] on fresh locals [s0] and keep the locals it leaves. *)
Definition enter {S A} (s0 : S) (m : Gen S A) : Gen (option S) A :=
  fun _ => match m s0 with (t, s1, c) => (t, Some s1, c) end.

(** ** The session script *)

(** One batch of the watcher and what the collaborators answer while it
    is handled. *)
Record Iteration := {
  changes : ChangedFiles;
  debugString : string;              (* changes.toDebugString() *)
  aborted : bool;                    (* options.signal.aborted *)
  listened : bool;                   (* the signal aborted after line 139 *)
  rebuilt : Settled ExecutionResult; (* action(rebuildState) *)
  logged : Settled unit;             (* logMessages(...) *)
  watcher_fault : option exn;        (* watcher.add / watcher.remove throw *)
  written : Settled unit;            (* writeResultFiles(...) *)
  consumer : Consumer;
}.

(** How the watcher's iterator ends once its batches are used up: by
    itself, because the signal aborts while the loop waits for a batch
    and the listener of line 139 closes the watcher, or with a failure. *)
Inductive WatcherEnd :=
| WatcherClosed
| WatcherAborted
| WatcherFailed (e : exn).

Record Session := {
  deleted : Settled unit;             (* deleteOutputDir(...) *)
  initial : Settled ExecutionResult;  (* action() *)
  logged0 : Settled unit;
  written0 : Settled unit;
  consumer0 : Consumer;
  iterations : list Iteration;
  ending : WatcherEnd;
  closed : Settled unit;              (* watcher.close() *)
  disposed : Settled unit;            (* result.dispose() *)
}.

(** ** [build-action.ts] *)

Definition packageWatchFiles : list path :=
  [ "package.json";
    "package-lock.json";
    "pnpm-lock.yaml";
    "yarn.lock";
    ".pnp.cjs";
    ".pnp.data.json" ].

(** [s.replace(/\\/g, '/')] *)
Fixpoint replace_backslashes (s : string) : string :=
  match s with
  | EmptyString => EmptyString
  | String c rest =>
      String (if Ascii.eqb c "\"%char then "/"%char else c)
             (replace_backslashes rest)
  end.

(** [writeAndEmitOutput] *)
Definition writeAndEmitOutput {S} (writeToFileSystem : bool)
    (result : ExecutionResult) (outputOptions : NormalizedOutputOptions)
    (writeToFileSystemFilter : option (BuildOutputFile -> bool))
    (written : Settled unit) : Gen S BuildActionOutput :=
  if writeToFileSystem then
    let outputFilesToWrite :=
      match writeToFileSystemFilter with
      | Some f => filter f (outputFiles result)
      | None => outputFiles result
      end in
    emit (EWriteResultFiles outputFilesToWrite (assetFiles result) outputOptions) ;;
    await written ;;
    ret (output result)
  else
    ret (outputWithFiles result).

(** The locals of the generator that the rebuild loop mutates. *)
Record Locals := {
  result : ExecutionResult;
  watcher : BuildWatcher.t;
  currentWatchFiles : JsSet.t;
}.

Definition set_result (r : ExecutionResult) (st : Locals) : Locals :=
  {| result := r; watcher := watcher st;
     currentWatchFiles := currentWatchFiles st |}.

Definition set_watcher (w : BuildWatcher.t) (st : Locals) : Locals :=
  {| result := result st; watcher := w;
     currentWatchFiles := currentWatchFiles st |}.

Definition set_currentWatchFiles (c : JsSet.t) (st : Locals) : Locals :=
  {| result := result st; watcher := watcher st; currentWatchFiles := c |}.

Section BuildAction.
Variable options : Options.
Variable host : Host.

(** The initial build, lines 93-106. *)
Definition initialBuild (sess : Session) : Gen (option Locals) ExecutionResult :=
  try_finally
    (emit (EAction None) ;;
     result <- await (initial sess) ;;
     emit (ELogMessages (rid result)) ;;
     await (logged0 sess) ;;
     ret result)
    (when (negb (watch options)) (emit EShutdownSassWorkerPool)).

Definition ignoredPaths : list string :=
  [ base (outputOptions options);
    basePath (cacheOptions options);
    replace_backslashes (workspaceRoot options) ++ "/**/.*/**" ]%string
  ++ (if preserveSymlinks options then [] else ["**/node_modules/**"]).

Definition watcherConfig : WatcherConfig :=
  {| polling := match poll options with Some _ => true | None => false end;
     interval := poll options;
     followSymlinks := preserveSymlinks options;
     ignored := ignoredPaths |}.

(** The manifest and lock files that exist under the workspace root. *)
Definition packageWatchPaths : list path :=
  filter (existsSync host)
         (map (path_join host (workspaceRoot options)) packageWatchFiles).

(** [watcher.add(paths)] while the watcher is being set up. *)
Definition addTo {S} (paths : list path) (w : BuildWatcher.t)
  : Gen S BuildWatcher.t :=
  emit (EWatcherAdd paths) ;;
  ret (BuildWatcher.add paths w).

(** The watcher setup, lines 110-154.  [EAbortListener] is the
    registration of the abort listener; the call of [watcher.close()]
    that the listener makes belongs to the moment the signal aborts, see
    [rebuildLoop]. *)
Definition setupWatcher (result : ExecutionResult)
  : Gen (option Locals) BuildWatcher.t :=
  when (progress options)
    (emit (ELoggerInfo "Watch mode enabled. Watching for file changes...")) ;;
  emit (ECreateWatcher watcherConfig) ;;
  when (signal options) (emit EAbortListener) ;;
  w <- (if shouldWatchRoot host
        then addTo [projectRoot options] (BuildWatcher.create watcherConfig)
        else ret (BuildWatcher.create watcherConfig)) ;;
  w <- addTo packageWatchPaths w ;;
  addTo (watchFiles result) w.

(** [watcher.add] and [watcher.remove] inside the rebuild loop. *)
Definition watcherAdd (fault : option exn) (paths : list path)
  : Gen Locals unit :=
  emit (EWatcherAdd paths) ;;
  match fault with
  | Some e => fun st => ([], st, Throws e)
  | None => modify (fun st => set_watcher (BuildWatcher.add paths (watcher st)) st)
  end.

Definition watcherRemove (fault : option exn) (paths : list path)
  : Gen Locals unit :=
  emit (EWatcherRemove paths) ;;
  match fault with
  | Some e => fun st => ([], st, Throws e)
  | None => modify (fun st => set_watcher (BuildWatcher.remove paths (watcher st)) st)
  end.

(** The loop over [result.watchFiles], lines 197-206. *)
Fixpoint reconcileLoop (fault : option exn) (files : list path)
    (staleWatchFiles : option JsSet.t) : Gen Locals (option JsSet.t) :=
  match files with
  | [] => ret staleWatchFiles
  | watchFile :: rest =>
      st <- get ;;
      when (negb (JsSet.has watchFile (currentWatchFiles st)))
        (watcherAdd fault [watchFile] ;;
         modify (fun st =>
           set_currentWatchFiles (JsSet.add watchFile (currentWatchFiles st)) st)) ;;
      reconcileLoop fault rest (option_map (JsSet.delete watchFile) staleWatchFiles)
  end.

(** The update of the watched locations, lines 193-210. *)
Definition reconcile (fault : option exn) : Gen Locals unit :=
  st <- get ;;
  let staleWatchFiles :=
    if (0 <? List.length (errors (result st)))%nat then None
    else Some (JsSet.of_list (currentWatchFiles st)) in
  staleWatchFiles <- reconcileLoop fault (watchFiles (result st)) staleWatchFiles ;;
  match staleWatchFiles with
  | Some stale =>
      if (0 <? JsSet.size stale)%nat then watcherRemove fault stale else ret tt
  | None => ret tt
  end.

(** The body of the [for await] loop, lines 170-217, after the abort
    check. *)
Definition rebuild (it : Iteration) : Gen Locals unit :=
  when (clearScreen options) (emit EConsoleClear) ;;
  when (verbose options) (emit (ELoggerInfo (debugString it))) ;;
  modify (fun st =>
    set_currentWatchFiles
      (JsSet.delete_all (removed (changes it)) (currentWatchFiles st)) st) ;;
  st <- get ;;
  emit (EAction (Some {| previous := rid (result st);
                         fileChanges := changes it |})) ;;
  r <- await (rebuilt it) ;;
  modify (set_result r) ;;
  emit (ELogMessages (rid r)) ;;
  await (logged it) ;;
  reconcile (watcher_fault it) ;;
  out <- writeAndEmitOutput (writeToFileSystem options) r
           (outputOptions options) (writeToFileSystemFilter options)
           (written it) ;;
  yield out (consumer it).

(** [for await (const changes of watcher) { ... }], lines 169-218.
    When the signal aborts, the listener that line 139 has added calls
    [watcher.close()] and drops what it returns; a signal that was
    aborted before that line never calls it.  The script lets the
    signal abort while the loop waits for a batch. *)
Fixpoint rebuildLoop (its : list Iteration) (ending : WatcherEnd)
  : Gen Locals unit :=
  match its with
  | [] =>
      match ending with
      | WatcherClosed => ret tt
      | WatcherAborted => when (signal options) (emit EWatcherClose)
      | WatcherFailed e => await (Rejected e)
      end
  | it :: rest =>
      if signal options && aborted it
      then when (listened it) (emit EWatcherClose)
      else (rebuild it ;; rebuildLoop rest ending)
  end.

(** The [finally] block of the rebuild loop, lines 219-224. *)
Definition teardown (sess : Session) : Gen Locals unit :=
  st <- get ;;
  emit EWatcherClose ;;
  emit (EDispose (rid (result st))) ;;
  allSettled [closed sess; disposed sess] ;;
  emit EShutdownSassWorkerPool.

(** [runEsBuildBuildAction] *)
Definition runEsBuildBuildAction (sess : Session) : Gen (option Locals) unit :=
  when (deleteOutputPath options && writeToFileSystem options)
    (emit (EDeleteOutputDir (workspaceRoot options)
             (base (outputOptions options))
             [browser (outputOptions options); server (outputOptions options)]) ;;
     await (deleted sess)) ;;
  result <- initialBuild sess ;;
  watcher <- (if watch options
              then (w <- setupWatcher result ;; ret (Some w))
              else ret None) ;;
  out <- writeAndEmitOutput (writeToFileSystem options) result
           (outputOptions options) (writeToFileSystemFilter options)
           (written0 sess) ;;
  yield out (consumer0 sess) ;;
  match watcher with
  | None => ret tt
  | Some w =>
      enter {| result := result; watcher := w;
               currentWatchFiles := JsSet.of_list (watchFiles result) |}
        (try_finally
           (rebuildLoop (iterations sess) (ending sess))
           (teardown sess))
  end.

(** A run from the start: trace, final locals and completion. *)
Definition run (sess : Session) := runEsBuildBuildAction sess None.
Definition trace (sess : Session) : list Event := fst (fst (run sess)).
Definition finalLocals (sess : Session) : option Locals := snd (fst (run sess)).
Definition completion (sess : Session) : Completion unit := snd (run sess).
End BuildAction.

(** ** Observations on traces *)

(** The paths the watcher setup subscribes whatever the build reports. *)
Definition alwaysWatched (options : Options) (host : Host) : list path :=
  (if shouldWatchRoot host then [projectRoot options] else [])
  ++ packageWatchPaths options host.

(** The subscription of the watcher after the calls recorded in a trace. *)
Fixpoint watchedAfter (tr : list Event) (w : JsSet.t) : JsSet.t :=
  match tr with
  | [] => w
  | EWatcherAdd paths :: rest => watchedAfter rest (JsSet.add_all paths w)
  | EWatcherRemove paths :: rest => watchedAfter rest (JsSet.delete_all paths w)
  | _ :: rest => watchedAfter rest w
  end.

Fixpoint yields (tr : list Event) : list BuildActionOutput :=
  match tr with
  | [] => []
  | EYield value :: rest => value :: yields rest
  | _ :: rest => yields rest
  end.

(** The results whose [dispose()] was called, in call order. *)
Fixpoint disposals (tr : list Event) : list nat :=
  match tr with
  | [] => []
  | EDispose k :: rest => k :: disposals rest
  | _ :: rest => disposals rest
  end.

(** The results the build action produced, in order: each one is passed
    to [logMessages] as soon as it exists. *)
Fixpoint builds (tr : list Event) : list nat :=
  match tr with
  | [] => []
  | ELogMessages k :: rest => k :: builds rest
  | _ :: rest => builds rest
  end.

Fixpoint shutdowns (tr : list Event) : nat :=
  match tr with
  | [] => 0
  | EShutdownSassWorkerPool :: rest => S (shutdowns rest)
  | _ :: rest => shutdowns rest
  end.

Definition isYield (ev : Event) : bool :=
  match ev with EYield _ => true | _ => false end.

Definition isCreateWatcher (ev : Event) : bool :=
  match ev with ECreateWatcher _ => true | _ => false end.

Definition isRebuild (ev : Event) : bool :=
  match ev with EAction (Some _) => true | _ => false end.

Definition isAction (ev : Event) : bool :=
  match ev with EAction _ => true | _ => false end.

Definition isWatcherRemove (ev : Event) : bool :=
  match ev with EWatcherRemove _ => true | _ => false end.

Definition isWatcherOp (ev : Event) : bool :=
  match ev with EWatcherAdd _ | EWatcherRemove _ => true | _ => false end.

Definition loopEvent (ev : Event) : bool :=
  match ev with
  | EConsoleClear | ELoggerInfo _ | EAction (Some _) | ELogMessages _
  | EWatcherAdd _ | EWatcherRemove _ | EWriteResultFiles _ _ _ | EYield _
  | EWatcherClose => true
  | _ => false
  end.

(** The pieces of the trace before the rebuild loop. *)
Definition deleteTrace (options : Options) : list Event :=
  if deleteOutputPath options && writeToFileSystem options
  then [EDeleteOutputDir (workspaceRoot options) (base (outputOptions options))
          [browser (outputOptions options); server (outputOptions options)]]
  else [].

Definition shutdownUnlessWatching (options : Options) : list Event :=
  if watch options then [] else [EShutdownSassWorkerPool].

Definition setupTrace (options : Options) (host : Host) (r : ExecutionResult)
  : list Event :=
  (if progress options
   then [ELoggerInfo "Watch mode enabled. Watching for file changes..."]
   else [])
  ++ [ECreateWatcher (watcherConfig options)]
  ++ (if signal options then [EAbortListener] else [])
  ++ (if shouldWatchRoot host then [EWatcherAdd [projectRoot options]] else [])
  ++ [EWatcherAdd (packageWatchPaths options host); EWatcherAdd (watchFiles r)].

Definition emitTrace (options : Options) (r : ExecutionResult) : list Event :=
  if writeToFileSystem options
  then [EWriteResultFiles
          match writeToFileSystemFilter options with
          | Some f => filter f (outputFiles r)
          | None => outputFiles r
          end (assetFiles r) (outputOptions options)]
  else [].

Definition emitted (options : Options) (r : ExecutionResult) : BuildActionOutput :=
  if writeToFileSystem options then output r else outputWithFiles r.

(** The trace up to the point where the first output is produced. *)
Definition headTrace (options : Options) (host : Host) (r : ExecutionResult)
  : list Event :=
  deleteTrace options
  ++ [EAction None; ELogMessages (rid r)]
  ++ shutdownUnlessWatching options
  ++ (if watch options then setupTrace options host r else [])
  ++ emitTrace options r.

Definition teardownTrace (st : Locals) : list Event :=
  [EWatcherClose; EDispose (rid (result st)); EShutdownSassWorkerPool].

(** The files an output carries, and whether a file passes the optional
    filter. *)
Definition filesOf (out : BuildActionOutput) : list BuildOutputFile :=
  match out with
  | Output _ => []
  | OutputWithFiles _ files _ => files
  end.

Definition passes (writeToFileSystemFilter : option (BuildOutputFile -> bool))
    (file : BuildOutputFile) : bool :=
  match writeToFileSystemFilter with
  | Some f => f file
  | None => true
  end.

(** How a pass of the loop ends once its output is yielded. *)
Definition afterYield (c : Consumer) : Completion unit :=
  match c with Pull => Normal tt | Return => Returns end.

(** [p] was passed to [watcher.add] somewhere in the trace. *)
Definition addedIn (tr : list Event) (p : path) : Prop :=
  exists paths, In (EWatcherAdd paths) tr /\ In p paths.

(** The initial build returns [r]: nothing before it throws, the action
    fulfils with [r] and logging succeeds. *)
Definition initialBuildReturns (options : Options) (sess : Session)
    (r : ExecutionResult) : Prop :=
  (deleteOutputPath options && writeToFileSystem options = true ->
   deleted sess = Fulfilled tt)
  /\ initial sess = Fulfilled r
  /\ logged0 sess = Fulfilled tt.

(** The first output is handed over. *)
Definition firstOutputEmitted (options : Options) (sess : Session) : Prop :=
  writeToFileSystem options = true -> written0 sess = Fulfilled tt.

(** The rebuild loop is entered. *)
Definition entersLoop (options : Options) (sess : Session)
    (r : ExecutionResult) : Prop :=
  watch options = true
  /\ initialBuildReturns options sess r
  /\ firstOutputEmitted options sess
  /\ consumer0 sess = Pull.

(** The locals with which the rebuild loop starts. *)
Definition loopEntry (options : Options) (host : Host) (r : ExecutionResult)
  : Locals :=
  {| result := r;
     watcher :=
       BuildWatcher.add (watchFiles r)
         (BuildWatcher.add (packageWatchPaths options host)
            (if shouldWatchRoot host
             then BuildWatcher.add [projectRoot options]
                    (BuildWatcher.create (watcherConfig options))
             else BuildWatcher.create (watcherConfig options)));
     currentWatchFiles := JsSet.of_list (watchFiles r) |}.

(** ** A sample workspace *)

Definition sampleOptions (watching : bool) : Options :=
  {| workspaceRoot := "/ws";
     projectRoot := "/ws/app";
     outputOptions := {| base := "/ws/dist"; browser := "browser"; server := "server" |};
     cacheOptions := {| basePath := "/ws/.angular/cache" |};
     writeToFileSystem := true;
     writeToFileSystemFilter := None;
     watch := watching;
     verbose := false;
     progress := false;
     deleteOutputPath := true;
     poll := None;
     preserveSymlinks := false;
     clearScreen := false;
     colors := false;
     jsonLogs := false;
     signal := true |}.

(** A host where only [package.json] and [yarn.lock] exist. *)
Definition sampleHost (watchRoot : bool) : Host :=
  {| existsSync := fun p =>
       String.eqb p "/ws/package.json" || String.eqb p "/ws/yarn.lock";
     path_join := fun dir file => (dir ++ "/" ++ file)%string;
     shouldWatchRoot := watchRoot |}.

Definition sampleResult (id : nat) (errs : list string) (files : list path)
  : ExecutionResult :=
  {| rid := id; errors := errs; warnings := []; watchFiles := files;
     outputFiles := [ {| file_path := "main.js"; contents := "console.log(1)";
                         kind := Browser |};
                      {| file_path := "server.mjs"; contents := "export {}";
                         kind := Server |} ];
     assetFiles := [ {| source := "/ws/app/favicon.ico";
                        destination := "favicon.ico" |} ] |}.

(** A batch in which [a.ts] was modified: whether the signal is aborted
    when it arrives, what the rebuild gives, whether the watcher throws,
    whether the files get written and what the consumer does. *)
Definition sampleBatch (abort : bool) (r : Settled ExecutionResult)
    (fault : option exn) (w : Settled unit) (c : Consumer) : Iteration :=
  {| changes := {| added := []; modified := ["a.ts"]; removed := [] |};
     debugString := "modified: a.ts";
     aborted := abort;
     listened := abort;
     rebuilt := r;
     logged := Fulfilled tt;
     watcher_fault := fault;
     written := w;
     consumer := c |}.

(** The same batch when nothing goes wrong around the rebuild. *)
Definition sampleIteration (r : Settled ExecutionResult) : Iteration :=
  sampleBatch false r None (Fulfilled tt) Pull.

(** The result of the initial build of the sample sessions: it watches
    [a.ts] and [b.ts]. *)
Definition initialResult : ExecutionResult :=
  sampleResult 0 [] ["a.ts"; "b.ts"].

Definition sampleSession (its : list Iteration) (close : Settled unit) : Session :=
  {| deleted := Fulfilled tt;
     initial := Fulfilled initialResult;
     logged0 := Fulfilled tt;
     written0 := Fulfilled tt;
     consumer0 := Pull;
     iterations := its;
     ending := WatcherClosed;
     closed := close;
     disposed := Fulfilled tt |}.

(** One successful rebuild that reports [a.ts] only, then the watcher
    closes. *)
Definition shrinkingSession : Session :=
  sampleSession [sampleIteration (Fulfilled (sampleResult 1 [] ["a.ts"]))]
    (Fulfilled tt).

(** The second rebuild reports [b.ts] again. *)
Definition regrowingSession : Session :=
  sampleSession
    [sampleIteration (Fulfilled (sampleResult 1 [] ["a.ts"]));
     sampleIteration (Fulfilled (sampleResult 2 [] ["a.ts"; "b.ts"]))]
    (Fulfilled tt).


(** The ways out of the rebuild loop: the signal is aborted, the watcher
    fails, [watcher.add] throws, the files cannot be written, the
    consumer stops. *)
Definition abortedSession : Session :=
  sampleSession
    [sampleBatch true (Fulfilled (sampleResult 1 [] ["a.ts"])) None
       (Fulfilled tt) Pull]
    (Fulfilled tt).

Definition watcherFailedSession : Session :=
  {| deleted := Fulfilled tt;
     initial := Fulfilled initialResult;
     logged0 := Fulfilled tt;
     written0 := Fulfilled tt;
     consumer0 := Pull;
     iterations := [];
     ending := WatcherFailed "watcher failed";
     closed := Fulfilled tt;
     disposed := Rejected "dispose failed" |}.

Definition faultySession : Session :=
  sampleSession
    [sampleBatch false (Fulfilled (sampleResult 1 [] ["a.ts"; "c.ts"]))
       (Some "EMFILE") (Fulfilled tt) Pull]
    (Fulfilled tt).

Definition unwritableSession : Session :=
  sampleSession
    [sampleBatch false (Fulfilled (sampleResult 1 [] ["a.ts"])) None
       (Rejected "EACCES") Pull]
    (Fulfilled tt).

Definition stoppedSession : Session :=
  sampleSession
    [sampleBatch false (Fulfilled (sampleResult 1 [] ["a.ts"])) None
       (Fulfilled tt) Return;
     sampleIteration (Fulfilled (sampleResult 2 [] ["a.ts"]))]
    (Fulfilled tt).

(** A rebuild with an error diagnostic that reports [a.ts] only. *)
Definition erroneousSession : Session :=
  sampleSession [sampleIteration (Fulfilled (sampleResult 1 ["TS2304"] ["a.ts"]))]
    (Fulfilled tt).

(** The last [n] events of a trace. *)
Definition endOf (n : nat) (tr : list Event) : list Event :=
  skipn (List.length tr - n) tr.

(** The initial build throws. *)
Definition failedSession : Session :=
  {| deleted := Fulfilled tt;
     initial := Rejected "build failed";
     logged0 := Fulfilled tt;
     written0 := Fulfilled tt;
     consumer0 := Pull;
     iterations := [sampleIteration (Fulfilled (sampleResult 1 [] ["a.ts"]))];
     ending := WatcherClosed;
     closed := Fulfilled tt;
     disposed := Fulfilled tt |}.

(** The locals when the first rebuild of a sample session, with result
    [r], is about to be reconciled. *)
Definition sampleLocals (watchRoot : bool) (r : ExecutionResult) : Locals :=
  set_result r (loopEntry (sampleOptions true) (sampleHost watchRoot) initialResult).

(** A rebuild without errors that drops [b.ts] and brings [c.ts], and a
    rebuild with an error that reports the same files. *)
Definition cleanLocals : Locals :=
  sampleLocals true (sampleResult 1 [] ["a.ts"; "c.ts"]).


Ltac head_cases options host :=
  unfold headTrace, deleteTrace, shutdownUnlessWatching, setupTrace, emitTrace;
  destruct (deleteOutputPath options), (writeToFileSystem options),
    (watch options), (progress options), (signal options),
    (shouldWatchRoot host).

Ltac in_cases :=
  cbn; intros ev Hin;
  repeat (destruct Hin as [<- | Hin]; [repeat split; reflexivity|]);
  destruct Hin.

(** ** Further observations *)

(** The paths passed to [watcher.add], call after call. *)
Definition addedPaths (tr : list Event) : list path :=
  flat_map (fun ev => match ev with EWatcherAdd paths => paths | _ => [] end) tr.

(** The locals of a sample session in which the watcher already follows
    [a.ts] and [b.ts] and the rebuild reports the same two files, once
    each and once with a repetition. *)
Definition steadyLocals : Locals :=
  sampleLocals false (sampleResult 1 [] ["b.ts"; "a.ts"]).

Definition repeatingLocals : Locals :=
  sampleLocals false (sampleResult 1 [] ["c.ts"; "a.ts"; "c.ts"; "d.ts"; "c.ts"]).

(** A batch in which [b.ts] was deleted and whose rebuild gives [r]. *)
Definition removalBatch (r : Settled ExecutionResult) : Iteration :=
  {| changes := {| added := []; modified := []; removed := ["b.ts"] |};
     debugString := "removed: b.ts";
     aborted := false;
     listened := false;
     rebuilt := r;
     logged := Fulfilled tt;
     watcher_fault := None;
     written := Fulfilled tt;
     consumer := Pull |}.


(** Reading a trace with a state: [None] as soon as an event is not
    allowed in the state reached. *)
Fixpoint scan {A : Type} (step : A -> Event -> option A) (a : A)
    (tr : list Event) : option A :=
  match tr with
  | [] => Some a
  | ev :: rest =>
      match step a ev with
      | Some a' => scan step a' rest
      | None => None
      end
  end.

(** The state is the latest result that exists.  The build action must
    be called with the rebuild state of that result, and without one as
    long as there is none. *)
Definition chainStep (latest : option nat) (ev : Event) : option (option nat) :=
  match ev with
  | ELogMessages k => Some (Some k)
  | EAction None =>
      match latest with None => Some latest | Some _ => None end
  | EAction (Some rs) =>
      match latest with
      | Some k => if Nat.eqb (previous rs) k then Some latest else None
      | None => None
      end
  | _ => Some latest
  end.

(** The state tells whether a result has been logged and not yet
    yielded.  A result may only be logged when none is pending, and an
    output may only be yielded when one is. *)
Definition pairStep (pending : bool) (ev : Event) : option bool :=
  match ev with
  | ELogMessages _ => if pending then None else Some true
  | EYield _ => if pending then Some false else None
  | _ => Some pending
  end.

(** The state tells whether the previous event was the writing of result
    files: an output may only be yielded right after it. *)
Definition writeStep (written : bool) (ev : Event) : option bool :=
  match ev with
  | EWriteResultFiles _ _ _ => Some true
  | EYield _ => if written then Some false else None
  | _ => Some false
  end.

Definition isFileSystemEvent (ev : Event) : bool :=
  match ev with
  | EDeleteOutputDir _ _ _ | EWriteResultFiles _ _ _ => true
  | _ => false
  end.

Definition isDeleteOutputDir (ev : Event) : bool :=
  match ev with EDeleteOutputDir _ _ _ => true | _ => false end.


(** The output carries no files. *)
Definition isSummary (out : BuildActionOutput) : bool :=
  match out with Output _ => true | OutputWithFiles _ _ _ => false end.

(** The first events of a pass of the loop, and its call of the build
    action. *)
Definition passPreamble (options : Options) (it : Iteration) : list Event :=
  (if clearScreen options then [EConsoleClear] else [])
  ++ (if verbose options then [ELoggerInfo (debugString it)] else []).

Definition rebuildCall (st : Locals) (it : Iteration) : Event :=
  EAction (Some {| previous := rid (result st); fileChanges := changes it |}).

(** The last element of a list, if any. *)
Definition lastOf (l : list nat) : option nat :=
  match l with
  | [] => None
  | k :: rest => Some (last rest k)
  end.

(** What an event may be when output goes to the file system
    ([toFileSystem]) or stays in memory: the file system is only touched
    in the first case, and the outputs are summaries in the first case
    and carry the files in the second. *)
Definition respectsMode (toFileSystem : bool) (ev : Event) : bool :=
  match ev with
  | EDeleteOutputDir _ _ _ | EWriteResultFiles _ _ _ => toFileSystem
  | EYield value => Bool.eqb (isSummary value) toFileSystem
  | _ => true
  end.

(** Options that keep the output in memory, with the other switches
    turned on. *)
Definition memoryOptions : Options :=
  {| workspaceRoot := "C:\ws";
     projectRoot := "C:\ws\app";
     outputOptions := {| base := "C:\ws\dist"; browser := "browser"; server := "server" |};
     cacheOptions := {| basePath := "C:\ws\.angular\cache" |};
     writeToFileSystem := false;
     writeToFileSystemFilter := None;
     watch := true;
     verbose := true;
     progress := true;
     deleteOutputPath := true;
     poll := Some 500;
     preserveSymlinks := true;
     clearScreen := true;
     colors := false;
     jsonLogs := false;
     signal := false |}.

(** Whether a string contains a backslash. *)
Fixpoint hasBackslash (s : string) : bool :=
  match s with
  | EmptyString => false
  | String c rest => Ascii.eqb c "\"%char || hasBackslash rest
  end.


(** The output directory cannot be deleted. *)
Definition undeletableSession : Session :=
  {| deleted := Rejected "EBUSY";
     initial := Fulfilled initialResult;
     logged0 := Fulfilled tt;
     written0 := Fulfilled tt;
     consumer0 := Pull;
     iterations := [];
     ending := WatcherClosed;
     closed := Fulfilled tt;
     disposed := Fulfilled tt |}.


(** ** The licence validation script *)

(** A shallow embedding of the script that validates the licences of the
    dependencies.  [license-checker], [spdx-satisfies] and the list of
    the repository's own packages ([packages.mjs]) are not part of the
    sources: what they give is a parameter. *)
Module LicenseValidation.

Definition allowedLicenses : list string :=
  [ "MIT"; "ISC"; "Apache-2.0"; "Python-2.0"; "Artistic-2.0"; "BlueOak-1.0.0";
    "BSD-2-Clause"; "BSD-3-Clause"; "BSD-4-Clause";
    "CC-BY-3.0"; "CC-BY-4.0";
    "Unlicense"; "CC0-1.0"; "0BSD" ].

(** The own properties of the object [licenseReplacements]. *)
Definition licenseReplacements : list (string * string) :=
  [ ("Apache 2.0", "Apache-2.0");
    ("BSD", "BSD-2-Clause") ].

(** The properties every object literal inherits from
    [Object.prototype]: the operator [in] sees them too. *)
Definition objectPrototypeKeys : list string :=
  [ "constructor"; "__defineGetter__"; "__defineSetter__"; "hasOwnProperty";
    "__lookupGetter__"; "__lookupSetter__"; "isPrototypeOf";
    "propertyIsEnumerable"; "toString"; "valueOf"; "__proto__";
    "toLocaleString" ].

(** An entry of [packages]. *)
Record Package := {
  name : string;
  experimental : bool;
}.

(** [ignoredPackages] once the module is loaded: the literal, then one
    entry pushed per own package. *)
Definition ignoredPackages (packages : list Package) : list string :=
  ["pako@1.0.11"]
  ++ map (fun pkg =>
            (name pkg ++ "@"
             ++ (if experimental pkg
                 then "0.0.0-EXPERIMENTAL-PLACEHOLDER"
                 else "0.0.0-PLACEHOLDER"))%string)
         packages.

(** [x.replace(/\*$/, '')]: a final asterisk is dropped. *)
Fixpoint stripGuess (x : string) : string :=
  match x with
  | EmptyString => EmptyString
  | String c EmptyString =>
      if Ascii.eqb c "*"%char then EmptyString else x
  | String c rest => String c (stripGuess rest)
  end.

(** A licence after the replacement step: a string, or what the object
    inherits under that key, which is not a string. *)
Inductive License :=
| Named (text : string)
| Inherited (key : string).

Definition lookup (x : string) (table : list (string * string)) : option string :=
  option_map snd (find (fun entry => String.eqb (fst entry) x) table).

(** [x in licenseReplacements ? licenseReplacements[x] : x] *)
Definition replaceLicense (x : string) : License :=
  match lookup x licenseReplacements with
  | Some replacement => Named replacement
  | None =>
      if existsb (String.eqb x) objectPrototypeKeys then Inherited x
      else Named x
  end.

(** [json[key].licenses]: a string or an array of strings, which is
    what [license-checker] puts there for every package. *)
Inductive Licenses :=
| One (license : string)
| Many (licenses : list string).

(** [[].concat(value)] *)
Definition concat (value : Licenses) : list string :=
  match value with
  | One license => [license]
  | Many licenses => licenses
  end.

(** The licences of a package as they are judged. *)
Definition normalize (value : Licenses) : list License :=
  map replaceLicense (map stripGuess (concat value)).

(** What the script needs from outside: [spdxSatisfies], which may throw
    ([None]), and the text JavaScript gives for an inherited property
    when an array is joined. *)
Record Spdx := {
  spdxSatisfies : string -> string -> option bool;
  inheritedText : string -> string;
}.

(** [array.join(separator)] *)
Fixpoint join (separator : string) (parts : list string) : string :=
  match parts with
  | [] => EmptyString
  | [part] => part
  | part :: rest => (part ++ separator ++ join separator rest)%string
  end.

Definition textOf (env : Spdx) (license : License) : string :=
  match license with
  | Named text => text
  | Inherited key => inheritedText env key
  end.

(** [_passesSpdx] *)
Definition _passesSpdx (env : Spdx) (licenses : list License)
    (accepted : list string) : bool :=
  match spdxSatisfies env (join " AND " (map (textOf env) licenses))
          (join " OR " accepted) with
  | Some satisfied => satisfied
  | None => false
  end.

(** Whether a value that [find] returns is truthy: [undefined] and the
    empty string are not. *)
Definition truthy (found : option string) : bool :=
  match found with
  | Some EmptyString => false
  | Some _ => true
  | None => false
  end.

(** A package with its licences as they are judged. *)
Record Judged := {
  id : string;
  licenses : list License;
}.

(** [badLicensePackages], from the keys of [json] in their order. *)
Definition badLicensePackages (env : Spdx) (packages : list Package)
    (json : list (string * Licenses)) : list Judged :=
  filter (fun pkg =>
            negb (truthy (find (fun ignored => String.eqb ignored (id pkg))
                            (ignoredPackages packages))))
    (filter (fun pkg => negb (_passesSpdx env (licenses pkg) allowedLicenses))
       (map (fun entry => {| id := fst entry;
                             licenses := normalize (snd entry) |})
            json)).

(** What [license-checker] hands to the callback. *)
Inductive Checked :=
| CheckerError (message : string)
| CheckerResult (json : list (string * Licenses)).

(** The calls of [console], with the values that go into the text. *)
Inductive Console :=
| ErrorSomethingHappened (message : string)
| InfoTesting (count : nat)
| ErrorInvalidFound
| ErrorPackage (pkg : Judged)
| ErrorTotal (count : nat)
| InfoAllValid.

(** The default export: what is printed and the number the promise
    resolves with. *)
Definition validate (env : Spdx) (packages : list Package) (checked : Checked)
  : list Console * nat :=
  match checked with
  | CheckerError message => ([ErrorSomethingHappened message], 1)
  | CheckerResult json =>
      let bad := badLicensePackages env packages json in
      if (0 <? List.length bad)%nat then
        ([InfoTesting (List.length json); ErrorInvalidFound]
           ++ map ErrorPackage bad ++ [ErrorTotal (List.length bad)], 2)
      else
        ([InfoTesting (List.length json); InfoAllValid], 0)
  end.

End LicenseValidation.

(** The licences of a package when [license-checker] has guessed each
    of them: it marks a guess with a final asterisk. *)
Definition guessed (value : LicenseValidation.Licenses) : LicenseValidation.Licenses :=
  match value with
  | LicenseValidation.One license => LicenseValidation.One (license ++ "*")%string
  | LicenseValidation.Many licenses =>
      LicenseValidation.Many (map (fun license => (license ++ "*")%string) licenses)
  end.

Definition guessedEntry (entry : string * LicenseValidation.Licenses)
  : string * LicenseValidation.Licenses :=
  (fst entry, guessed (snd entry)).

(** The packages a report names, in its order. *)
Definition reported (lines : list LicenseValidation.Console) : list string :=
  flat_map (fun line =>
              match line with
              | LicenseValidation.ErrorPackage pkg => [LicenseValidation.id pkg]
              | _ => []
              end)
    lines.

(** Whether a licence name ends with the asterisk of a guess. *)
Fixpoint marked (x : string) : bool :=
  match x with
  | EmptyString => false
  | String c EmptyString => Ascii.eqb c "*"%char
  | String _ rest => marked rest
  end.

(** The expression [_passesSpdx] hands to [spdxSatisfies] for the
    licences of a package. *)
Definition expression (env : LicenseValidation.Spdx)
    (value : LicenseValidation.Licenses) : string :=
  LicenseValidation.join " AND "
    (map (LicenseValidation.textOf env) (LicenseValidation.normalize value)).

(** A checker that knows plain identifiers only and throws on anything
    it cannot parse. *)
Definition sampleSpdx : LicenseValidation.Spdx :=
  {| LicenseValidation.spdxSatisfies expr accepted :=
       if existsb (String.eqb expr) LicenseValidation.allowedLicenses then Some true
       else if String.eqb expr "GPL-3.0" then Some false
       else None;
     LicenseValidation.inheritedText key := "function () { [native code] }" |}.

Definition samplePackages : list LicenseValidation.Package :=
  [ {| LicenseValidation.name := "@angular/build";
       LicenseValidation.experimental := false |};
    {| LicenseValidation.name := "@angular/ssr";
       LicenseValidation.experimental := true |} ].

Definition sampleJson : list (string * LicenseValidation.Licenses) :=
  [ ("left-pad@1.3.0", LicenseValidation.One "MIT");
    ("pako@1.0.11", LicenseValidation.One "(MIT AND Zlib)");
    ("@angular/build@0.0.0-PLACEHOLDER", LicenseValidation.One "UNKNOWN");
    ("old-lib@0.1.0", LicenseValidation.Many ["BSD"]);
    ("copyleft@2.0.0", LicenseValidation.One "GPL-3.0");
    ("odd@1.0.0", LicenseValidation.One "Custom: see README") ].



(** ** Facts about [JsSet] *)

Lemma has_In x s : JsSet.has x s = true <-> In x s.
Proof.
  unfold JsSet.has. rewrite existsb_exists. split.
  - intros [y [Hy Heq]]. apply String.eqb_eq in Heq. now subst.
  - intros H. exists x. split; [assumption | apply String.eqb_refl].
Qed.

Lemma has_false x s : JsSet.has x s = false <-> ~ In x s.
Proof.
  rewrite <- has_In. destruct (JsSet.has x s); split; intros; congruence.
Qed.

Lemma In_add p x s : In p (JsSet.add x s) <-> p = x \/ In p s.
Proof.
  unfold JsSet.add. destruct (JsSet.has x s) eqn:E.
  - apply has_In in E. split; [tauto | intros [-> | H]; assumption].
  - rewrite in_app_iff. simpl. intuition congruence.
Qed.

Lemma In_delete p x s : In p (JsSet.delete x s) <-> In p s /\ p <> x.
Proof.
  unfold JsSet.delete. rewrite filter_In, negb_true_iff, String.eqb_neq.
  intuition congruence.
Qed.

Lemma In_add_all p xs : forall s, In p (JsSet.add_all xs s) <-> In p xs \/ In p s.
Proof.
  unfold JsSet.add_all. induction xs as [|x xs IH]; intros s; simpl.
  - tauto.
  - rewrite IH, In_add. intuition congruence.
Qed.

Lemma In_delete_all p xs :
  forall s, In p (JsSet.delete_all xs s) <-> In p s /\ ~ In p xs.
Proof.
  unfold JsSet.delete_all. induction xs as [|x xs IH]; intros s; simpl.
  - tauto.
  - rewrite IH, In_delete. intuition congruence.
Qed.

Lemma In_of_list p xs : In p (JsSet.of_list xs) <-> In p xs.
Proof. unfold JsSet.of_list. rewrite In_add_all. simpl. tauto. Qed.

Lemma size_zero s : (0 <? JsSet.size s)%nat = false -> s = [].
Proof.
  destruct s; [reflexivity | simpl; discriminate].
Qed.

(** ** The reconciliation of the watch set *)

Lemma reconcileLoop_cons fault f rest stale st :
  reconcileLoop fault (f :: rest) stale st =
  if JsSet.has f (currentWatchFiles st) then
    reconcileLoop fault rest (option_map (JsSet.delete f) stale) st
  else
    match fault with
    | Some e => ([EWatcherAdd [f]], st, Throws e)
    | None =>
        match reconcileLoop fault rest (option_map (JsSet.delete f) stale)
                (set_currentWatchFiles (JsSet.add f (currentWatchFiles st))
                   (set_watcher (BuildWatcher.add [f] (watcher st)) st)) with
        | (t, s, c) => (EWatcherAdd [f] :: t, s, c)
        end
    end.
Proof.
  cbn [reconcileLoop]. unfold bind at 1. unfold get at 1.
  destruct (JsSet.has f (currentWatchFiles st)) eqn:E; cbn [negb when].
  - unfold bind, ret.
    destruct (reconcileLoop fault rest _ st) as [[t s] c]. reflexivity.
  - destruct fault as [e|]; unfold watcherAdd, bind, emit, modify; cbn.
    + reflexivity.
    + destruct (reconcileLoop None rest _ _) as [[t s] c]. reflexivity.
Qed.

(** What the loop over [result.watchFiles] has done when it completes. *)
Lemma reconcileLoop_spec fault files :
  forall stale st tr st' stale',
    reconcileLoop fault files stale st = (tr, st', Normal stale') ->
    result st' = result st
    /\ (forall p, In p (currentWatchFiles st') <->
                  In p (currentWatchFiles st) \/ In p files)
    /\ (forall p, In p (BuildWatcher.watched (watcher st')) <->
                  In p (BuildWatcher.watched (watcher st))
                  \/ (In p files /\ ~ In p (currentWatchFiles st)))
    /\ stale' = option_map (JsSet.delete_all files) stale
    /\ (forall ev, In ev tr ->
          exists p, ev = EWatcherAdd [p] /\ In p files
                    /\ ~ In p (currentWatchFiles st))
    /\ (forall p, In p files -> ~ In p (currentWatchFiles st) ->
          In (EWatcherAdd [p]) tr).
Proof.
  induction files as [|f rest IH]; intros stale st tr st' stale' H.
  - cbn in H. inversion H; subst.
    split; [reflexivity|]. split; [|split; [|split; [|split]]].
    + intros p. simpl. tauto.
    + intros p. simpl. tauto.
    + now destruct stale'.
    + intros ev [].
    + intros p [].
  - rewrite reconcileLoop_cons in H.
    destruct (JsSet.has f (currentWatchFiles st)) eqn:E.
    + apply has_In in E.
      destruct (IH _ _ _ _ _ H) as (Hr & HC & HW & Hs & He & Ha).
      split; [assumption|]. split; [|split; [|split; [|split]]].
      * intros p. rewrite HC. simpl. intuition congruence.
      * intros p. rewrite HW. simpl.
        destruct (string_dec p f) as [->|Hne]; [tauto | intuition congruence].
      * rewrite Hs. now destruct stale.
      * intros ev Hev. destruct (He ev Hev) as (p & -> & Hp & Hn).
        exists p. simpl. tauto.
      * intros p [<- | Hp] Hn; [contradiction | now apply Ha].
    + apply has_false in E. destruct fault as [e|]; [discriminate|].
      destruct (reconcileLoop None rest _ _) as [[t s] c] eqn:R.
      inversion H; subst. clear H.
      destruct (IH _ _ _ _ _ R) as (Hr & HC & HW & Hs & He & Ha).
      cbn in Hr, HC, HW, He, Ha.
      split; [assumption|]. split; [|split; [|split; [|split]]].
      * intros p. rewrite HC, In_add. simpl. intuition congruence.
      * intros p. rewrite HW.
        unfold JsSet.add_all. cbn [fold_left]. rewrite !In_add. simpl.
        destruct (string_dec p f) as [->|Hne]; [tauto|].
        intuition congruence.
      * rewrite Hs. now destruct stale.
      * intros ev [<- | Hev].
        -- exists f. simpl. tauto.
        -- destruct (He ev Hev) as (p & -> & Hp & Hn).
           exists p. rewrite In_add in Hn. simpl. tauto.
      * intros p Hp Hn. destruct (string_dec p f) as [->|Hne].
        -- now left.
        -- right. destruct Hp as [->|Hp]; [congruence|].
           apply Ha; [assumption|]. rewrite In_add. tauto.
Qed.

(** What the loop has done however it ends. *)
Lemma reconcileLoop_any fault files :
  forall stale st tr st' c,
    reconcileLoop fault files stale st = (tr, st', c) ->
    result st' = result st
    /\ (forall p, In p (currentWatchFiles st) -> In p (currentWatchFiles st'))
    /\ (forall p, In p (BuildWatcher.watched (watcher st)) ->
                  In p (BuildWatcher.watched (watcher st')))
    /\ (forall ev, In ev tr ->
          exists p, ev = EWatcherAdd [p] /\ ~ In p (currentWatchFiles st))
    /\ (forall p, In p (currentWatchFiles st') ->
          In p (currentWatchFiles st) \/ In (EWatcherAdd [p]) tr)
    /\ c <> Returns.
Proof.
  induction files as [|f rest IH]; intros stale st tr st' c H.
  - cbn in H. inversion H; subst.
    repeat split; try tauto; try discriminate. intros ev [].
  - rewrite reconcileLoop_cons in H.
    destruct (JsSet.has f (currentWatchFiles st)) eqn:E.
    + exact (IH _ _ _ _ _ H).
    + apply has_false in E. destruct fault as [e|].
      * inversion H; subst. repeat split; try tauto; try discriminate.
        intros ev [<- | []]. now exists f.
      * destruct (reconcileLoop None rest _ _) as [[t s] c'] eqn:R.
        inversion H; subst. clear H.
        destruct (IH _ _ _ _ _ R) as (Hr & HC & HW & He & Ha & Hc).
        cbn in Hr, HC, HW, He, Ha.
        split; [assumption|]. split; [|split; [|split; [|split]]].
        -- intros p Hp. apply HC, In_add. tauto.
        -- intros p Hp. apply HW.
           unfold JsSet.add_all. cbn [fold_left]. apply In_add. tauto.
        -- intros ev [<- | Hev]; [now exists f|].
           destruct (He ev Hev) as (p & -> & Hn).
           exists p. rewrite In_add in Hn. tauto.
        -- intros p Hp. destruct (Ha p Hp) as [Hin | Hin].
           ++ apply In_add in Hin. destruct Hin as [->|Hin]; simpl; tauto.
           ++ simpl. tauto.
        -- assumption.
Qed.

(** Without a watcher fault the loop always completes. *)
Lemma reconcileLoop_completes files :
  forall stale st, exists tr st' stale',
    reconcileLoop None files stale st = (tr, st', Normal stale').
Proof.
  induction files as [|f rest IH]; intros stale st.
  - cbn. unfold ret. eauto.
  - rewrite reconcileLoop_cons.
    destruct (JsSet.has f (currentWatchFiles st)).
    + apply IH.
    + edestruct IH as (tr & st' & stale' & R). rewrite R. eauto.
Qed.

Lemma reconcile_unfold fault st :
  reconcile fault st =
  match reconcileLoop fault (watchFiles (result st))
          (if (0 <? List.length (errors (result st)))%nat then None
           else Some (JsSet.of_list (currentWatchFiles st))) st with
  | (t1, s1, Normal (Some stale)) =>
      if (0 <? JsSet.size stale)%nat then
        match fault with
        | Some e => (t1 ++ [EWatcherRemove stale], s1, Throws e)
        | None =>
            (t1 ++ [EWatcherRemove stale],
             set_watcher (BuildWatcher.remove stale (watcher s1)) s1, Normal tt)
        end
      else (t1 ++ [], s1, Normal tt)
  | (t1, s1, Normal None) => (t1 ++ [], s1, Normal tt)
  | (t1, s1, Throws e) => (t1, s1, Throws e)
  | (t1, s1, Returns) => (t1, s1, Returns)
  end.
Proof.
  unfold reconcile. unfold bind at 1. unfold get at 1.
  unfold bind at 1.
  destruct (reconcileLoop fault (watchFiles (result st)) _ st) as [[t1 s1] [[stale|]|e|]];
    try reflexivity.
  destruct (0 <? JsSet.size stale)%nat; [|reflexivity].
  destruct fault; reflexivity.
Qed.

(** What the reconciliation has done when it completes. *)
Lemma reconcile_normal fault st tr st' :
  reconcile fault st = (tr, st', Normal tt) ->
  result st' = result st
  /\ (forall p, In p (currentWatchFiles st') <->
                In p (currentWatchFiles st) \/ In p (watchFiles (result st)))
  /\ (forall p, In p (BuildWatcher.watched (watcher st')) <->
                (In p (BuildWatcher.watched (watcher st))
                 \/ (In p (watchFiles (result st))
                     /\ ~ In p (currentWatchFiles st)))
                /\ (errors (result st) = [] ->
                    ~ (In p (currentWatchFiles st)
                       /\ ~ In p (watchFiles (result st)))))
  /\ (forall p, In p (watchFiles (result st)) ->
                ~ In p (currentWatchFiles st) -> In (EWatcherAdd [p]) tr)
  /\ (forall paths p, In (EWatcherAdd paths) tr -> In p paths ->
                In p (watchFiles (result st)) /\ ~ In p (currentWatchFiles st))
  /\ (errors (result st) <> [] ->
      forall ev, In ev tr -> isWatcherRemove ev = false).
Proof.
  intros H. rewrite reconcile_unfold in H.
  destruct (reconcileLoop fault _ _ st) as [[t1 s1] [stale'| |]] eqn:R;
    try discriminate.
  destruct (reconcileLoop_spec _ _ _ _ R) as (Hr & HC & HW & Hs & He & Ha).
  assert (Hadds : forall paths p, In (EWatcherAdd paths) t1 -> In p paths ->
            In p (watchFiles (result st)) /\ ~ In p (currentWatchFiles st)).
  { intros paths p Hin Hp. destruct (He _ Hin) as (q & Heq & Hq & Hn).
    inversion Heq; subst. destruct Hp as [<- | []]. tauto. }
  destruct (errors (result st)) as [|e0 errs] eqn:Eerr; cbn in Hs; subst stale'.
  - (* no errors: the stale paths are removed *)
    cbn [option_map] in H.
    set (stale := JsSet.delete_all (watchFiles (result st))
                    (JsSet.of_list (currentWatchFiles st))) in *.
    assert (Hstale : forall p, In p stale <->
              In p (currentWatchFiles st) /\ ~ In p (watchFiles (result st))).
    { intros p. unfold stale. rewrite In_delete_all, In_of_list. tauto. }
    destruct (0 <? JsSet.size stale)%nat eqn:Esz.
    + destruct fault as [e|]; [discriminate|]. inversion H; subst. clear H.
      cbn. split; [assumption|]. split; [assumption|].
      split; [|split; [|split]].
      * intros p. rewrite In_delete_all, HW, Hstale. tauto.
      * intros p Hp Hn. apply in_or_app. left. now apply Ha.
      * intros paths p Hin Hp. apply in_app_or in Hin.
        destruct Hin as [Hin | [Hin | []]]; [eauto | discriminate].
      * intros Hne. congruence.
    + inversion H; subst. clear H. apply size_zero in Esz.
      split; [assumption|]. split; [assumption|].
      split; [|split; [|split]].
      * intros p. rewrite HW. specialize (Hstale p). rewrite Esz in Hstale.
        simpl in Hstale. tauto.
      * intros p Hp Hn. rewrite app_nil_r. now apply Ha.
      * intros paths p. rewrite app_nil_r. eauto.
      * intros Hne. congruence.
  - (* errors: nothing is stale *)
    cbn [option_map] in H. inversion H; subst. clear H.
    split; [assumption|]. split; [assumption|].
    split; [|split; [|split]].
    + intros p. rewrite HW. split; [|tauto]. intros Hp. split; [assumption|].
      discriminate.
    + intros p Hp Hn. rewrite app_nil_r. now apply Ha.
    + intros paths p. rewrite app_nil_r. eauto.
    + intros _ ev. rewrite app_nil_r. intros Hin.
      destruct (He _ Hin) as (q & -> & _). reflexivity.
Qed.

(** What the reconciliation has done however it ends. *)
Lemma reconcile_any fault st tr st' c :
  reconcile fault st = (tr, st', c) ->
  result st' = result st
  /\ (forall p, In p (currentWatchFiles st) -> In p (currentWatchFiles st'))
  /\ (forall p, In p (currentWatchFiles st') ->
        In p (currentWatchFiles st) \/ addedIn tr p)
  /\ Forall (fun ev => isWatcherOp ev = true) tr
  /\ c <> Returns
  /\ (errors (result st) <> [] ->
      (forall ev, In ev tr -> isWatcherRemove ev = false)
      /\ (forall p, In p (BuildWatcher.watched (watcher st)) ->
                    In p (BuildWatcher.watched (watcher st')))).
Proof.
  intros H. rewrite reconcile_unfold in H.
  destruct (reconcileLoop fault _ _ st) as [[t1 s1] c1] eqn:R.
  destruct (reconcileLoop_any _ _ _ _ R) as (Hr & HC & HW & He & Ha & Hc).
  assert (Hops : Forall (fun ev => isWatcherOp ev = true) t1).
  { apply Forall_forall. intros ev Hin. destruct (He _ Hin) as (q & -> & _).
    reflexivity. }
  assert (Hadd : forall t2 p, In p (currentWatchFiles s1) ->
            In p (currentWatchFiles st) \/ addedIn (t1 ++ t2) p).
  { intros t2 p Hp. destruct (Ha p Hp) as [Hin | Hin]; [now left|].
    right. exists [p]. split; [apply in_or_app; now left | now left]. }
  assert (Hrem : forall ev, In ev t1 -> isWatcherRemove ev = false).
  { intros ev Hin. destruct (He _ Hin) as (q & -> & _). reflexivity. }
  destruct c1 as [[stale|]|e|].
  - destruct (errors (result st)) as [|e0 errs] eqn:Eerr.
    + destruct (0 <? JsSet.size stale)%nat.
      * destruct fault as [e|]; inversion H; subst; clear H; cbn;
          (split; [assumption|]; split; [assumption|]; split; [apply Hadd|];
           split; [apply Forall_app; split; [assumption | now repeat constructor]|];
           split; [discriminate | congruence]).
      * inversion H; subst. clear H.
        split; [assumption|]. split; [assumption|]. split; [apply Hadd|].
        split; [now rewrite app_nil_r|]. split; [discriminate | congruence].
    + cbn in R.
      destruct (reconcileLoop_spec _ _ _ _ R) as (_ & _ & _ & Hs & _).
      discriminate.
  - inversion H; subst. clear H.
    split; [assumption|]. split; [assumption|]. split; [apply Hadd|].
    split; [now rewrite app_nil_r|]. split; [discriminate|].
    intros _. rewrite app_nil_r. split; assumption.
  - inversion H; subst. clear H.
    split; [assumption|]. split; [assumption|].
    split; [intros p Hp; specialize (Hadd [] p Hp); now rewrite app_nil_r in Hadd|].
    split; [assumption|]. split; [discriminate|].
    intros _. split; assumption.
  - congruence.
Qed.

(** Whatever happens, [watcher.add] is only called with paths that are
    not in [currentWatchFiles]. *)
Lemma reconcile_adds_new fault st tr st' c :
  reconcile fault st = (tr, st', c) ->
  forall paths p, In (EWatcherAdd paths) tr -> In p paths ->
    ~ In p (currentWatchFiles st).
Proof.
  intros H paths p Hin Hp. rewrite reconcile_unfold in H.
  destruct (reconcileLoop fault _ _ st) as [[t1 s1] c1] eqn:R.
  destruct (reconcileLoop_any _ _ _ _ R) as (_ & _ & _ & He & _).
  assert (Hin1 : In (EWatcherAdd paths) t1).
  { destruct c1 as [[stale|]|e|].
    - destruct (0 <? JsSet.size stale)%nat.
      + destruct fault; inversion H; subst; apply in_app_or in Hin;
          destruct Hin as [Hin | [Hin | []]]; try assumption; discriminate.
      + inversion H; subst. now rewrite app_nil_r in Hin.
    - inversion H; subst. now rewrite app_nil_r in Hin.
    - inversion H; subst. assumption.
    - inversion H; subst. assumption. }
  destruct (He _ Hin1) as (q & Heq & Hn). inversion Heq; subst.
  destruct Hp as [<- | []]. exact Hn.
Qed.

(** Without a watcher fault the reconciliation completes. *)
Lemma reconcile_completes st tr st' c :
  reconcile None st = (tr, st', c) -> c = Normal tt.
Proof.
  intros H. rewrite reconcile_unfold in H.
  destruct (reconcileLoop_completes (watchFiles (result st))
              (if (0 <? List.length (errors (result st)))%nat then None
               else Some (JsSet.of_list (currentWatchFiles st))) st)
    as (t1 & s1 & stale & R).
  rewrite R in H. destruct stale as [stale|].
  - destruct (0 <? JsSet.size stale)%nat; inversion H; reflexivity.
  - inversion H; reflexivity.
Qed.

(** ** One pass of the rebuild loop *)

Lemma watcherOp_loopEvent tr :
  Forall (fun ev => isWatcherOp ev = true) tr ->
  Forall (fun ev => loopEvent ev = true) tr.
Proof.
  apply Forall_impl. intros [] H; try discriminate; reflexivity.
Qed.

Lemma builds_app t1 t2 : builds (t1 ++ t2) = builds t1 ++ builds t2.
Proof.
  induction t1 as [|ev t1 IH]; [reflexivity|].
  destruct ev; simpl; rewrite ?IH; reflexivity.
Qed.

Lemma builds_watcherOps tr :
  Forall (fun ev => isWatcherOp ev = true) tr -> builds tr = [].
Proof.
  induction 1 as [|ev tr Hev _ IH]; [reflexivity|].
  destruct ev; try discriminate; exact IH.
Qed.

Lemma addedIn_app_l t1 t2 p : addedIn t1 p -> addedIn (t1 ++ t2) p.
Proof.
  intros (ps & Hin & Hp). exists ps. split; [apply in_or_app; now left | assumption].
Qed.

Lemma addedIn_app_r t1 t2 p : addedIn t2 p -> addedIn (t1 ++ t2) p.
Proof.
  intros (ps & Hin & Hp). exists ps. split; [apply in_or_app; now right | assumption].
Qed.

Lemma rebuild_unfold options it st :
  rebuild options it st =
  let pre := (if clearScreen options then [EConsoleClear] else [])
             ++ (if verbose options then [ELoggerInfo (debugString it)] else []) in
  let st1 := set_currentWatchFiles
               (JsSet.delete_all (removed (changes it)) (currentWatchFiles st)) st in
  let act := EAction (Some {| previous := rid (result st);
                              fileChanges := changes it |}) in
  match rebuilt it with
  | Rejected e => (pre ++ [act], st1, Throws e)
  | Fulfilled r =>
      match logged it with
      | Rejected e => (pre ++ [act; ELogMessages (rid r)], set_result r st1, Throws e)
      | Fulfilled _ =>
          match reconcile (watcher_fault it) (set_result r st1) with
          | (tR, sR, Normal _) =>
              if writeToFileSystem options then
                let w := EWriteResultFiles
                           match writeToFileSystemFilter options with
                           | Some f => filter f (outputFiles r)
                           | None => outputFiles r
                           end (assetFiles r) (outputOptions options) in
                match written it with
                | Rejected e =>
                    (pre ++ [act; ELogMessages (rid r)] ++ tR ++ [w], sR, Throws e)
                | Fulfilled _ =>
                    (pre ++ [act; ELogMessages (rid r)] ++ tR
                         ++ [w; EYield (output r)], sR, afterYield (consumer it))
                end
              else
                (pre ++ [act; ELogMessages (rid r)] ++ tR
                     ++ [EYield (outputWithFiles r)], sR, afterYield (consumer it))
          | (tR, sR, Throws e) =>
              (pre ++ [act; ELogMessages (rid r)] ++ tR, sR, Throws e)
          | (tR, sR, Returns) =>
              (pre ++ [act; ELogMessages (rid r)] ++ tR, sR, Returns)
          end
      end
  end.
Proof.
  unfold rebuild.
  unfold bind, when, emit, modify, get, await, yield, writeAndEmitOutput, ret.
  destruct (clearScreen options), (verbose options), (rebuilt it) as [r|e];
    cbn -[reconcile]; try reflexivity;
    destruct (logged it) as [[]|e]; cbn -[reconcile]; try reflexivity;
    match goal with
    | |- context [reconcile ?f ?s] => destruct (reconcile f s) as [[tR sR] [[]|e|]]
    end; cbn; rewrite ?app_nil_r; try reflexivity;
    destruct (writeToFileSystem options); cbn;
    try destruct (written it) as [[]|e]; cbn;
    try destruct (consumer it); cbn;
    repeat (rewrite <- ?app_assoc; cbn); rewrite ?app_nil_r; reflexivity.
Qed.

Lemma loopEvent_pre options it :
  Forall (fun ev => loopEvent ev = true)
    ((if clearScreen options then [EConsoleClear] else [])
     ++ (if verbose options then [ELoggerInfo (debugString it)] else [])).
Proof.
  destruct (clearScreen options), (verbose options); repeat constructor.
Qed.

Lemma builds_pre options it :
  builds ((if clearScreen options then [EConsoleClear] else [])
          ++ (if verbose options then [ELoggerInfo (debugString it)] else [])) = [].
Proof.
  destruct (clearScreen options), (verbose options); reflexivity.
Qed.

Lemma rebuild_effect options it st tr st' c :
  rebuild options it st = (tr, st', c) ->
  Forall (fun ev => loopEvent ev = true) tr
  /\ match rebuilt it with
     | Fulfilled r => result st' = r /\ builds tr = [rid r]
     | Rejected _ => result st' = result st /\ builds tr = []
     end
  /\ (forall p, In p (currentWatchFiles st') ->
        In p (currentWatchFiles st) \/ addedIn tr p).
Proof.
  intros H. rewrite rebuild_unfold in H. cbv zeta in H.
  pose proof (loopEvent_pre options it) as Hpre.
  pose proof (builds_pre options it) as Hbpre.
  set (pre := _ ++ _) in *.
  assert (Hdel : forall p,
            In p (JsSet.delete_all (removed (changes it)) (currentWatchFiles st)) ->
            In p (currentWatchFiles st)).
  { intros p Hp. apply In_delete_all in Hp. tauto. }
  destruct (rebuilt it) as [r|e].
  2:{ inversion H; subst; clear H. split; [|split].
      - apply Forall_app. split; [assumption | repeat constructor].
      - split; [reflexivity|]. rewrite builds_app, Hbpre. reflexivity.
      - cbn. auto. }
  destruct (logged it) as [[]|e].
  2:{ inversion H; subst; clear H. split; [|split].
      - apply Forall_app. split; [assumption | repeat constructor].
      - split; [reflexivity|]. rewrite builds_app, Hbpre. reflexivity.
      - cbn. auto. }
  destruct (reconcile _ _) as [[tR sR] cR] eqn:R.
  destruct (reconcile_any _ _ R) as (Hr & HC & HA & Hops & Hc & _).
  cbn in Hr, HC, HA.
  pose proof (watcherOp_loopEvent Hops) as Hloop.
  pose proof (builds_watcherOps Hops) as Hb.
  assert (HA' : forall suf p, In p (currentWatchFiles sR) ->
            In p (currentWatchFiles st) \/
            addedIn (pre ++ [EAction (Some {| previous := rid (result st);
                                               fileChanges := changes it |});
                             ELogMessages (rid r)] ++ tR ++ suf) p).
  { intros suf p Hp. destruct (HA p Hp) as [Hin | Hin]; [left; auto|].
    right. apply addedIn_app_r, addedIn_app_r, addedIn_app_l. exact Hin. }
  assert (Hev : forall suf, Forall (fun ev => loopEvent ev = true) suf ->
            Forall (fun ev => loopEvent ev = true)
              (pre ++ [EAction (Some {| previous := rid (result st);
                                        fileChanges := changes it |});
                       ELogMessages (rid r)] ++ tR ++ suf)).
  { intros suf Hs. apply Forall_app. split; [assumption|].
    apply Forall_app. split; [repeat constructor|].
    apply Forall_app. split; assumption. }
  assert (Hbs : forall suf, builds suf = [] ->
            builds (pre ++ [EAction (Some {| previous := rid (result st);
                                             fileChanges := changes it |});
                            ELogMessages (rid r)] ++ tR ++ suf) = [rid r]).
  { intros suf Hs. rewrite !builds_app, Hbpre, Hb, Hs. reflexivity. }
  destruct cR as [[]|e|]; [| |congruence].
  - destruct (writeToFileSystem options).
    + destruct (written it) as [[]|e]; inversion H; subst; clear H.
      * split; [apply Hev; repeat constructor|].
        split; [split; [congruence | now apply Hbs]|]. apply HA'.
      * split; [apply Hev; repeat constructor|].
        split; [split; [congruence | now apply Hbs]|]. apply HA'.
    + inversion H; subst; clear H.
      split; [apply Hev; repeat constructor|].
      split; [split; [congruence | now apply Hbs]|]. apply HA'.
  - inversion H; subst; clear H.
    specialize (Hev [] (Forall_nil _)). specialize (Hbs [] eq_refl).
    rewrite app_nil_r in Hev, Hbs.
    split; [exact Hev|]. split; [split; [congruence | exact Hbs]|].
    intros p Hp. specialize (HA' [] p Hp). now rewrite app_nil_r in HA'.
Qed.

(** The four ways a pass of the loop can go: the build throws; the build
    returns but the logging or a watcher call throws; the files cannot be
    written; the output is yielded. *)
Lemma rebuild_shape options it st tr st' c :
  rebuild options it st = (tr, st', c) ->
  exists tR,
    Forall (fun ev => isWatcherOp ev = true) tR
    /\ ((exists e,
           rebuilt it = Rejected e
           /\ tr = passPreamble options it ++ [rebuildCall st it]
           /\ c = Throws e
           /\ result st' = result st)
        \/ (exists r,
              rebuilt it = Fulfilled r
              /\ result st' = r
              /\ ((exists e,
                     tr = passPreamble options it
                          ++ [rebuildCall st it; ELogMessages (rid r)] ++ tR
                     /\ c = Throws e)
                  \/ (exists e,
                        writeToFileSystem options = true
                        /\ tr = passPreamble options it
                             ++ [rebuildCall st it; ELogMessages (rid r)] ++ tR
                             ++ emitTrace options r
                        /\ c = Throws e)
                  \/ (tr = passPreamble options it
                           ++ [rebuildCall st it; ELogMessages (rid r)] ++ tR
                           ++ emitTrace options r ++ [EYield (emitted options r)]
                      /\ c = afterYield (consumer it))))).
Proof.
  intros H. rewrite rebuild_unfold in H. cbv zeta in H.
  fold (passPreamble options it) in H. fold (rebuildCall st it) in H.
  destruct (rebuilt it) as [r|e].
  2:{ exists []. split; [constructor|]. left. exists e.
      inversion H; subst. repeat split. }
  destruct (logged it) as [[]|e].
  2:{ exists []. split; [constructor|]. right. exists r.
      inversion H; subst. split; [reflexivity|]. split; [reflexivity|].
      left. exists e. split; reflexivity. }
  destruct (reconcile _ _) as [[tR sR] cR] eqn:R.
  destruct (reconcile_any _ _ R) as (Hr & _ & _ & Hops & Hc & _).
  cbn in Hr. exists tR. split; [assumption|]. right. exists r.
  split; [reflexivity|].
  unfold emitTrace, emitted.
  destruct cR as [[]|e|]; [| |congruence].
  - destruct (writeToFileSystem options).
    + destruct (written it) as [[]|e]; inversion H; subst; clear H;
        (split; [congruence|]).
      * right. right. split; reflexivity.
      * right. left. exists e. repeat split.
    + inversion H; subst; clear H. split; [congruence|].
      right. right. split; reflexivity.
  - inversion H; subst; clear H. split; [congruence|].
    left. exists e. split; reflexivity.
Qed.

Lemma forallb_watcherOps (f : Event -> bool) tR :
  (forall ps, f (EWatcherAdd ps) = true) ->
  (forall ps, f (EWatcherRemove ps) = true) ->
  Forall (fun ev => isWatcherOp ev = true) tR ->
  forallb f tR = true.
Proof.
  intros H1 H2 H. apply forallb_forall. rewrite Forall_forall in H.
  intros ev Hin. specialize (H ev Hin). destruct ev; try discriminate; auto.
Qed.

Lemma forallb_preamble (f : Event -> bool) options it :
  f EConsoleClear = true ->
  (forall s, f (ELoggerInfo s) = true) ->
  forallb f (passPreamble options it) = true.
Proof.
  intros H1 H2. unfold passPreamble.
  destruct (clearScreen options), (verbose options); cbn;
    rewrite ?H1, ?H2; reflexivity.
Qed.


(** ** The rebuild loop *)

Lemma last_cons_default {A} (l : list A) :
  forall a d d', last (a :: l) d = last (a :: l) d'.
Proof.
  induction l as [|b l IH]; intros a d d'; [reflexivity|].
  change (last (b :: l) d = last (b :: l) d'). apply IH.
Qed.

Lemma last_app_default {A} (l1 l2 : list A) d :
  last (l1 ++ l2) d = last l2 (last l1 d).
Proof.
  induction l1 as [|a l1 IH]; [reflexivity|].
  destruct l1 as [|b l1].
  - destruct l2 as [|c l2]; [reflexivity|].
    change (last (c :: l2) d = last (c :: l2) a). apply last_cons_default.
  - exact IH.
Qed.

Lemma rebuildLoop_cons options it rest ending st :
  rebuildLoop options (it :: rest) ending st =
  if signal options && aborted it
  then (if listened it then [EWatcherClose] else [], st, Normal tt)
  else
    match rebuild options it st with
    | (t1, s1, Normal _) =>
        match rebuildLoop options rest ending s1 with
        | (t2, s2, c) => (t1 ++ t2, s2, c)
        end
    | (t1, s1, Throws e) => (t1, s1, Throws e)
    | (t1, s1, Returns) => (t1, s1, Returns)
    end.
Proof.
  cbn [rebuildLoop].
  destruct (signal options && aborted it); [destruct (listened it)|];
    reflexivity.
Qed.

Lemma rebuildLoop_nil options ending st :
  rebuildLoop options [] ending st =
  match ending with
  | WatcherClosed => ([], st, Normal tt)
  | WatcherAborted =>
      (if signal options then [EWatcherClose] else [], st, Normal tt)
  | WatcherFailed e => ([], st, Throws e)
  end.
Proof.
  destruct ending; cbn [rebuildLoop]; unfold when;
    [| destruct (signal options) |]; reflexivity.
Qed.

(** The rebuild loop performs loop events only, leaves the latest build
    in [result], and every path it puts into [currentWatchFiles] was
    passed to [watcher.add]. *)
Lemma rebuildLoop_effect options its ending :
  forall st tr st' c,
    rebuildLoop options its ending st = (tr, st', c) ->
    Forall (fun ev => loopEvent ev = true) tr
    /\ last (builds tr) (rid (result st)) = rid (result st')
    /\ (forall p, In p (currentWatchFiles st') ->
          In p (currentWatchFiles st) \/ addedIn tr p).
Proof.
  induction its as [|it rest IH]; intros st tr st' c H.
  - rewrite rebuildLoop_nil in H.
    destruct ending; [| destruct (signal options) |];
      inversion H; subst; repeat split; auto; repeat constructor.
  - rewrite rebuildLoop_cons in H.
    destruct (signal options && aborted it).
    { destruct (listened it); inversion H; subst; repeat split; auto;
        repeat constructor. }
    destruct (rebuild options it st) as [[t1 s1] c1] eqn:R.
    destruct (rebuild_effect _ _ _ R) as (Hev & Hb & HA).
    assert (Hlast : last (builds t1) (rid (result st)) = rid (result s1)).
    { destruct (rebuilt it); destruct Hb as [Hr Hb]; rewrite Hb; simpl; congruence. }
    destruct c1 as [[]|e|].
    + destruct (rebuildLoop options rest ending s1) as [[t2 s2] c2] eqn:L.
      inversion H; subst; clear H.
      destruct (IH _ _ _ _ L) as (Hev2 & Hb2 & HA2).
      split; [apply Forall_app; split; assumption|]. split.
      * rewrite builds_app, last_app_default, Hlast. exact Hb2.
      * intros p Hp. destruct (HA2 p Hp) as [Hin | Hin].
        -- destruct (HA p Hin) as [Hin' | Hin']; [now left|].
           right. now apply addedIn_app_l.
        -- right. now apply addedIn_app_r.
    + inversion H; subst; clear H. repeat split; assumption.
    + inversion H; subst; clear H. repeat split; assumption.
Qed.



(** ** The whole generator *)

Lemma setupWatcher_unfold options host r s :
  setupWatcher options host r s =
  (setupTrace options host r, s, Normal (watcher (loopEntry options host r))).
Proof.
  unfold setupWatcher, setupTrace, loopEntry, addTo, bind, when, emit, ret.
  destruct (progress options), (signal options), (shouldWatchRoot host);
    reflexivity.
Qed.

Lemma run_unfold options host sess :
  run options host sess =
  match (if deleteOutputPath options && writeToFileSystem options
         then deleted sess else Fulfilled tt) with
  | Rejected e => (deleteTrace options, None, Throws e)
  | Fulfilled _ =>
      match initial sess with
      | Rejected e =>
          (deleteTrace options ++ [EAction None] ++ shutdownUnlessWatching options,
           None, Throws e)
      | Fulfilled r =>
          match logged0 sess with
          | Rejected e =>
              (deleteTrace options ++ [EAction None; ELogMessages (rid r)]
                 ++ shutdownUnlessWatching options, None, Throws e)
          | Fulfilled _ =>
              match (if writeToFileSystem options
                     then written0 sess else Fulfilled tt) with
              | Rejected e => (headTrace options host r, None, Throws e)
              | Fulfilled _ =>
                  match consumer0 sess with
                  | Return =>
                      (headTrace options host r ++ [EYield (emitted options r)],
                       None, Returns)
                  | Pull =>
                      if watch options then
                        match rebuildLoop options (iterations sess) (ending sess)
                                (loopEntry options host r) with
                        | (tr, st', c) =>
                            (headTrace options host r
                               ++ [EYield (emitted options r)]
                               ++ tr ++ teardownTrace st', Some st', c)
                        end
                      else
                        (headTrace options host r ++ [EYield (emitted options r)],
                         None, Normal tt)
                  end
              end
          end
      end
  end.
Proof.
  unfold run, runEsBuildBuildAction, initialBuild, headTrace, deleteTrace,
    shutdownUnlessWatching, emitTrace, emitted, teardownTrace.
  unfold try_finally, yield, writeAndEmitOutput, enter, teardown, allSettled.
  unfold bind, when, emit, await, ret, get.
  destruct (deleteOutputPath options), (writeToFileSystem options);
    cbn -[setupWatcher rebuildLoop];
    try (destruct (deleted sess) as [[]|e]; cbn -[setupWatcher rebuildLoop];
         [|reflexivity]);
    (destruct (initial sess) as [r|e]; cbn -[setupWatcher rebuildLoop];
     [|destruct (watch options); reflexivity]);
    (destruct (logged0 sess) as [[]|e]; cbn -[setupWatcher rebuildLoop];
     [|destruct (watch options); reflexivity]);
    destruct (watch options); cbn -[setupWatcher rebuildLoop];
    rewrite ?setupWatcher_unfold; cbn -[setupTrace rebuildLoop loopEntry];
    try (destruct (written0 sess) as [[]|e]; cbn -[setupTrace rebuildLoop loopEntry]);
    rewrite ?app_nil_r; try reflexivity;
    destruct (consumer0 sess); cbn -[setupTrace rebuildLoop loopEntry];
    rewrite ?app_nil_r; try reflexivity.
  all: try (destruct (rebuildLoop options (iterations sess) (ending sess) _)
              as [[tr st'] c]).
  all: repeat rewrite <- app_assoc; reflexivity.
Qed.

(** ** Watch-set reconciliation: the claims *)

(** C1, as amended.  A reconciliation completes unless the watcher
    throws.  For a rebuild without error diagnostics whose reconciliation
    completes: every path of the new result's [watchFiles] is in
    [currentWatchFiles]; and if, before the reconciliation, the watcher
    was subscribed to exactly [currentWatchFiles] together with the
    always-watched paths (the manifest and lock files found on disk and,
    when configured, the project root), none of which is a stale entry
    of [currentWatchFiles], then afterwards the watcher is subscribed to
    exactly the new [watchFiles] together with the always-watched
    paths. *)
Theorem successful_rebuild_watch_set options host fault st tr st' c :
  errors (result st) = [] ->
  reconcile fault st = (tr, st', c) ->
  (fault = None -> c = Normal tt)
  /\ (c = Normal tt ->
      (forall p, In p (watchFiles (result st)) -> In p (currentWatchFiles st'))
      /\ (same_set (BuildWatcher.watched (watcher st))
                   (currentWatchFiles st ++ alwaysWatched options host) ->
          (forall p, In p (alwaysWatched options host) ->
                     In p (currentWatchFiles st) ->
                     In p (watchFiles (result st))) ->
          same_set (BuildWatcher.watched (watcher st'))
                   (watchFiles (result st) ++ alwaysWatched options host))).
Proof.
  intros Herr H. split.
  - intros ->. exact (reconcile_completes _ H).
  - intros ->. destruct (reconcile_normal _ _ H) as (_ & HC & HW & _).
    split.
    + intros p Hp. apply HC. now right.
    + intros Hsync Hfresh p. rewrite HW. specialize (Hsync p).
      rewrite in_app_iff in *. specialize (Hfresh p).
      destruct (in_dec string_dec p (currentWatchFiles st)) as [Hc | Hc];
        destruct (in_dec string_dec p (watchFiles (result st))) as [Hf | Hf];
        tauto.
Qed.

Lemma successful_rebuild_watch_set_witness :
  errors (result cleanLocals) = []
  /\ snd (reconcile None cleanLocals) = Normal tt
  /\ same_set (BuildWatcher.watched (watcher cleanLocals))
        (currentWatchFiles cleanLocals
           ++ alwaysWatched (sampleOptions true) (sampleHost true))
  /\ same_set
        (BuildWatcher.watched (watcher (snd (fst (reconcile None cleanLocals)))))
        (["a.ts"; "c.ts"] ++ alwaysWatched (sampleOptions true) (sampleHost true)).
Proof.
  assert (Herr : errors (result cleanLocals) = []) by reflexivity.
  assert (Hrun : reconcile None cleanLocals
                 = (fst (fst (reconcile None cleanLocals)),
                    snd (fst (reconcile None cleanLocals)),
                    snd (reconcile None cleanLocals)))
    by (vm_compute; reflexivity).
  assert (Hsync : same_set (BuildWatcher.watched (watcher cleanLocals))
            (currentWatchFiles cleanLocals
               ++ alwaysWatched (sampleOptions true) (sampleHost true))).
  { intros p. vm_compute. tauto. }
  destruct (@successful_rebuild_watch_set (sampleOptions true) (sampleHost true)
              None cleanLocals _ _ _ Herr Hrun) as (Hc & Hthen).
  split; [exact Herr|]. split; [exact (Hc eq_refl)|]. split; [exact Hsync|].
  apply (Hthen (Hc eq_refl)).
  - exact Hsync.
  - intros p. vm_compute. intuition congruence.
Defined.

(** The claim C1 fails as stated: after a rebuild without errors that
    reports only [a.ts], [currentWatchFiles] still holds [b.ts], and the
    watcher is still subscribed to the project root. *)
Lemma watch_set_not_exact_after_successful_rebuild :
  match finalLocals (sampleOptions true) (sampleHost true) shrinkingSession with
  | Some st =>
      errors (result st) = []
      /\ ~ same_set (currentWatchFiles st) (watchFiles (result st))
      /\ ~ same_set (BuildWatcher.watched (watcher st))
             (watchFiles (result st)
                ++ packageWatchPaths (sampleOptions true) (sampleHost true))
  | None => False
  end.
Proof.
  vm_compute. split; [reflexivity|]. split.
  - intros H. destruct (proj1 (H "b.ts")) as [E | []].
    + right. now left.
    + discriminate E.
  - intros H. destruct (proj1 (H "/ws/app")) as [E | [E | [E | []]]].
    + now left.
    + discriminate E.
    + discriminate E.
    + discriminate E.
Qed.

(** Scenario B of the specification: the initial build watches [a.ts] and
    [b.ts], a rebuild without errors reports [a.ts] only, and [b.ts] is
    removed from the subscription. *)
Example scenario_B :
  In (EWatcherRemove ["b.ts"])
     (trace (sampleOptions true) (sampleHost false) shrinkingSession)
  /\ option_map (fun st => BuildWatcher.watched (watcher st))
       (finalLocals (sampleOptions true) (sampleHost false) shrinkingSession)
     = Some ["/ws/package.json"; "/ws/yarn.lock"; "a.ts"].
Proof. vm_compute. split; [tauto | reflexivity]. Qed.

(** Scenario C: the same rebuild with an error diagnostic keeps the
    subscription. *)
Example scenario_C :
  option_map (fun st => BuildWatcher.watched (watcher st))
    (finalLocals (sampleOptions true) (sampleHost false) erroneousSession)
  = Some ["/ws/package.json"; "/ws/yarn.lock"; "a.ts"; "b.ts"].
Proof. vm_compute. reflexivity. Qed.



(** A reconciliation completes unless the watcher throws.  When it
    completes, with or without error diagnostics, every path of the new
    result's [watchFiles] is in [currentWatchFiles] and was passed to
    [watcher.add] at some point (now, or earlier in the session if it was
    in [currentWatchFiles] already); and, however it ends, no path that
    was in [currentWatchFiles] is passed to [watcher.add] during the
    reconciliation. *)
Lemma reconcile_covers_watchFiles fault st history tr st' c :
  reconcile fault st = (tr, st', c) ->
  (forall p, In p (currentWatchFiles st) -> addedIn history p) ->
  (fault = None -> c = Normal tt)
  /\ (c = Normal tt ->
      forall p, In p (watchFiles (result st)) ->
        In p (currentWatchFiles st') /\ addedIn (history ++ tr) p)
  /\ (forall paths p, In (EWatcherAdd paths) tr -> In p paths ->
        ~ In p (currentWatchFiles st)).
Proof.
  intros H Hinv.
  split; [intros ->; exact (reconcile_completes _ H)|].
  split; [|exact (reconcile_adds_new _ _ H)].
  intros -> p Hp.
  destruct (reconcile_normal _ _ H) as (_ & HC & _ & Hadd & _).
  split; [apply HC; now right|].
  destruct (in_dec string_dec p (currentWatchFiles st)) as [Hc | Hc].
  - apply addedIn_app_l. now apply Hinv.
  - apply addedIn_app_r. exists [p]. split; [now apply Hadd | now left].
Qed.

(** C10 fails on the code.  The initial build watches [a.ts] and [b.ts],
    a first rebuild without errors reports [a.ts] only and a second one
    reports [a.ts] and [b.ts] again.  The first reconciliation removes
    [b.ts] from the watcher but leaves it in [currentWatchFiles]; so the
    second one does not pass it to [watcher.add], and afterwards [b.ts]
    is in the result's [watchFiles] and in [currentWatchFiles] but not in
    the watcher's subscription. *)
Theorem reported_path_left_unsubscribed :
  match finalLocals (sampleOptions true) (sampleHost false) regrowingSession with
  | Some st =>
      watchFiles (result st) = ["a.ts"; "b.ts"]
      /\ currentWatchFiles st = ["a.ts"; "b.ts"]
      /\ BuildWatcher.watched (watcher st)
         = ["/ws/package.json"; "/ws/yarn.lock"; "a.ts"]
      /\ ~ In "b.ts" (BuildWatcher.watched (watcher st))
  | None => False
  end
  /\ filter isWatcherOp
       (trace (sampleOptions true) (sampleHost false) regrowingSession)
     = [EWatcherAdd ["/ws/package.json"; "/ws/yarn.lock"];
        EWatcherAdd ["a.ts"; "b.ts"];
        EWatcherRemove ["b.ts"]].
Proof.
  vm_compute. repeat split.
  intros [E | [E | [E | []]]]; discriminate E.
Qed.

(** ** Traces of whole runs *)

Lemma disposals_app t1 t2 : disposals (t1 ++ t2) = disposals t1 ++ disposals t2.
Proof.
  induction t1 as [|ev t1 IH]; [reflexivity|].
  destruct ev; simpl; rewrite ?IH; reflexivity.
Qed.

Lemma yields_app t1 t2 : yields (t1 ++ t2) = yields t1 ++ yields t2.
Proof.
  induction t1 as [|ev t1 IH]; [reflexivity|].
  destruct ev; simpl; rewrite ?IH; reflexivity.
Qed.

Lemma shutdowns_app t1 t2 : shutdowns (t1 ++ t2) = shutdowns t1 + shutdowns t2.
Proof.
  induction t1 as [|ev t1 IH]; [reflexivity|].
  destruct ev; simpl; rewrite ?IH; reflexivity.
Qed.

Lemma watchedAfter_app t1 t2 w :
  watchedAfter (t1 ++ t2) w = watchedAfter t2 (watchedAfter t1 w).
Proof.
  revert w. induction t1 as [|ev t1 IH]; intros w; [reflexivity|].
  destruct ev; simpl; apply IH.
Qed.

Lemma loopEvents_disposals tr :
  Forall (fun ev => loopEvent ev = true) tr -> disposals tr = [].
Proof.
  induction 1 as [|ev tr Hev _ IH]; [reflexivity|].
  destruct ev; try discriminate; exact IH.
Qed.

Lemma loopEvents_shutdowns tr :
  Forall (fun ev => loopEvent ev = true) tr -> shutdowns tr = 0.
Proof.
  induction 1 as [|ev tr Hev _ IH]; [reflexivity|].
  destruct ev; try discriminate; exact IH.
Qed.

Lemma loopEvents_no_watcher_created tr :
  Forall (fun ev => loopEvent ev = true) tr ->
  forall ev, In ev tr -> isCreateWatcher ev = false.
Proof.
  intros H ev Hin. rewrite Forall_forall in H. specialize (H ev Hin).
  destruct ev; try discriminate; reflexivity.
Qed.

Lemma disposals_headTrace options host r :
  disposals (headTrace options host r) = [].
Proof. head_cases options host; reflexivity. Qed.

Lemma yields_headTrace options host r :
  yields (headTrace options host r) = [].
Proof. head_cases options host; reflexivity. Qed.

Lemma builds_headTrace options host r :
  builds (headTrace options host r) = [rid r].
Proof. head_cases options host; reflexivity. Qed.

Lemma shutdowns_headTrace options host r :
  shutdowns (headTrace options host r) = if watch options then 0 else 1.
Proof. head_cases options host; reflexivity. Qed.

Lemma noYield_headTrace options host r :
  forall ev, In ev (headTrace options host r) -> isYield ev = false.
Proof.
  head_cases options host; cbn; intros ev Hin;
    repeat (destruct Hin as [<- | Hin]; [reflexivity|]); destruct Hin.
Qed.

Lemma rebuilds_headTrace options host r :
  forall ev, In ev (headTrace options host r) -> isRebuild ev = false.
Proof.
  head_cases options host; cbn; intros ev Hin;
    repeat (destruct Hin as [<- | Hin]; [reflexivity|]); destruct Hin.
Qed.

Lemma headTrace_not_watching options host r :
  watch options = false ->
  forall ev, In ev (headTrace options host r) -> isCreateWatcher ev = false.
Proof.
  intros Hw. unfold headTrace, deleteTrace, shutdownUnlessWatching, emitTrace.
  rewrite Hw.
  destruct (deleteOutputPath options), (writeToFileSystem options);
    cbn; intros ev Hin;
    repeat (destruct Hin as [<- | Hin]; [reflexivity|]); destruct Hin.
Qed.

(** Replaying the head of a watch-mode run gives the subscription with
    which the rebuild loop starts. *)
Lemma watchedAfter_headTrace options host r :
  watch options = true ->
  watchedAfter (headTrace options host r) []
  = BuildWatcher.watched (watcher (loopEntry options host r)).
Proof.
  intros Hw. unfold headTrace, deleteTrace, shutdownUnlessWatching, emitTrace,
    setupTrace, loopEntry.
  rewrite Hw.
  destruct (deleteOutputPath options), (writeToFileSystem options),
    (progress options), (signal options), (shouldWatchRoot host); reflexivity.
Qed.

Lemma setup_in_headTrace options host r :
  watch options = true ->
  In (ECreateWatcher (watcherConfig options)) (headTrace options host r)
  /\ In (EWatcherAdd (packageWatchPaths options host)) (headTrace options host r)
  /\ In (EWatcherAdd (watchFiles r)) (headTrace options host r).
Proof.
  intros Hw. unfold headTrace, deleteTrace, shutdownUnlessWatching, emitTrace,
    setupTrace.
  rewrite Hw.
  destruct (deleteOutputPath options), (writeToFileSystem options),
    (progress options), (signal options), (shouldWatchRoot host);
    cbn; tauto.
Qed.

Lemma root_in_headTrace options host r :
  watch options = true ->
  shouldWatchRoot host = true ->
  In (EWatcherAdd [projectRoot options]) (headTrace options host r).
Proof.
  intros Hw Hroot. unfold headTrace, deleteTrace, shutdownUnlessWatching,
    emitTrace, setupTrace.
  rewrite Hw, Hroot.
  destruct (deleteOutputPath options), (writeToFileSystem options),
    (progress options), (signal options); cbn; tauto.
Qed.

Lemma loopEntry_watched options host r p :
  In p (BuildWatcher.watched (watcher (loopEntry options host r)))
  <-> In p (alwaysWatched options host) \/ In p (watchFiles r).
Proof.
  unfold loopEntry, alwaysWatched. cbn.
  destruct (shouldWatchRoot host); cbn;
    rewrite !In_add_all; cbn; rewrite ?in_app_iff; cbn; tauto.
Qed.

(** When the rebuild loop starts, the watcher is subscribed to
    [currentWatchFiles] and the always-watched paths. *)
Lemma loopEntry_in_sync options host r :
  same_set (BuildWatcher.watched (watcher (loopEntry options host r)))
    (currentWatchFiles (loopEntry options host r) ++ alwaysWatched options host).
Proof.
  intros p. rewrite loopEntry_watched, in_app_iff.
  unfold loopEntry. cbn [currentWatchFiles]. rewrite In_of_list. tauto.
Qed.

(** Whatever is in [currentWatchFiles] at the end of a run has been
    passed to [watcher.add] during the run. *)
Lemma currentWatchFiles_have_been_added options host sess st :
  finalLocals options host sess = Some st ->
  forall p, In p (currentWatchFiles st) -> addedIn (trace options host sess) p.
Proof.
  unfold finalLocals, trace. rewrite run_unfold.
  destruct (if deleteOutputPath options && writeToFileSystem options
            then deleted sess else Fulfilled tt); [|discriminate].
  destruct (initial sess) as [r|]; [|discriminate].
  destruct (logged0 sess); [|discriminate].
  destruct (if writeToFileSystem options then written0 sess else Fulfilled tt);
    [|discriminate].
  destruct (consumer0 sess); [|discriminate].
  destruct (watch options) eqn:Hw; [|discriminate].
  destruct (rebuildLoop _ _ _ _) as [[tr st'] c] eqn:L. cbn.
  intros E p Hp. inversion E; subst; clear E.
  destruct (rebuildLoop_effect _ _ _ _ L) as (_ & _ & HA).
  destruct (HA p Hp) as [Hin | Hin].
  - apply addedIn_app_l. exists (watchFiles r). split.
    + apply (setup_in_headTrace options host r Hw).
    + unfold loopEntry in Hin. cbn [currentWatchFiles] in Hin.
      exact (proj1 (In_of_list _ _) Hin).
  - apply addedIn_app_r. change (addedIn ([EYield (emitted options r)] ++ tr ++ teardownTrace st) p).
    apply addedIn_app_r, addedIn_app_l. exact Hin.
Qed.

Lemma deleted_ok options sess r :
  initialBuildReturns options sess r ->
  (if deleteOutputPath options && writeToFileSystem options
   then deleted sess else Fulfilled tt) = Fulfilled tt.
Proof.
  intros (Hd & _ & _).
  destruct (deleteOutputPath options && writeToFileSystem options); auto.
Qed.

Lemma written_ok options sess :
  firstOutputEmitted options sess ->
  (if writeToFileSystem options then written0 sess else Fulfilled tt)
  = Fulfilled tt.
Proof.
  unfold firstOutputEmitted. destruct (writeToFileSystem options); auto.
Qed.

Lemma filter_all {A} (l : list A) : filter (fun _ => true) l = l.
Proof. induction l as [|a l IH]; [reflexivity | simpl; now rewrite IH]. Qed.

(** ** The output materializer *)

(** C6.  With [writeToFileSystem], [writeAndEmitOutput] hands
    [writeResultFiles] exactly the output files that pass the optional
    filter (all of them without a filter) together with the asset files,
    and, once they are written, returns the summary view [output], which
    carries no files.  Without it, nothing is written and the view
    [outputWithFiles], which carries the output files, is returned. *)
Theorem writeAndEmitOutput_writes_or_returns_files (S : Type)
    (toFileSystem : bool) (r : ExecutionResult) (out : NormalizedOutputOptions)
    (writeFilter : option (BuildOutputFile -> bool)) (written : Settled unit)
    (s : S) :
  if toFileSystem then
    writeAndEmitOutput true r out writeFilter written s
    = ([EWriteResultFiles (filter (passes writeFilter) (outputFiles r))
          (assetFiles r) out],
       s,
       match written with
       | Fulfilled _ => Normal (output r)
       | Rejected e => Throws e
       end)
    /\ filesOf (output r) = []
  else
    writeAndEmitOutput false r out writeFilter written s
    = ([], s, Normal (outputWithFiles r))
    /\ filesOf (outputWithFiles r) = outputFiles r.
Proof.
  destruct toFileSystem; (split; [|reflexivity]).
  - unfold writeAndEmitOutput, bind, emit, await, ret, passes.
    destruct writeFilter as [f|]; rewrite ?filter_all;
      destruct written as [[]|e]; reflexivity.
  - reflexivity.
Qed.

(** ** The initial build *)

(** C9.  When the initial build is invoked and throws, the generator
    throws the same exception, the rebuild loop is not entered, no
    watcher is created and no rebuild is requested, and the Sass worker
    pool is shut down exactly when watch mode was not requested. *)
Theorem initial_build_failure_propagates options host sess e :
  (deleteOutputPath options && writeToFileSystem options = true ->
   deleted sess = Fulfilled tt) ->
  initial sess = Rejected e ->
  completion options host sess = Throws e
  /\ finalLocals options host sess = None
  /\ trace options host sess
     = deleteTrace options ++ [EAction None] ++ shutdownUnlessWatching options
  /\ (forall ev, In ev (trace options host sess) ->
        isCreateWatcher ev = false /\ isRebuild ev = false)
  /\ shutdowns (trace options host sess) = if watch options then 0 else 1.
Proof.
  intros Hdel Hinit. unfold completion, finalLocals, trace.
  rewrite run_unfold, Hinit.
  assert (Hd : (if deleteOutputPath options && writeToFileSystem options
                then deleted sess else Fulfilled tt) = Fulfilled tt).
  { destruct (deleteOutputPath options && writeToFileSystem options); auto. }
  rewrite Hd. cbn [fst snd].
  split; [reflexivity|]. split; [reflexivity|]. split; [reflexivity|].
  unfold deleteTrace, shutdownUnlessWatching.
  destruct (deleteOutputPath options && writeToFileSystem options),
    (watch options); (split; [in_cases | reflexivity]).
Qed.

Lemma initial_build_failure_propagates_witness :
  initial failedSession = Rejected "build failed"
  /\ completion (sampleOptions true) (sampleHost true) failedSession
     = Throws "build failed"
  /\ shutdowns (trace (sampleOptions true) (sampleHost true) failedSession) = 0
  /\ shutdowns (trace (sampleOptions false) (sampleHost true) failedSession) = 1.
Proof.
  split; [reflexivity|].
  split; [|split].
  - apply (@initial_build_failure_propagates (sampleOptions true)
             (sampleHost true) failedSession "build failed");
      [intros _; reflexivity | reflexivity].
  - apply (@initial_build_failure_propagates (sampleOptions true)
             (sampleHost true) failedSession "build failed");
      [intros _; reflexivity | reflexivity].
  - apply (@initial_build_failure_propagates (sampleOptions false)
             (sampleHost true) failedSession "build failed");
      [intros _; reflexivity | reflexivity].
Defined.

(** ** Runs without watch mode *)

(** C5.  Without watch mode no watcher is created, no rebuild is
    requested, the rebuild loop is not entered and at most one output is
    yielded; when the initial build returns and its output is
    materialized, the generator yields exactly that one output and ends. *)
Theorem single_output_without_watch options host sess :
  watch options = false ->
  (forall ev, In ev (trace options host sess) ->
     isCreateWatcher ev = false /\ isRebuild ev = false)
  /\ finalLocals options host sess = None
  /\ List.length (yields (trace options host sess)) <= 1
  /\ (forall r,
        initialBuildReturns options sess r ->
        firstOutputEmitted options sess ->
        trace options host sess
          = headTrace options host r ++ [EYield (emitted options r)]
        /\ yields (trace options host sess) = [emitted options r]
        /\ completion options host sess = afterYield (consumer0 sess)).
Proof.
  intros Hw. unfold trace, finalLocals, completion.
  split; [|split; [|split]].
  - rewrite run_unfold, Hw.
    assert (Hhead : forall r ev, In ev (headTrace options host r) ->
              isCreateWatcher ev = false /\ isRebuild ev = false).
    { intros r ev Hin. split;
        [now apply (headTrace_not_watching options host r Hw)
        | now apply (rebuilds_headTrace options host r)]. }
    assert (Hyield : forall r ev,
              In ev (headTrace options host r ++ [EYield (emitted options r)]) ->
              isCreateWatcher ev = false /\ isRebuild ev = false).
    { intros r ev Hin. apply in_app_or in Hin.
      destruct Hin as [Hin | [<- | []]]; [eauto | split; reflexivity]. }
    destruct (if deleteOutputPath options && writeToFileSystem options
              then deleted sess else Fulfilled tt);
      [|unfold deleteTrace;
        destruct (deleteOutputPath options && writeToFileSystem options);
        in_cases].
    destruct (initial sess) as [r|e];
      [|unfold deleteTrace, shutdownUnlessWatching; rewrite Hw;
        destruct (deleteOutputPath options && writeToFileSystem options);
        in_cases].
    destruct (logged0 sess);
      [|unfold deleteTrace, shutdownUnlessWatching; rewrite Hw;
        destruct (deleteOutputPath options && writeToFileSystem options);
        in_cases].
    destruct (if writeToFileSystem options then written0 sess else Fulfilled tt);
      [|apply Hhead].
    destruct (consumer0 sess); apply Hyield.
  - rewrite run_unfold, Hw.
    destruct (if deleteOutputPath options && writeToFileSystem options
              then deleted sess else Fulfilled tt); [|reflexivity].
    destruct (initial sess); [|reflexivity].
    destruct (logged0 sess); [|reflexivity].
    destruct (if writeToFileSystem options then written0 sess else Fulfilled tt);
      [|reflexivity].
    destruct (consumer0 sess); reflexivity.
  - rewrite run_unfold, Hw.
    destruct (if deleteOutputPath options && writeToFileSystem options
              then deleted sess else Fulfilled tt);
      [|cbn [fst]; unfold deleteTrace;
        destruct (deleteOutputPath options && writeToFileSystem options);
        cbn; lia].
    destruct (initial sess) as [r|e];
      [|cbn [fst]; unfold deleteTrace, shutdownUnlessWatching; rewrite Hw;
        destruct (deleteOutputPath options && writeToFileSystem options);
        cbn; lia].
    destruct (logged0 sess);
      [|cbn [fst]; unfold deleteTrace, shutdownUnlessWatching; rewrite Hw;
        destruct (deleteOutputPath options && writeToFileSystem options);
        cbn; lia].
    destruct (if writeToFileSystem options then written0 sess else Fulfilled tt);
      [|cbn [fst]; rewrite yields_headTrace; cbn; lia].
    destruct (consumer0 sess); cbn [fst];
      rewrite yields_app, yields_headTrace; cbn; lia.
  - intros r Hret Hemit. rewrite run_unfold, Hw.
    rewrite (deleted_ok Hret), (written_ok Hemit).
    destruct Hret as (_ & -> & ->).
    destruct (consumer0 sess); cbn [fst snd afterYield];
      rewrite yields_app, yields_headTrace; repeat split.
Qed.

Lemma single_output_without_watch_witness :
  watch (sampleOptions false) = false
  /\ yields (trace (sampleOptions false) (sampleHost true) shrinkingSession)
     = [Output true]
  /\ completion (sampleOptions false) (sampleHost true) shrinkingSession
     = Normal tt.
Proof.
  assert (Hw : watch (sampleOptions false) = false) by reflexivity.
  split; [exact Hw|].
  destruct (@single_output_without_watch (sampleOptions false)
              (sampleHost true) shrinkingSession Hw) as (_ & _ & _ & H).
  apply (H initialResult).
  - repeat split.
  - intros _. reflexivity.
Defined.

(** ** Teardown and disposal *)

(** A run ends in one of two ways: the rebuild loop was not entered, or
    it was entered and left through the teardown. *)
Lemma run_entered options host sess r :
  entersLoop options sess r ->
  exists tr st c,
    rebuildLoop options (iterations sess) (ending sess)
      (loopEntry options host r) = (tr, st, c)
    /\ run options host sess
       = (headTrace options host r ++ [EYield (emitted options r)]
            ++ tr ++ teardownTrace st, Some st, c).
Proof.
  intros (Hw & Hret & Hemit & Hpull).
  destruct (rebuildLoop options (iterations sess) (ending sess)
              (loopEntry options host r)) as [[tr st] c] eqn:L.
  exists tr, st, c. split; [reflexivity|].
  rewrite run_unfold, (deleted_ok Hret), (written_ok Hemit), Hw, Hpull.
  destruct Hret as (_ & -> & ->). rewrite L. reflexivity.
Qed.

Lemma run_final options host sess st :
  finalLocals options host sess = Some st ->
  exists r, entersLoop options sess r.
Proof.
  unfold finalLocals. rewrite run_unfold. unfold entersLoop, initialBuildReturns,
    firstOutputEmitted.
  destruct (deleteOutputPath options && writeToFileSystem options) eqn:Ed.
  - destruct (deleted sess) as [[]|]; [|discriminate].
    destruct (initial sess) as [r|]; [|discriminate].
    destruct (logged0 sess) as [[]|]; [|discriminate].
    destruct (writeToFileSystem options).
    + destruct (written0 sess) as [[]|]; [|discriminate].
      destruct (consumer0 sess); [|discriminate].
      destruct (watch options); [|discriminate].
      intros _. exists r. repeat split.
    + destruct (consumer0 sess); [|discriminate].
      destruct (watch options); [|discriminate].
      intros _. exists r. repeat split. discriminate.
  - destruct (initial sess) as [r|]; [|discriminate].
    destruct (logged0 sess) as [[]|]; [|discriminate].
    destruct (writeToFileSystem options).
    + destruct (written0 sess) as [[]|]; [|discriminate].
      destruct (consumer0 sess); [|discriminate].
      destruct (watch options); [|discriminate].
      intros _. exists r. repeat split. discriminate.
    + destruct (consumer0 sess); [|discriminate].
      destruct (watch options); [|discriminate].
      intros _. exists r. repeat split; discriminate.
Qed.

Lemma run_not_entered options host sess :
  finalLocals options host sess = None ->
  disposals (trace options host sess) = [].
Proof.
  unfold finalLocals, trace. rewrite run_unfold.
  assert (Hd : disposals (deleteTrace options) = []).
  { unfold deleteTrace.
    destruct (deleteOutputPath options && writeToFileSystem options); reflexivity. }
  assert (Hs : disposals (shutdownUnlessWatching options) = []).
  { unfold shutdownUnlessWatching. destruct (watch options); reflexivity. }
  destruct (if deleteOutputPath options && writeToFileSystem options
            then deleted sess else Fulfilled tt); [|intros _; exact Hd].
  destruct (initial sess) as [r|];
    [|intros _; cbn [fst]; rewrite !disposals_app, Hd, Hs; reflexivity].
  destruct (logged0 sess);
    [|intros _; cbn [fst]; rewrite !disposals_app, Hd, Hs; reflexivity].
  destruct (if writeToFileSystem options then written0 sess else Fulfilled tt);
    [|intros _; apply disposals_headTrace].
  destruct (consumer0 sess);
    [|intros _; cbn [fst]; rewrite disposals_app, disposals_headTrace; reflexivity].
  destruct (watch options).
  - destruct (rebuildLoop _ _ _ _) as [[tr st'] c]. discriminate.
  - intros _. cbn [fst]. rewrite disposals_app, disposals_headTrace. reflexivity.
Qed.

(** C3, as amended.  In a session [dispose()] is called at most once: by
    the teardown of the rebuild loop, after every build and every output
    of the session, on the result of the latest build.  The results that
    a later rebuild replaced are not disposed, and nothing is disposed
    when the rebuild loop is not entered. *)
Theorem only_latest_result_disposed_at_teardown options host sess :
  match finalLocals options host sess with
  | Some st =>
      exists before,
        trace options host sess = before ++ teardownTrace st
        /\ disposals before = []
        /\ last (builds before) 0 = rid (result st)
        /\ disposals (trace options host sess) = [rid (result st)]
  | None => disposals (trace options host sess) = []
  end.
Proof.
  destruct (finalLocals options host sess) as [st|] eqn:F;
    [|now apply run_not_entered].
  destruct (run_final _ _ _ F) as (r & Hin).
  destruct (run_entered host Hin) as (tr & st' & c & L & R).
  unfold finalLocals in F. unfold trace. rewrite R in *. cbn [fst snd] in *.
  inversion F; subst st'; clear F.
  destruct (rebuildLoop_effect _ _ _ _ L) as (Hev & Hlast & _).
  exists (headTrace options host r ++ [EYield (emitted options r)] ++ tr).
  assert (Hnone : disposals (headTrace options host r
                               ++ [EYield (emitted options r)] ++ tr) = []).
  { rewrite !disposals_app, disposals_headTrace, (loopEvents_disposals Hev).
    reflexivity. }
  split; [now rewrite <- !app_assoc|]. split; [exact Hnone|]. split.
  - rewrite !builds_app, builds_headTrace. cbn [builds app].
    change ([rid r] ++ builds tr) with (rid r :: builds tr).
    destruct (builds tr) as [|k ks] eqn:Eb.
    + exact Hlast.
    + rewrite <- Hlast. cbn [last]. apply last_cons_default.
  - change (headTrace options host r ++ [EYield (emitted options r)]
              ++ tr ++ teardownTrace st)
      with (headTrace options host r ++ ([EYield (emitted options r)]
              ++ tr ++ teardownTrace st)).
    rewrite !disposals_app, disposals_headTrace, (loopEvents_disposals Hev).
    reflexivity.
Qed.

(** The claim C3 fails as stated: in a watch session with two builds the
    result of the first build is never disposed. *)
Lemma first_result_never_disposed :
  builds (trace (sampleOptions true) (sampleHost false) shrinkingSession) = [0; 1]
  /\ disposals (trace (sampleOptions true) (sampleHost false) shrinkingSession)
     = [1]
  /\ ~ Forall (fun k =>
        count_occ Nat.eq_dec
          (disposals (trace (sampleOptions true) (sampleHost false)
                        shrinkingSession)) k = 1)
       (builds (trace (sampleOptions true) (sampleHost false) shrinkingSession)).
Proof.
  vm_compute. split; [reflexivity|]. split; [reflexivity|].
  intros H. inversion H as [|k ks Hk _]. discriminate Hk.
Qed.



(** The ways out of the loop, one by one. *)
Example teardown_after_abort :
  builds (trace (sampleOptions true) (sampleHost false) abortedSession) = [0]
  /\ endOf 4 (trace (sampleOptions true) (sampleHost false) abortedSession)
     = [EWatcherClose; EWatcherClose; EDispose 0; EShutdownSassWorkerPool]
  /\ completion (sampleOptions true) (sampleHost false) abortedSession = Normal tt.
Proof. vm_compute. repeat split. Qed.

Example teardown_after_watcher_failure :
  endOf 3 (trace (sampleOptions true) (sampleHost false) watcherFailedSession)
  = [EWatcherClose; EDispose 0; EShutdownSassWorkerPool]
  /\ completion (sampleOptions true) (sampleHost false) watcherFailedSession
     = Throws "watcher failed".
Proof. vm_compute. repeat split. Qed.

Example teardown_after_watcher_fault :
  endOf 4 (trace (sampleOptions true) (sampleHost false) faultySession)
  = [EWatcherAdd ["c.ts"]; EWatcherClose; EDispose 1; EShutdownSassWorkerPool]
  /\ completion (sampleOptions true) (sampleHost false) faultySession
     = Throws "EMFILE".
Proof. vm_compute. repeat split. Qed.

Example teardown_after_write_failure :
  endOf 3 (trace (sampleOptions true) (sampleHost false) unwritableSession)
  = [EWatcherClose; EDispose 1; EShutdownSassWorkerPool]
  /\ yields (trace (sampleOptions true) (sampleHost false) unwritableSession)
     = [Output true]
  /\ completion (sampleOptions true) (sampleHost false) unwritableSession
     = Throws "EACCES".
Proof. vm_compute. repeat split. Qed.

Example teardown_after_consumer_return :
  endOf 3 (trace (sampleOptions true) (sampleHost false) stoppedSession)
  = [EWatcherClose; EDispose 1; EShutdownSassWorkerPool]
  /\ builds (trace (sampleOptions true) (sampleHost false) stoppedSession) = [0; 1]
  /\ completion (sampleOptions true) (sampleHost false) stoppedSession = Returns.
Proof. vm_compute. repeat split. Qed.

(** ** Watcher setup *)

Lemma first_yield_unique l1 :
  forall o1 r1 l2 o2 r2,
    l1 ++ EYield o1 :: r1 = l2 ++ EYield o2 :: r2 ->
    (forall ev, In ev l1 -> isYield ev = false) ->
    (forall ev, In ev l2 -> isYield ev = false) ->
    l1 = l2 /\ o1 = o2 /\ r1 = r2.
Proof.
  induction l1 as [|a l1 IH]; intros o1 r1 l2 o2 r2 E H1 H2.
  - destruct l2 as [|b l2].
    + cbn in E. inversion E. auto.
    + cbn in E. inversion E; subst.
      specialize (H2 (EYield o1) (or_introl eq_refl)). discriminate.
  - destruct l2 as [|b l2].
    + cbn in E. inversion E; subst.
      specialize (H1 (EYield o2) (or_introl eq_refl)). discriminate.
    + cbn in E. inversion E; subst.
      destruct (IH o1 r1 l2 o2 r2) as (-> & -> & ->); auto.
      * intros ev Hin. apply H1. now right.
      * intros ev Hin. apply H2. now right.
Qed.

(** When the initial build returns in watch mode, the run starts with the
    watcher setup. *)
Lemma run_head options host sess r :
  initialBuildReturns options sess r ->
  exists rest, trace options host sess = headTrace options host r ++ rest.
Proof.
  intros Hret. unfold trace. rewrite run_unfold, (deleted_ok Hret).
  destruct Hret as (_ & -> & ->).
  destruct (if writeToFileSystem options then written0 sess else Fulfilled tt).
  - destruct (consumer0 sess).
    + destruct (watch options).
      * destruct (rebuildLoop _ _ _ _) as [[tr st] c]. cbn [fst]. eauto.
      * cbn [fst]. eauto.
    + cbn [fst]. eauto.
  - exists []. cbn [fst]. now rewrite app_nil_r.
Qed.

(** C7.  In watch mode, once the initial build has returned, every name
    of the fixed manifest and lock file list that exists under the
    workspace root is passed to [watcher.add] during the setup, whatever
    the build reported, and is subscribed before the first output. *)
Theorem manifests_always_watched options host sess r name :
  watch options = true ->
  initialBuildReturns options sess r ->
  In name packageWatchFiles ->
  existsSync host (path_join host (workspaceRoot options) name) = true ->
  packageWatchFiles
  = ["package.json"; "package-lock.json"; "pnpm-lock.yaml";
     "yarn.lock"; ".pnp.cjs"; ".pnp.data.json"]
  /\ In (path_join host (workspaceRoot options) name)
        (packageWatchPaths options host)
  /\ (exists rest,
        trace options host sess = headTrace options host r ++ rest
        /\ In (EWatcherAdd (packageWatchPaths options host))
              (headTrace options host r)
        /\ In (path_join host (workspaceRoot options) name)
              (watchedAfter (headTrace options host r) [])).
Proof.
  intros Hw Hret Hname Hex.
  assert (Hin : In (path_join host (workspaceRoot options) name)
                   (packageWatchPaths options host)).
  { unfold packageWatchPaths. apply filter_In. split; [|exact Hex].
    now apply in_map. }
  split; [reflexivity|]. split; [exact Hin|].
  destruct (run_head host Hret) as (rest & Htr).
  exists rest. split; [exact Htr|]. split.
  - apply (setup_in_headTrace options host r Hw).
  - rewrite (watchedAfter_headTrace options host r Hw).
    apply loopEntry_watched. left. unfold alwaysWatched.
    apply in_or_app. now right.
Qed.

(** C8.  In watch mode, whenever an output is yielded, everything before
    the first output is the build followed by the watcher setup: the
    watcher has been created and is subscribed to the project root when
    that is configured, to the manifest and lock files found on disk and
    to every path of the initial result's [watchFiles].  Each of
    [package.json], [package-lock.json], [pnpm-lock.yaml], [yarn.lock],
    [.pnp.cjs] and [.pnp.data.json] that exists under the workspace root
    has been passed to [watcher.add] and is subscribed by then. *)
Theorem subscriptions_installed_before_first_output
    options host sess before value rest :
  watch options = true ->
  trace options host sess = before ++ EYield value :: rest ->
  (forall ev, In ev before -> isYield ev = false) ->
  exists r,
    initial sess = Fulfilled r
    /\ before = headTrace options host r
    /\ value = emitted options r
    /\ In (ECreateWatcher (watcherConfig options)) before
    /\ In (EWatcherAdd (packageWatchPaths options host)) before
    /\ In (EWatcherAdd (watchFiles r)) before
    /\ (forall p, In p (alwaysWatched options host) \/ In p (watchFiles r) ->
                  In p (watchedAfter before []))
    /\ (forall name,
          In name ["package.json"; "package-lock.json"; "pnpm-lock.yaml";
                   "yarn.lock"; ".pnp.cjs"; ".pnp.data.json"] ->
          existsSync host (path_join host (workspaceRoot options) name) = true ->
          addedIn before (path_join host (workspaceRoot options) name)
          /\ In (path_join host (workspaceRoot options) name)
                (watchedAfter before []))
    /\ (shouldWatchRoot host = true ->
        In (EWatcherAdd [projectRoot options]) before
        /\ In (projectRoot options) (watchedAfter before []))
    /\ (forall p, In p (watchFiles r) ->
                  addedIn before p /\ In p (watchedAfter before [])).
Proof.
  intros Hw Htr Hno.
  assert (Hy : In (EYield value) (trace options host sess)).
  { rewrite Htr. apply in_or_app. right. now left. }
  assert (Hgood : forall r rest',
            initial sess = Fulfilled r ->
            trace options host sess
              = headTrace options host r ++ EYield (emitted options r) :: rest' ->
            exists r,
              initial sess = Fulfilled r
              /\ before = headTrace options host r
              /\ value = emitted options r
              /\ In (ECreateWatcher (watcherConfig options)) before
              /\ In (EWatcherAdd (packageWatchPaths options host)) before
              /\ In (EWatcherAdd (watchFiles r)) before
              /\ (forall p, In p (alwaysWatched options host)
                            \/ In p (watchFiles r) ->
                            In p (watchedAfter before []))
              /\ (forall name,
                    In name ["package.json"; "package-lock.json";
                             "pnpm-lock.yaml"; "yarn.lock"; ".pnp.cjs";
                             ".pnp.data.json"] ->
                    existsSync host (path_join host (workspaceRoot options) name)
                    = true ->
                    addedIn before (path_join host (workspaceRoot options) name)
                    /\ In (path_join host (workspaceRoot options) name)
                          (watchedAfter before []))
              /\ (shouldWatchRoot host = true ->
                  In (EWatcherAdd [projectRoot options]) before
                  /\ In (projectRoot options) (watchedAfter before []))
              /\ (forall p, In p (watchFiles r) ->
                            addedIn before p /\ In p (watchedAfter before []))).
  { intros r rest' Hinit Htr'. rewrite Htr in Htr'.
    destruct (@first_yield_unique before value rest (headTrace options host r)
                (emitted options r) rest' Htr' Hno
                (noYield_headTrace options host r)) as (-> & -> & _).
    exists r. split; [exact Hinit|]. split; [reflexivity|].
    split; [reflexivity|].
    destruct (setup_in_headTrace options host r Hw) as (Hc & Hp & Hf).
    split; [exact Hc|]. split; [exact Hp|]. split; [exact Hf|].
    assert (Hall : forall p, In p (alwaysWatched options host)
                             \/ In p (watchFiles r) ->
                             In p (watchedAfter (headTrace options host r) [])).
    { intros p Hp'. rewrite (watchedAfter_headTrace options host r Hw).
      now apply loopEntry_watched. }
    split; [exact Hall|]. split; [|split].
    - intros name Hname Hex.
      assert (Hin : In (path_join host (workspaceRoot options) name)
                       (packageWatchPaths options host)).
      { unfold packageWatchPaths. apply filter_In. split; [|exact Hex].
        apply in_map. exact Hname. }
      split.
      + exists (packageWatchPaths options host). split; assumption.
      + apply Hall. left. unfold alwaysWatched. apply in_or_app. now right.
    - intros Hroot. split.
      + apply (root_in_headTrace options host r Hw Hroot).
      + apply Hall. left. unfold alwaysWatched. rewrite Hroot. now left.
    - intros p Hp'. split.
      + exists (watchFiles r). split; assumption.
      + apply Hall. now right. }
  assert (Hbad : forall tr, trace options host sess = tr ->
            (forall ev, In ev tr -> isYield ev = false) -> False).
  { intros tr E Hn. rewrite E in Hy. specialize (Hn _ Hy). discriminate. }
  revert Hgood Hbad. unfold trace. rewrite run_unfold, Hw.
  intros Hgood Hbad.
  destruct (if deleteOutputPath options && writeToFileSystem options
            then deleted sess else Fulfilled tt).
  2:{ exfalso. apply (Hbad _ eq_refl). unfold deleteTrace.
      destruct (deleteOutputPath options && writeToFileSystem options); in_cases. }
  destruct (initial sess) as [r|e].
  2:{ exfalso. apply (Hbad _ eq_refl). unfold deleteTrace, shutdownUnlessWatching.
      rewrite Hw.
      destruct (deleteOutputPath options && writeToFileSystem options); in_cases. }
  destruct (logged0 sess).
  2:{ exfalso. apply (Hbad _ eq_refl). unfold deleteTrace, shutdownUnlessWatching.
      rewrite Hw.
      destruct (deleteOutputPath options && writeToFileSystem options); in_cases. }
  destruct (if writeToFileSystem options then written0 sess else Fulfilled tt).
  2:{ exfalso. apply (Hbad _ eq_refl). apply noYield_headTrace. }
  destruct (consumer0 sess).
  - destruct (rebuildLoop _ _ _ _) as [[tr st] c].
    apply (Hgood r (tr ++ teardownTrace st) eq_refl). reflexivity.
  - apply (Hgood r [] eq_refl). reflexivity.
Qed.

Lemma manifests_always_watched_witness :
  watch (sampleOptions true) = true
  /\ initialBuildReturns (sampleOptions true) shrinkingSession initialResult
  /\ In "yarn.lock" packageWatchFiles
  /\ In "/ws/yarn.lock"
        (watchedAfter
           (headTrace (sampleOptions true) (sampleHost false) initialResult) []).
Proof.
  assert (Hw : watch (sampleOptions true) = true) by reflexivity.
  assert (Hret : initialBuildReturns (sampleOptions true) shrinkingSession
                   initialResult) by (repeat split).
  assert (Hname : In "yarn.lock" packageWatchFiles) by (vm_compute; tauto).
  split; [exact Hw|]. split; [exact Hret|]. split; [exact Hname|].
  destruct (@manifests_always_watched (sampleOptions true) (sampleHost false)
              shrinkingSession initialResult "yarn.lock" Hw Hret Hname eq_refl)
    as (_ & _ & rest & _ & _ & H).
  exact H.
Defined.

Lemma subscriptions_installed_before_first_output_witness :
  watch (sampleOptions true) = true
  /\ In "/ws/app"
        (watchedAfter
           (headTrace (sampleOptions true) (sampleHost true) initialResult) [])
  /\ In "b.ts"
        (watchedAfter
           (headTrace (sampleOptions true) (sampleHost true) initialResult) [])
  /\ addedIn (headTrace (sampleOptions true) (sampleHost true) initialResult)
        "/ws/package.json"
  /\ In "/ws/package.json"
        (watchedAfter
           (headTrace (sampleOptions true) (sampleHost true) initialResult) [])
  /\ In "/ws/yarn.lock"
        (watchedAfter
           (headTrace (sampleOptions true) (sampleHost true) initialResult) []).
Proof.
  assert (Hw : watch (sampleOptions true) = true) by reflexivity.
  split; [exact Hw|].
  destruct (@subscriptions_installed_before_first_output
              (sampleOptions true) (sampleHost true) shrinkingSession
              (headTrace (sampleOptions true) (sampleHost true) initialResult)
              (Output true)
              (skipn 10 (trace (sampleOptions true) (sampleHost true)
                          shrinkingSession))
              Hw)
    as (r & Hinit & _ & _ & _ & _ & _ & H & Hm & _).
  - vm_compute. reflexivity.
  - vm_compute. intros ev Hin.
    repeat (destruct Hin as [<- | Hin]; [reflexivity|]). destruct Hin.
  - inversion Hinit; subst r.
    split; [apply H; left; vm_compute; tauto|].
    split; [apply H; right; vm_compute; tauto|].
    destruct (Hm "package.json") as (Ha & Hs);
      [vm_compute; tauto | reflexivity |].
    split; [exact Ha|]. split; [exact Hs|].
    apply (Hm "yarn.lock"); [vm_compute; tauto | reflexivity].
Defined.

(** ** More about the reconciliation *)

Lemma NoDup_add x s : NoDup s -> NoDup (JsSet.add x s).
Proof.
  intros H. unfold JsSet.add. destruct (JsSet.has x s) eqn:E; [assumption|].
  apply has_false in E. apply NoDup_app.
  - assumption.
  - constructor; [intros [] | constructor].
  - intros a Ha [<- | []]. contradiction.
Qed.

Lemma NoDup_delete x s : NoDup s -> NoDup (JsSet.delete x s).
Proof. intros H. unfold JsSet.delete. now apply NoDup_filter. Qed.

Lemma NoDup_add_all xs : forall s, NoDup s -> NoDup (JsSet.add_all xs s).
Proof.
  unfold JsSet.add_all. induction xs as [|x xs IH]; intros s H; [assumption|].
  simpl. apply IH. now apply NoDup_add.
Qed.

Lemma NoDup_delete_all xs : forall s, NoDup s -> NoDup (JsSet.delete_all xs s).
Proof.
  unfold JsSet.delete_all. induction xs as [|x xs IH]; intros s H; [assumption|].
  simpl. apply IH. now apply NoDup_delete.
Qed.

Lemma NoDup_of_list xs : NoDup (JsSet.of_list xs).
Proof. apply NoDup_add_all. constructor. Qed.

Lemma addedPaths_app t1 t2 : addedPaths (t1 ++ t2) = addedPaths t1 ++ addedPaths t2.
Proof. unfold addedPaths. apply flat_map_app. Qed.

Lemma reconcileLoop_quiet fault files :
  forall stale st,
    (forall p, In p files -> In p (currentWatchFiles st)) ->
    reconcileLoop fault files stale st
    = ([], st, Normal (option_map (JsSet.delete_all files) stale)).
Proof.
  induction files as [|f rest IH]; intros stale st Hin.
  - cbn. unfold ret. now destruct stale.
  - rewrite reconcileLoop_cons.
    rewrite (proj2 (has_In f (currentWatchFiles st)) (Hin f (or_introl eq_refl))).
    rewrite IH; [|intros p Hp; apply Hin; now right].
    now destruct stale.
Qed.

Lemma reconcileLoop_added_once fault files :
  forall stale st tr st' c,
    reconcileLoop fault files stale st = (tr, st', c) ->
    NoDup (addedPaths tr)
    /\ (forall p, In p (addedPaths tr) ->
          In p files /\ ~ In p (currentWatchFiles st)).
Proof.
  induction files as [|f rest IH]; intros stale st tr st' c H.
  - cbn in H. inversion H; subst. split; [constructor | intros p []].
  - rewrite reconcileLoop_cons in H.
    destruct (JsSet.has f (currentWatchFiles st)) eqn:E.
    + destruct (IH _ _ _ _ _ H) as (Hnd & Hnew).
      split; [assumption|]. intros p Hp. destruct (Hnew p Hp). split; [now right | assumption].
    + apply has_false in E. destruct fault as [e|].
      * inversion H; subst. cbn. split; [repeat constructor; intros []|].
        intros p [<- | []]. split; [now left | assumption].
      * destruct (reconcileLoop None rest _ _) as [[t s] c'] eqn:R.
        inversion H; subst. clear H.
        destruct (IH _ _ _ _ _ R) as (Hnd & Hnew). cbn in Hnew.
        cbn [addedPaths flat_map app].
        change (flat_map _ t) with (addedPaths t).
        split.
        -- constructor; [|assumption]. intros Hin.
           destruct (Hnew f Hin) as (_ & Hn). apply Hn, In_add. now left.
        -- intros p [<- | Hp]; [split; [now left | assumption]|].
           destruct (Hnew p Hp) as (Hp' & Hn). split; [now right|].
           intros Hc. apply Hn, In_add. now right.
Qed.

(** X1: a rebuild that reports the files that are already followed makes
    no watcher call at all: when every path of the new [watchFiles] is in
    [currentWatchFiles] and, unless the result has errors, every path of
    [currentWatchFiles] is reported, the reconciliation records no event
    and leaves the locals untouched, even with a watcher that would
    throw. *)
Theorem unchanged_watch_files_need_no_watcher_call fault st :
  (forall p, In p (watchFiles (result st)) -> In p (currentWatchFiles st)) ->
  (errors (result st) = [] ->
   forall p, In p (currentWatchFiles st) -> In p (watchFiles (result st))) ->
  reconcile fault st = ([], st, Normal tt).
Proof.
  intros Hsub Hsup. rewrite reconcile_unfold, reconcileLoop_quiet by assumption.
  destruct (errors (result st)) as [|e0 errs]; cbn [List.length Nat.ltb Nat.leb option_map].
  - assert (Hnil : JsSet.delete_all (watchFiles (result st))
                     (JsSet.of_list (currentWatchFiles st)) = []).
    { destruct (JsSet.delete_all _ _) as [|p l] eqn:E; [reflexivity|].
      exfalso. assert (Hp : In p (p :: l)) by now left.
      rewrite <- E in Hp. apply In_delete_all in Hp. destruct Hp as [Hp Hn].
      apply Hn, (Hsup eq_refl). exact (proj1 (In_of_list _ _) Hp). }
    cbn. rewrite Hnil. reflexivity.
  - reflexivity.
Qed.

Lemma unchanged_watch_files_need_no_watcher_call_witness :
  (forall p, In p (watchFiles (result steadyLocals)) ->
             In p (currentWatchFiles steadyLocals))
  /\ reconcile (Some "EMFILE") steadyLocals = ([], steadyLocals, Normal tt).
Proof.
  assert (Hsub : forall p, In p (watchFiles (result steadyLocals)) ->
                           In p (currentWatchFiles steadyLocals)).
  { intros p. vm_compute. tauto. }
  split; [exact Hsub|].
  apply (@unchanged_watch_files_need_no_watcher_call (Some "EMFILE") steadyLocals Hsub).
  intros _ p. vm_compute. tauto.
Defined.

(** X2: in one reconciliation no path is passed to [watcher.add] twice,
    also when the result lists it several times, and every path that is
    passed is a reported one that was not in [currentWatchFiles]. *)
Theorem each_new_path_added_once fault st tr st' c :
  reconcile fault st = (tr, st', c) ->
  NoDup (addedPaths tr)
  /\ (forall p, In p (addedPaths tr) ->
        In p (watchFiles (result st)) /\ ~ In p (currentWatchFiles st))
  /\ (c = Normal tt ->
      forall p, In p (watchFiles (result st)) -> ~ In p (currentWatchFiles st) ->
        In p (addedPaths tr)).
Proof.
  intros H. pose proof H as H0. rewrite reconcile_unfold in H.
  destruct (reconcileLoop fault _ _ st) as [[t1 s1] c1] eqn:R.
  destruct (reconcileLoop_added_once _ _ _ _ R) as (Hnd & Hnew).
  assert (Hpaths : addedPaths tr = addedPaths t1).
  { destruct c1 as [[stale|]|e|].
    - destruct (0 <? JsSet.size stale)%nat.
      + destruct fault; inversion H; subst; rewrite addedPaths_app; cbn;
          now rewrite app_nil_r.
      + inversion H; subst. now rewrite app_nil_r.
    - inversion H; subst. now rewrite app_nil_r.
    - inversion H; subst. reflexivity.
    - inversion H; subst. reflexivity. }
  rewrite Hpaths. split; [assumption|]. split; [assumption|].
  intros -> p Hp Hn.
  destruct (reconcile_normal _ _ H0) as (_ & _ & _ & Hadd & _).
  rewrite <- Hpaths. unfold addedPaths. apply in_flat_map.
  exists (EWatcherAdd [p]). split; [now apply Hadd | now left].
Qed.

Lemma each_new_path_added_once_witness :
  reconcile None repeatingLocals
  = (fst (fst (reconcile None repeatingLocals)),
     snd (fst (reconcile None repeatingLocals)),
     snd (reconcile None repeatingLocals))
  /\ addedPaths (fst (fst (reconcile None repeatingLocals))) = ["c.ts"; "d.ts"]
  /\ NoDup (addedPaths (fst (fst (reconcile None repeatingLocals)))).
Proof.
  assert (Hrun : reconcile None repeatingLocals
                 = (fst (fst (reconcile None repeatingLocals)),
                    snd (fst (reconcile None repeatingLocals)),
                    snd (reconcile None repeatingLocals)))
    by (vm_compute; reflexivity).
  split; [exact Hrun|]. split; [vm_compute; reflexivity|].
  exact (proj1 (@each_new_path_added_once None repeatingLocals _ _ _ Hrun)).
Defined.

Lemma loop_events_no_remove fault files stale st tr st' c :
  reconcileLoop fault files stale st = (tr, st', c) ->
  filter isWatcherRemove tr = []
  /\ forall paths, ~ In (EWatcherRemove paths) tr.
Proof.
  intros R. destruct (reconcileLoop_any _ _ _ _ R) as (_ & _ & _ & He & _).
  split.
  - clear R. induction tr as [|ev tr IH]; [reflexivity|].
    destruct (He ev (or_introl eq_refl)) as (q & -> & _). cbn.
    apply IH. intros ev' Hin. apply He. now right.
  - intros paths Hin. destruct (He _ Hin) as (q & Heq & _). discriminate.
Qed.

(** X3: the stale paths leave the watcher in one call.  A reconciliation
    calls [watcher.remove] at most once, and only for a result without
    errors; the list it passes is not empty, has no repetition and holds
    exactly the paths of [currentWatchFiles] that the new result does not
    report.  When such paths exist and the reconciliation completes, the
    call is made. *)
Theorem stale_paths_removed_in_one_call fault st tr st' c :
  reconcile fault st = (tr, st', c) ->
  List.length (filter isWatcherRemove tr) <= 1
  /\ (forall paths, In (EWatcherRemove paths) tr ->
        errors (result st) = []
        /\ paths <> []
        /\ NoDup paths
        /\ forall p, In p paths <->
                     In p (currentWatchFiles st)
                     /\ ~ In p (watchFiles (result st)))
  /\ (c = Normal tt -> errors (result st) = [] ->
      forall p, In p (currentWatchFiles st) ->
                ~ In p (watchFiles (result st)) ->
        exists paths, In (EWatcherRemove paths) tr /\ In p paths).
Proof.
  intros H. rewrite reconcile_unfold in H.
  destruct (reconcileLoop fault _ _ st) as [[t1 s1] c1] eqn:R.
  destruct (loop_events_no_remove _ _ _ _ R) as (Hf & Hno).
  assert (Hquiet : forall t, t = t1 \/ t = t1 ++ [] ->
            List.length (filter isWatcherRemove t) <= 1
            /\ forall paths, ~ In (EWatcherRemove paths) t).
  { intros t [-> | ->]; rewrite ?app_nil_r, ?Hf; split; auto. }
  destruct c1 as [[stale|]|e|].
  - destruct (reconcileLoop_spec _ _ _ _ R) as (_ & _ & _ & Hs & _).
    destruct (errors (result st)) as [|e0 errs] eqn:Eerr; [|discriminate Hs].
    cbn in Hs. injection Hs as Hstale.
    assert (Hmem : forall p, In p stale <->
              In p (currentWatchFiles st) /\ ~ In p (watchFiles (result st))).
    { intros p. rewrite Hstale, In_delete_all, In_of_list. tauto. }
    destruct (0 <? JsSet.size stale)%nat eqn:Esz.
    + assert (Htr : tr = t1 ++ [EWatcherRemove stale])
        by (destruct fault; inversion H; reflexivity).
      assert (Hc : c = Normal tt -> True) by trivial.
      subst tr. split; [|split].
      * rewrite filter_app, Hf. cbn. lia.
      * intros paths Hin. apply in_app_or in Hin.
        destruct Hin as [Hin | [Heq | []]]; [now apply Hno in Hin|].
        inversion Heq; subst paths. split; [reflexivity|]. split; [|split].
        -- intros E. rewrite E in Esz. discriminate.
        -- rewrite Hstale. apply NoDup_delete_all, NoDup_of_list.
        -- exact Hmem.
      * intros _ _ p Hp Hn. exists stale. split.
        -- apply in_or_app. right. now left.
        -- apply Hmem. tauto.
    + apply size_zero in Esz.
      assert (Htr : tr = t1 ++ []) by (inversion H; reflexivity).
      subst tr. destruct (Hquiet (t1 ++ []) (or_intror eq_refl)) as [Hl Hn].
      split; [assumption|]. split.
      * intros paths Hin. now apply Hn in Hin.
      * intros _ _ p Hp Hnf.
        assert (Hin : In p stale) by (apply Hmem; tauto).
        rewrite Esz in Hin. destruct Hin.
  - destruct (reconcileLoop_spec _ _ _ _ R) as (_ & _ & _ & Hs & _).
    assert (Htr : tr = t1 ++ []) by (inversion H; reflexivity).
    subst tr. destruct (Hquiet (t1 ++ []) (or_intror eq_refl)) as [Hl Hn].
    split; [assumption|]. split.
    + intros paths Hin. now apply Hn in Hin.
    + intros _ Herr. rewrite Herr in Hs. discriminate Hs.
  - assert (Htr : tr = t1 /\ c = Throws e) by (inversion H; split; reflexivity).
    destruct Htr as [-> ->].
    destruct (Hquiet t1 (or_introl eq_refl)) as [Hl Hn].
    split; [assumption|]. split.
    + intros paths Hin. now apply Hn in Hin.
    + discriminate.
  - assert (Htr : tr = t1 /\ c = Returns) by (inversion H; split; reflexivity).
    destruct Htr as [-> ->].
    destruct (Hquiet t1 (or_introl eq_refl)) as [Hl Hn].
    split; [assumption|]. split.
    + intros paths Hin. now apply Hn in Hin.
    + discriminate.
Qed.

Lemma stale_paths_removed_in_one_call_witness :
  reconcile None cleanLocals
  = (fst (fst (reconcile None cleanLocals)),
     snd (fst (reconcile None cleanLocals)),
     snd (reconcile None cleanLocals))
  /\ In (EWatcherRemove ["b.ts"]) (fst (fst (reconcile None cleanLocals)))
  /\ List.length (filter isWatcherRemove (fst (fst (reconcile None cleanLocals)))) <= 1.
Proof.
  assert (Hrun : reconcile None cleanLocals
                 = (fst (fst (reconcile None cleanLocals)),
                    snd (fst (reconcile None cleanLocals)),
                    snd (reconcile None cleanLocals)))
    by (vm_compute; reflexivity).
  split; [exact Hrun|]. split; [vm_compute; tauto|].
  exact (proj1 (@stale_paths_removed_in_one_call None cleanLocals _ _ _ Hrun)).
Defined.

(** ** More about one pass of the loop *)

(** A pass whose build returns and is logged runs the reconciliation on
    the locals without the batch's removed paths and with the new result;
    the watcher calls of the pass are those of the reconciliation. *)
Lemma rebuild_reconciles options it st tr st' c r :
  rebuild options it st = (tr, st', c) ->
  rebuilt it = Fulfilled r ->
  logged it = Fulfilled tt ->
  exists t0 tR t2 cR,
    reconcile (watcher_fault it)
      (set_result r
         (set_currentWatchFiles
            (JsSet.delete_all (removed (changes it)) (currentWatchFiles st)) st))
    = (tR, st', cR)
    /\ tr = t0 ++ tR ++ t2
    /\ (forall ev, In ev (t0 ++ t2) -> isWatcherOp ev = false)
    /\ (cR <> Normal tt -> c = cR /\ t2 = []).
Proof.
  intros H Hr Hl. rewrite rebuild_unfold in H. cbv zeta in H.
  rewrite Hr, Hl in H.
  set (pre := (if clearScreen options then [EConsoleClear] else [])
              ++ (if verbose options then [ELoggerInfo (debugString it)] else [])) in *.
  assert (Hpre : forall ev, In ev pre -> isWatcherOp ev = false).
  { unfold pre. destruct (clearScreen options), (verbose options); in_cases. }
  destruct (reconcile _ _) as [[tR sR] cR] eqn:R.
  set (act := EAction (Some {| previous := rid (result st);
                               fileChanges := changes it |})) in *.
  assert (Hquiet : forall t2, (forall ev, In ev t2 -> isWatcherOp ev = false) ->
            forall ev, In ev ((pre ++ [act; ELogMessages (rid r)]) ++ t2) ->
                       isWatcherOp ev = false).
  { intros t2 H2 ev Hin. apply in_app_or in Hin. destruct Hin as [Hin | Hin]; [|auto].
    apply in_app_or in Hin. destruct Hin as [Hin | [<- | [<- | []]]]; auto. }
  exists (pre ++ [act; ELogMessages (rid r)]), tR.
  destruct cR as [[]|e|].
  - destruct (writeToFileSystem options).
    + destruct (written it) as [[]|e]; inversion H; subst; clear H.
      * eexists _, (Normal tt). split; [reflexivity|].
        split; [now rewrite <- !app_assoc|]. split; [|congruence].
        apply Hquiet. in_cases.
      * eexists _, (Normal tt). split; [reflexivity|].
        split; [now rewrite <- !app_assoc|]. split; [|congruence].
        apply Hquiet. in_cases.
    + inversion H; subst; clear H.
      eexists _, (Normal tt). split; [reflexivity|].
      split; [now rewrite <- !app_assoc|]. split; [|congruence].
      apply Hquiet. in_cases.
  - inversion H; subst; clear H. exists [], (Throws e).
    split; [reflexivity|]. split; [now rewrite app_nil_r, <- !app_assoc|].
    split; [apply Hquiet; intros ev []|]. intros _. split; reflexivity.
  - inversion H; subst; clear H. exists [], Returns.
    split; [reflexivity|]. split; [now rewrite app_nil_r, <- !app_assoc|].
    split; [apply Hquiet; intros ev []|]. intros _. split; reflexivity.
Qed.

(** What [watcher.remove] is called with was in [currentWatchFiles] and
    is not reported. *)
Lemma removed_paths_are_stale fault st tr st' c paths p :
  reconcile fault st = (tr, st', c) ->
  In (EWatcherRemove paths) tr -> In p paths ->
  In p (currentWatchFiles st) /\ ~ In p (watchFiles (result st)).
Proof.
  intros H Hin Hp. rewrite reconcile_unfold in H.
  destruct (reconcileLoop fault _ _ st) as [[t1 s1] c1] eqn:R.
  destruct (loop_events_no_remove _ _ _ _ R) as (_ & Hno).
  destruct c1 as [[stale|]|e|].
  - destruct (reconcileLoop_spec _ _ _ _ R) as (_ & _ & _ & Hs & _).
    destruct (errors (result st)) as [|e0 errs]; [|discriminate Hs].
    cbn in Hs. injection Hs as Hstale.
    destruct (0 <? JsSet.size stale)%nat.
    + assert (Htr : tr = t1 ++ [EWatcherRemove stale])
        by (destruct fault; inversion H; reflexivity).
      subst tr. apply in_app_or in Hin.
      destruct Hin as [Hin | [Heq | []]]; [now apply Hno in Hin|].
      inversion Heq; subst paths. rewrite Hstale in Hp.
      apply In_delete_all in Hp. rewrite In_of_list in Hp. exact Hp.
    + assert (Htr : tr = t1 ++ []) by (inversion H; reflexivity).
      subst tr. rewrite app_nil_r in Hin. now apply Hno in Hin.
  - assert (Htr : tr = t1 ++ []) by (inversion H; reflexivity).
    subst tr. rewrite app_nil_r in Hin. now apply Hno in Hin.
  - assert (Htr : tr = t1) by (inversion H; reflexivity).
    subst tr. now apply Hno in Hin.
  - assert (Htr : tr = t1) by (inversion H; reflexivity).
    subst tr. now apply Hno in Hin.
Qed.

(** X4: a file that the batch reports as removed is forgotten before the
    rebuild.  If the new result reports it again, the pass passes it to
    [watcher.add] and it ends up in [currentWatchFiles] and in the
    watcher's subscription, even though it was followed before.  If the
    new result does not report it, it is no longer in
    [currentWatchFiles], but the pass never passes it to
    [watcher.remove]: the watcher stays subscribed to it. *)
Theorem removed_file_is_forgotten_then_added_again options it st tr st' c r p :
  rebuild options it st = (tr, st', c) ->
  rebuilt it = Fulfilled r ->
  logged it = Fulfilled tt ->
  watcher_fault it = None ->
  In p (removed (changes it)) ->
  (In p (watchFiles r) ->
     In (EWatcherAdd [p]) tr
     /\ In p (currentWatchFiles st')
     /\ In p (BuildWatcher.watched (watcher st')))
  /\ (~ In p (watchFiles r) ->
     ~ In p (currentWatchFiles st')
     /\ (forall paths, In (EWatcherRemove paths) tr -> ~ In p paths)
     /\ (In p (BuildWatcher.watched (watcher st)) ->
         In p (BuildWatcher.watched (watcher st')))).
Proof.
  intros H Hr Hl Hf Hrem.
  destruct (rebuild_reconciles _ _ _ H Hr Hl)
    as (t0 & tR & t2 & cR & R & -> & Hquiet & _).
  rewrite Hf in R. pose proof (reconcile_completes _ R) as ->.
  destruct (reconcile_normal _ _ R) as (_ & HC & HW & Hadd & _).
  cbn in HC, HW, Hadd.
  assert (Hgone : ~ In p (JsSet.delete_all (removed (changes it))
                            (currentWatchFiles st))).
  { rewrite In_delete_all. tauto. }
  split.
  - intros Hp. split; [|split].
    + apply in_or_app. right. apply in_or_app. left. now apply Hadd.
    + apply HC. now right.
    + apply HW. tauto.
  - intros Hn. split; [|split].
    + rewrite HC. tauto.
    + intros paths Hin Hp. apply in_app_or in Hin. destruct Hin as [Hin | Hin].
      * specialize (Hquiet _ (in_or_app _ _ _ (or_introl Hin))). discriminate.
      * apply in_app_or in Hin. destruct Hin as [Hin | Hin].
        -- destruct (@removed_paths_are_stale _ _ _ _ _ paths p R Hin Hp) as [Hc _].
           cbn in Hc. contradiction.
        -- specialize (Hquiet _ (in_or_app _ _ _ (or_intror Hin))). discriminate.
    + intros Hw. apply HW. tauto.
Qed.

Lemma removed_file_is_forgotten_then_added_again_witness :
  rebuilt (removalBatch (Fulfilled (sampleResult 1 [] ["a.ts"; "b.ts"])))
  = Fulfilled (sampleResult 1 [] ["a.ts"; "b.ts"])
  /\ In "b.ts" (removed (changes
        (removalBatch (Fulfilled (sampleResult 1 [] ["a.ts"; "b.ts"])))))
  /\ In "b.ts" (currentWatchFiles
        (loopEntry (sampleOptions true) (sampleHost false) initialResult))
  /\ In (EWatcherAdd ["b.ts"])
        (fst (fst (rebuild (sampleOptions true)
                     (removalBatch (Fulfilled (sampleResult 1 [] ["a.ts"; "b.ts"])))
                     (loopEntry (sampleOptions true) (sampleHost false)
                        initialResult)))).
Proof.
  split; [reflexivity|]. split; [now left|]. split; [vm_compute; tauto|].
  refine (proj1 (proj1 (@removed_file_is_forgotten_then_added_again
            (sampleOptions true)
            (removalBatch (Fulfilled (sampleResult 1 [] ["a.ts"; "b.ts"])))
            (loopEntry (sampleOptions true) (sampleHost false) initialResult)
            _ _ _ (sampleResult 1 [] ["a.ts"; "b.ts"]) "b.ts"
            _ eq_refl eq_refl eq_refl (or_introl eq_refl)) _)).
  - vm_compute. reflexivity.
  - vm_compute. tauto.
Defined.

(** ** Reading traces with a state *)

Lemma scan_app {A} (step : A -> Event -> option A) t1 :
  forall a t2,
    scan step a (t1 ++ t2)
    = match scan step a t1 with
      | Some a' => scan step a' t2
      | None => None
      end.
Proof.
  induction t1 as [|ev t1 IH]; intros a t2; [reflexivity|].
  cbn. destruct (step a ev); [apply IH | reflexivity].
Qed.

Lemma scan_quiet {A} (step : A -> Event -> option A) a tr :
  (forall ev, In ev tr -> step a ev = Some a) -> scan step a tr = Some a.
Proof.
  induction tr as [|ev tr IH]; intros H; [reflexivity|].
  cbn. rewrite (H ev (or_introl eq_refl)). apply IH.
  intros ev' Hin. apply H. now right.
Qed.

Lemma scan_preamble {A} (step : A -> Event -> option A) a options it :
  step a EConsoleClear = Some a ->
  (forall s, step a (ELoggerInfo s) = Some a) ->
  scan step a (passPreamble options it) = Some a.
Proof.
  intros H1 H2. unfold passPreamble.
  destruct (clearScreen options), (verbose options); cbn;
    rewrite ?H1, ?H2; reflexivity.
Qed.

Lemma scan_watcherOps {A} (step : A -> Event -> option A) a tR :
  (forall ps, step a (EWatcherAdd ps) = Some a) ->
  (forall ps, step a (EWatcherRemove ps) = Some a) ->
  Forall (fun ev => isWatcherOp ev = true) tR ->
  scan step a tR = Some a.
Proof.
  intros H1 H2 H. apply scan_quiet. rewrite Forall_forall in H.
  intros ev Hin. specialize (H ev Hin). destruct ev; try discriminate; auto.
Qed.

(** *** The rebuild state handed to the build action *)

Lemma rebuild_chained options it st tr st' c :
  rebuild options it st = (tr, st', c) ->
  scan chainStep (Some (rid (result st))) tr = Some (Some (rid (result st'))).
Proof.
  intros H. destruct (rebuild_shape _ _ _ H) as (tR & Hops & Hshape).
  assert (Hpre : forall k, scan chainStep (Some k) (passPreamble options it)
                           = Some (Some k))
    by (intros k; now apply scan_preamble).
  assert (HtR : forall k, scan chainStep (Some k) tR = Some (Some k))
    by (intros k; now apply scan_watcherOps).
  destruct Hshape as [(e & _ & -> & _ & Hres) | (r & _ & Hres & Hrest)].
  - rewrite scan_app, Hpre. cbn. rewrite Nat.eqb_refl, Hres. reflexivity.
  - subst r.
    destruct Hrest as [(e & -> & _) | [(e & _ & -> & _) | (-> & _)]];
      rewrite scan_app, Hpre; cbn; rewrite Nat.eqb_refl, ?scan_app, HtR;
      unfold emitTrace; destruct (writeToFileSystem options); reflexivity.
Qed.

Lemma rebuildLoop_chained options its ending :
  forall st tr st' c,
    rebuildLoop options its ending st = (tr, st', c) ->
    scan chainStep (Some (rid (result st))) tr = Some (Some (rid (result st'))).
Proof.
  induction its as [|it rest IH]; intros st tr st' c H.
  - rewrite rebuildLoop_nil in H.
    destruct ending; [| destruct (signal options) |]; inversion H; reflexivity.
  - rewrite rebuildLoop_cons in H.
    destruct (signal options && aborted it);
      [destruct (listened it); inversion H; reflexivity|].
    destruct (rebuild options it st) as [[t1 s1] c1] eqn:R.
    pose proof (rebuild_chained _ _ _ R) as H1.
    destruct c1 as [[]|e|].
    + destruct (rebuildLoop options rest ending s1) as [[t2 s2] c2] eqn:L.
      inversion H; subst; clear H. rewrite scan_app, H1. exact (IH _ _ _ _ L).
    + inversion H; subst. exact H1.
    + inversion H; subst. exact H1.
Qed.

Lemma headTrace_chained options host r :
  scan chainStep None (headTrace options host r) = Some (Some (rid r)).
Proof. head_cases options host; reflexivity. Qed.

Lemma trace_chained options host sess :
  exists latest,
    scan chainStep None (trace options host sess) = Some latest
    /\ forall st, finalLocals options host sess = Some st ->
                  latest = Some (rid (result st)).
Proof.
  unfold trace, finalLocals. rewrite run_unfold.
  assert (Hdel : scan chainStep None (deleteTrace options) = Some None).
  { unfold deleteTrace.
    destruct (deleteOutputPath options && writeToFileSystem options); reflexivity. }
  assert (Hsd : forall l, scan chainStep l (shutdownUnlessWatching options) = Some l).
  { intros l. unfold shutdownUnlessWatching. destruct (watch options); reflexivity. }
  destruct (if deleteOutputPath options && writeToFileSystem options
            then deleted sess else Fulfilled tt).
  2:{ exists None. split; [exact Hdel | discriminate]. }
  destruct (initial sess) as [r|e].
  2:{ exists None. cbn [fst snd]. split; [|discriminate].
      rewrite scan_app, Hdel. cbn. apply Hsd. }
  destruct (logged0 sess).
  2:{ exists (Some (rid r)). cbn [fst snd]. split; [|discriminate].
      rewrite scan_app, Hdel. cbn. apply Hsd. }
  destruct (if writeToFileSystem options then written0 sess else Fulfilled tt).
  2:{ exists (Some (rid r)). split; [apply headTrace_chained | discriminate]. }
  destruct (consumer0 sess).
  2:{ exists (Some (rid r)). cbn [fst snd]. split; [|discriminate].
      rewrite scan_app, headTrace_chained. reflexivity. }
  destruct (watch options).
  2:{ exists (Some (rid r)). cbn [fst snd]. split; [|discriminate].
      rewrite scan_app, headTrace_chained. reflexivity. }
  destruct (rebuildLoop _ _ _ _) as [[tr st'] c] eqn:L.
  exists (Some (rid (result st'))). cbn [fst snd]. split.
  - rewrite scan_app, headTrace_chained.
    change ([EYield (emitted options r)] ++ tr ++ teardownTrace st')
      with (EYield (emitted options r) :: (tr ++ teardownTrace st')).
    cbn [scan chainStep]. rewrite scan_app.
    pose proof (rebuildLoop_chained _ _ _ _ L) as HL.
    unfold loopEntry in HL. cbn [result] in HL. rewrite HL. reflexivity.
  - intros st E. inversion E. reflexivity.
Qed.

Lemma scan_chain_latest tr :
  forall a a',
    scan chainStep a tr = Some a' ->
    a' = match lastOf (builds tr) with Some k => Some k | None => a end.
Proof.
  induction tr as [|ev tr IH]; intros a a' H.
  - cbn in H. now inversion H.
  - cbn [scan] in H. destruct (chainStep a ev) as [a1|] eqn:E; [|discriminate].
    specialize (IH _ _ H).
    destruct ev; cbn in E; try (inversion E; subst a1; exact IH).
    + (* EAction *)
      destruct rebuildState as [rs|]; destruct a as [k|]; try discriminate.
      * destruct (Nat.eqb (previous rs) k); [|discriminate].
        inversion E; subst a1. exact IH.
      * inversion E; subst a1. exact IH.
    + (* ELogMessages *)
      inversion E; subst a1. rewrite IH. cbn [builds lastOf].
      destruct (builds tr) as [|b bs] eqn:Eb; [reflexivity|].
      cbn. f_equal. destruct bs; [reflexivity|]. cbn.
      apply last_cons_default.
Qed.

(** X5: every call of the build action gets the rebuild state of the
    latest result.  Wherever the build action is called in a trace, no
    result has been logged before if the call carries no rebuild state
    (the initial build), and otherwise the rebuild state was made from
    the result that was logged last before the call. *)
Theorem rebuilds_continue_from_latest_result options host sess before rs rest :
  trace options host sess = before ++ EAction rs :: rest ->
  option_map previous rs = lastOf (builds before).
Proof.
  intros Htr. destruct (trace_chained options host sess) as (latest & Hscan & _).
  rewrite Htr, scan_app in Hscan.
  destruct (scan chainStep None before) as [a|] eqn:Eb; [|discriminate].
  pose proof (scan_chain_latest _ _ Eb) as Ha.
  cbn [scan] in Hscan.
  destruct (chainStep a (EAction rs)) as [a1|] eqn:E; [|discriminate].
  cbn in E. destruct rs as [s|]; destruct a as [k|]; try discriminate.
  - destruct (Nat.eqb (previous s) k) eqn:Ek; [|discriminate].
    apply Nat.eqb_eq in Ek. cbn. rewrite Ek.
    destruct (lastOf (builds before)); [now inversion Ha | discriminate].
  - cbn. destruct (lastOf (builds before)); [discriminate | reflexivity].
Qed.

Lemma rebuilds_continue_from_latest_result_witness :
  trace (sampleOptions true) (sampleHost false) regrowingSession
  = firstn 14 (trace (sampleOptions true) (sampleHost false) regrowingSession)
    ++ EAction (Some {| previous := 1;
                        fileChanges := {| added := []; modified := ["a.ts"];
                                          removed := [] |} |})
    :: skipn 15 (trace (sampleOptions true) (sampleHost false) regrowingSession)
  /\ lastOf (builds (firstn 14 (trace (sampleOptions true) (sampleHost false)
                                  regrowingSession))) = Some 1.
Proof.
  assert (Htr : trace (sampleOptions true) (sampleHost false) regrowingSession
    = firstn 14 (trace (sampleOptions true) (sampleHost false) regrowingSession)
      ++ EAction (Some {| previous := 1;
                          fileChanges := {| added := []; modified := ["a.ts"];
                                            removed := [] |} |})
      :: skipn 15 (trace (sampleOptions true) (sampleHost false) regrowingSession))
    by (vm_compute; reflexivity).
  split; [exact Htr|].
  symmetry.
  exact (@rebuilds_continue_from_latest_result (sampleOptions true)
           (sampleHost false) regrowingSession _ _ _ Htr).
Defined.

(** *** Results logged and outputs yielded *)

Lemma rebuild_paired options it st tr st' c :
  rebuild options it st = (tr, st', c) ->
  exists pending,
    scan pairStep false tr = Some pending
    /\ ((forall e, c <> Throws e) -> pending = false).
Proof.
  intros H. destruct (rebuild_shape _ _ _ H) as (tR & Hops & Hshape).
  assert (Hpre : forall b, scan pairStep b (passPreamble options it) = Some b)
    by (intros b; now apply scan_preamble).
  assert (HtR : forall b, scan pairStep b tR = Some b)
    by (intros b; now apply scan_watcherOps).
  destruct Hshape as [(e & _ & -> & -> & _) | (r & _ & _ & Hrest)].
  - exists false. split; [|reflexivity]. rewrite scan_app, Hpre. reflexivity.
  - destruct Hrest as [(e & -> & ->) | [(e & _ & -> & ->) | (-> & ->)]].
    + exists true. split; [|intros Hc; now destruct (Hc e)].
      rewrite scan_app, Hpre. cbn. apply HtR.
    + exists true. split; [|intros Hc; now destruct (Hc e)].
      rewrite scan_app, Hpre. cbn. rewrite scan_app, HtR.
      unfold emitTrace. destruct (writeToFileSystem options); reflexivity.
    + exists false. split; [|reflexivity].
      rewrite scan_app, Hpre. cbn. rewrite scan_app, HtR.
      unfold emitTrace. destruct (writeToFileSystem options); reflexivity.
Qed.

Lemma rebuildLoop_paired options its ending :
  forall st tr st' c,
    rebuildLoop options its ending st = (tr, st', c) ->
    exists pending,
      scan pairStep false tr = Some pending
      /\ ((forall e, c <> Throws e) -> pending = false).
Proof.
  induction its as [|it rest IH]; intros st tr st' c H.
  - rewrite rebuildLoop_nil in H. exists false.
    destruct ending; [| destruct (signal options) |];
      inversion H; split; reflexivity.
  - rewrite rebuildLoop_cons in H.
    destruct (signal options && aborted it).
    { exists false. destruct (listened it); inversion H; split; reflexivity. }
    destruct (rebuild options it st) as [[t1 s1] c1] eqn:R.
    destruct (rebuild_paired _ _ _ R) as (p1 & H1 & Hp1).
    destruct c1 as [[]|e|].
    + destruct (rebuildLoop options rest ending s1) as [[t2 s2] c2] eqn:L.
      inversion H; subst; clear H.
      destruct (IH _ _ _ _ L) as (p2 & H2 & Hp2).
      exists p2. split; [|assumption].
      rewrite scan_app, H1, Hp1 by discriminate. exact H2.
    + inversion H; subst. exists p1. split; assumption.
    + inversion H; subst. exists p1. split; assumption.
Qed.

Lemma headTrace_paired options host r :
  scan pairStep false (headTrace options host r) = Some true.
Proof. head_cases options host; reflexivity. Qed.

Lemma trace_paired options host sess :
  exists pending,
    scan pairStep false (trace options host sess) = Some pending
    /\ ((forall e, completion options host sess <> Throws e) -> pending = false).
Proof.
  unfold trace, completion. rewrite run_unfold.
  assert (Hdel : forall b, scan pairStep b (deleteTrace options) = Some b).
  { intros b. unfold deleteTrace.
    destruct (deleteOutputPath options && writeToFileSystem options); reflexivity. }
  assert (Hsd : forall b, scan pairStep b (shutdownUnlessWatching options) = Some b).
  { intros b. unfold shutdownUnlessWatching. destruct (watch options); reflexivity. }
  assert (Hthrow : forall e : exn, (forall e', Throws e <> @Throws unit e') ->
                                   forall b : bool, b = false).
  { intros e Hc. now destruct (Hc e). }
  destruct (if deleteOutputPath options && writeToFileSystem options
            then deleted sess else Fulfilled tt).
  2:{ exists false. split; [apply Hdel | reflexivity]. }
  destruct (initial sess) as [r|e].
  2:{ exists false. cbn [fst snd]. split; [|reflexivity].
      rewrite scan_app, Hdel. cbn. apply Hsd. }
  destruct (logged0 sess).
  2:{ exists true. cbn [fst snd]. split; [|intros Hc; now apply (Hthrow e)].
      rewrite scan_app, Hdel. cbn. apply Hsd. }
  destruct (if writeToFileSystem options then written0 sess else Fulfilled tt).
  2:{ exists true. cbn [fst snd].
      split; [apply headTrace_paired | intros Hc; now apply (Hthrow e)]. }
  destruct (consumer0 sess).
  2:{ exists false. cbn [fst snd]. split; [|reflexivity].
      rewrite scan_app, headTrace_paired. reflexivity. }
  destruct (watch options).
  2:{ exists false. cbn [fst snd]. split; [|reflexivity].
      rewrite scan_app, headTrace_paired. reflexivity. }
  destruct (rebuildLoop _ _ _ _) as [[tr st'] c] eqn:L.
  destruct (rebuildLoop_paired _ _ _ _ L) as (p & Hp & Hc).
  exists p. cbn [fst snd]. split; [|assumption].
  rewrite scan_app, headTrace_paired.
  change ([EYield (emitted options r)] ++ tr ++ teardownTrace st')
    with (EYield (emitted options r) :: (tr ++ teardownTrace st')).
  cbn [scan pairStep]. rewrite scan_app, Hp. destruct p; reflexivity.
Qed.

Lemma scan_pair_counts tr :
  forall p b,
    scan pairStep p tr = Some b ->
    List.length (builds tr) + (if p then 1 else 0)
    = List.length (yields tr) + (if b then 1 else 0).
Proof.
  induction tr as [|ev tr IH]; intros p b H.
  - cbn in H. inversion H. reflexivity.
  - cbn [scan] in H. destruct (pairStep p ev) as [p1|] eqn:E; [|discriminate].
    specialize (IH _ _ H).
    destruct ev; cbn in E; try (inversion E; subst p1; exact IH).
    + destruct p; [discriminate|]. inversion E; subst p1. cbn. lia.
    + destruct p; [|discriminate]. inversion E; subst p1. cbn. lia.
Qed.

(** X6: one output per result, after its diagnostics.  Whenever an output
    is yielded, exactly one more result has been logged than yielded
    before; whenever a result is logged, every earlier result has been
    yielded; and when the generator ends without throwing, it has yielded
    as many outputs as results were logged. *)
Theorem one_output_per_logged_result options host sess :
  (forall before value rest,
     trace options host sess = before ++ EYield value :: rest ->
     List.length (builds before) = List.length (yields before) + 1)
  /\ (forall before k rest,
        trace options host sess = before ++ ELogMessages k :: rest ->
        List.length (builds before) = List.length (yields before))
  /\ ((forall e, completion options host sess <> Throws e) ->
      List.length (yields (trace options host sess))
      = List.length (builds (trace options host sess))).
Proof.
  destruct (trace_paired options host sess) as (pending & Hscan & Hend).
  split; [|split].
  - intros before value rest Htr. rewrite Htr, scan_app in Hscan.
    destruct (scan pairStep false before) as [p|] eqn:Eb; [|discriminate].
    pose proof (scan_pair_counts _ _ Eb) as Hn.
    cbn [scan pairStep] in Hscan. destruct p; [lia | discriminate].
  - intros before k rest Htr. rewrite Htr, scan_app in Hscan.
    destruct (scan pairStep false before) as [p|] eqn:Eb; [|discriminate].
    pose proof (scan_pair_counts _ _ Eb) as Hn.
    cbn [scan pairStep] in Hscan. destruct p; [discriminate | lia].
  - intros Hc. rewrite (Hend Hc) in Hscan.
    pose proof (scan_pair_counts _ _ Hscan) as Hn. lia.
Qed.

Lemma one_output_per_logged_result_witness :
  (forall e, completion (sampleOptions true) (sampleHost false) regrowingSession
             <> Throws e)
  /\ List.length (yields (trace (sampleOptions true) (sampleHost false)
                            regrowingSession)) = 3
  /\ List.length (builds (trace (sampleOptions true) (sampleHost false)
                            regrowingSession)) = 3.
Proof.
  assert (Hc : forall e, completion (sampleOptions true) (sampleHost false)
                           regrowingSession <> Throws e)
    by (intros e; vm_compute; discriminate).
  split; [exact Hc|]. split; [vm_compute; reflexivity|].
  rewrite <- (proj2 (proj2 (@one_output_per_logged_result (sampleOptions true)
                              (sampleHost false) regrowingSession)) Hc).
  vm_compute. reflexivity.
Defined.

(** *** Output to the file system or in memory *)

Lemma rebuild_respectsMode options it st tr st' c :
  rebuild options it st = (tr, st', c) ->
  forallb (respectsMode (writeToFileSystem options)) tr = true.
Proof.
  intros H. destruct (rebuild_shape _ _ _ H) as (tR & Hops & Hshape).
  assert (Hpre : forallb (respectsMode (writeToFileSystem options))
                   (passPreamble options it) = true)
    by now apply forallb_preamble.
  assert (HtR : forallb (respectsMode (writeToFileSystem options)) tR = true)
    by now apply forallb_watcherOps.
  destruct Hshape as [(e & _ & -> & _) | (r & _ & _ & Hrest)].
  - rewrite forallb_app, Hpre. reflexivity.
  - destruct Hrest as [(e & -> & _) | [(e & _ & -> & _) | (-> & _)]];
      rewrite forallb_app, Hpre; cbn; rewrite ?forallb_app, HtR;
      unfold emitTrace, emitted; destruct (writeToFileSystem options); reflexivity.
Qed.

Lemma rebuildLoop_forallb options (f : Event -> bool) :
  f EWatcherClose = true ->
  (forall it st tr st' c, rebuild options it st = (tr, st', c) -> forallb f tr = true) ->
  forall its ending st tr st' c,
    rebuildLoop options its ending st = (tr, st', c) -> forallb f tr = true.
Proof.
  intros Hclose Hpass. induction its as [|it rest IH]; intros ending st tr st' c H.
  - rewrite rebuildLoop_nil in H.
    destruct ending; [| destruct (signal options) |]; inversion H;
      try reflexivity; cbn [forallb]; now rewrite Hclose.
  - rewrite rebuildLoop_cons in H.
    destruct (signal options && aborted it);
      [destruct (listened it); inversion H;
       try reflexivity; cbn [forallb]; now rewrite Hclose|].
    destruct (rebuild options it st) as [[t1 s1] c1] eqn:R.
    pose proof (Hpass _ _ _ _ _ R) as H1.
    destruct c1 as [[]|e|].
    + destruct (rebuildLoop options rest ending s1) as [[t2 s2] c2] eqn:L.
      inversion H; subst; clear H. rewrite forallb_app, H1. exact (IH _ _ _ _ _ L).
    + inversion H; subst. exact H1.
    + inversion H; subst. exact H1.
Qed.

Lemma headTrace_respectsMode options host r :
  forallb (respectsMode (writeToFileSystem options)) (headTrace options host r)
  = true.
Proof. head_cases options host; reflexivity. Qed.

Lemma trace_respectsMode options host sess :
  forallb (respectsMode (writeToFileSystem options)) (trace options host sess)
  = true.
Proof.
  unfold trace. rewrite run_unfold.
  assert (Hdel : forallb (respectsMode (writeToFileSystem options))
                   (deleteTrace options) = true).
  { unfold deleteTrace.
    destruct (deleteOutputPath options), (writeToFileSystem options); reflexivity. }
  assert (Hsd : forallb (respectsMode (writeToFileSystem options))
                  (shutdownUnlessWatching options) = true).
  { unfold shutdownUnlessWatching. destruct (watch options); reflexivity. }
  assert (Hy : forall r, respectsMode (writeToFileSystem options)
                           (EYield (emitted options r)) = true).
  { intros r. unfold emitted. destruct (writeToFileSystem options); reflexivity. }
  destruct (if deleteOutputPath options && writeToFileSystem options
            then deleted sess else Fulfilled tt); [|exact Hdel].
  destruct (initial sess) as [r|e];
    [|cbn [fst]; rewrite forallb_app, Hdel; cbn; exact Hsd].
  destruct (logged0 sess);
    [|cbn [fst]; rewrite forallb_app, Hdel; cbn; exact Hsd].
  destruct (if writeToFileSystem options then written0 sess else Fulfilled tt);
    [|apply headTrace_respectsMode].
  destruct (consumer0 sess);
    [|cbn [fst]; rewrite forallb_app, headTrace_respectsMode;
      cbn [forallb andb]; now rewrite Hy].
  destruct (watch options);
    [|cbn [fst]; rewrite forallb_app, headTrace_respectsMode;
      cbn [forallb andb]; now rewrite Hy].
  destruct (rebuildLoop _ _ _ _) as [[tr st'] c] eqn:L. cbn [fst].
  rewrite forallb_app, headTrace_respectsMode.
  change ([EYield (emitted options r)] ++ tr ++ teardownTrace st')
    with (EYield (emitted options r) :: (tr ++ teardownTrace st')).
  cbn [forallb andb]. rewrite Hy, forallb_app.
  rewrite (rebuildLoop_forallb options _ eq_refl (rebuild_respectsMode options)
             _ _ _ L).
  reflexivity.
Qed.

Lemma In_yields v tr : In v (yields tr) -> In (EYield v) tr.
Proof.
  induction tr as [|ev tr IH]; [intros []|].
  destruct ev; cbn; intros H; try (right; now apply IH).
  destruct H as [<- | H]; [now left | right; now apply IH].
Qed.

(** X7: the file system is only touched when [writeToFileSystem] is set.
    In every session, an event that deletes the output directory or
    writes result files occurs only with [writeToFileSystem]; and every
    output yielded is the summary without files when [writeToFileSystem]
    is set, and the view with the files when it is not. *)
Theorem output_mode_is_respected options host sess :
  (forall ev, In ev (trace options host sess) ->
     isFileSystemEvent ev = true -> writeToFileSystem options = true)
  /\ (forall value, In value (yields (trace options host sess)) ->
        isSummary value = writeToFileSystem options).
Proof.
  pose proof (trace_respectsMode options host sess) as H.
  rewrite forallb_forall in H. split.
  - intros ev Hin Hfs. specialize (H ev Hin).
    destruct ev; try discriminate; exact H.
  - intros value Hin. specialize (H _ (In_yields _ _ Hin)). cbn in H.
    now apply Bool.eqb_prop in H.
Qed.

Lemma output_mode_is_respected_witness :
  In (OutputWithFiles true (outputFiles initialResult) (assetFiles initialResult))
     (yields (trace memoryOptions (sampleHost true) shrinkingSession))
  /\ isSummary (OutputWithFiles true (outputFiles initialResult)
                  (assetFiles initialResult)) = false.
Proof.
  assert (Hin : In (OutputWithFiles true (outputFiles initialResult)
                      (assetFiles initialResult))
                   (yields (trace memoryOptions (sampleHost true)
                              shrinkingSession)))
    by (vm_compute; tauto).
  split; [exact Hin|].
  exact (proj2 (@output_mode_is_respected memoryOptions (sampleHost true)
                  shrinkingSession) _ Hin).
Defined.

Lemma rebuild_written options it st tr st' c :
  writeToFileSystem options = true ->
  rebuild options it st = (tr, st', c) ->
  exists w, scan writeStep false tr = Some w /\ (c = Normal tt -> w = false).
Proof.
  intros Hw H. destruct (rebuild_shape _ _ _ H) as (tR & Hops & Hshape).
  assert (Hpre : scan writeStep false (passPreamble options it) = Some false)
    by now apply scan_preamble.
  assert (HtR : scan writeStep false tR = Some false)
    by now apply scan_watcherOps.
  unfold emitTrace, emitted in Hshape. rewrite Hw in Hshape.
  destruct Hshape as [(e & _ & -> & -> & _) | (r & _ & _ & Hrest)].
  - exists false. split; [|reflexivity]. rewrite scan_app, Hpre. reflexivity.
  - destruct Hrest as [(e & -> & ->) | [(e & _ & -> & ->) | (-> & ->)]].
    + exists false. split; [|reflexivity]. rewrite scan_app, Hpre. cbn. apply HtR.
    + exists true. split; [|discriminate].
      rewrite scan_app, Hpre. cbn. rewrite scan_app, HtR. reflexivity.
    + exists false. split; [|reflexivity].
      rewrite scan_app, Hpre. cbn. rewrite scan_app, HtR. reflexivity.
Qed.

Lemma rebuildLoop_written options its ending :
  writeToFileSystem options = true ->
  forall st tr st' c,
    rebuildLoop options its ending st = (tr, st', c) ->
    exists w, scan writeStep false tr = Some w.
Proof.
  intros Hw. induction its as [|it rest IH]; intros st tr st' c H.
  - rewrite rebuildLoop_nil in H. exists false.
    destruct ending; [| destruct (signal options) |]; inversion H; reflexivity.
  - rewrite rebuildLoop_cons in H.
    destruct (signal options && aborted it).
    { exists false. destruct (listened it); inversion H; reflexivity. }
    destruct (rebuild options it st) as [[t1 s1] c1] eqn:R.
    destruct (@rebuild_written options it st t1 s1 c1 Hw R) as (w1 & H1 & Hn).
    destruct c1 as [[]|e|].
    + destruct (rebuildLoop options rest ending s1) as [[t2 s2] c2] eqn:L.
      inversion H; subst; clear H.
      destruct (IH _ _ _ _ L) as (w2 & H2).
      exists w2. rewrite scan_app, H1, (Hn eq_refl). exact H2.
    + inversion H; subst. eauto.
    + inversion H; subst. eauto.
Qed.

Lemma headTrace_written options host r :
  writeToFileSystem options = true ->
  scan writeStep false (headTrace options host r) = Some true.
Proof. intros Hw. revert Hw. head_cases options host; intros Hw; try discriminate; reflexivity. Qed.

Lemma trace_written options host sess :
  writeToFileSystem options = true ->
  exists w, scan writeStep false (trace options host sess) = Some w.
Proof.
  intros Hw. unfold trace. rewrite run_unfold.
  assert (Hdel : scan writeStep false (deleteTrace options) = Some false).
  { unfold deleteTrace.
    destruct (deleteOutputPath options && writeToFileSystem options); reflexivity. }
  assert (Hsd : scan writeStep false (shutdownUnlessWatching options) = Some false).
  { unfold shutdownUnlessWatching. destruct (watch options); reflexivity. }
  destruct (if deleteOutputPath options && writeToFileSystem options
            then deleted sess else Fulfilled tt); [|eauto].
  destruct (initial sess) as [r|e];
    [|exists false; cbn [fst]; rewrite scan_app, Hdel; cbn; exact Hsd].
  destruct (logged0 sess);
    [|exists false; cbn [fst]; rewrite scan_app, Hdel; cbn; exact Hsd].
  destruct (if writeToFileSystem options then written0 sess else Fulfilled tt);
    [|exists true; now apply headTrace_written].
  destruct (consumer0 sess);
    [|exists false; cbn [fst]; rewrite scan_app, headTrace_written by assumption;
      reflexivity].
  destruct (watch options);
    [|exists false; cbn [fst]; rewrite scan_app, headTrace_written by assumption;
      reflexivity].
  destruct (rebuildLoop _ _ _ _) as [[tr st'] c] eqn:L. cbn [fst].
  destruct (@rebuildLoop_written options _ _ Hw _ _ _ _ L) as (w & Hscan).
  exists false. rewrite scan_app, headTrace_written by assumption.
  change ([EYield (emitted options r)] ++ tr ++ teardownTrace st')
    with (EYield (emitted options r) :: (tr ++ teardownTrace st')).
  cbn [scan writeStep]. rewrite scan_app, Hscan. reflexivity.
Qed.

Lemma scan_write_last tr :
  forall w,
    scan writeStep w tr = Some true ->
    (tr = [] /\ w = true)
    \/ exists before files assets out,
         tr = before ++ [EWriteResultFiles files assets out].
Proof.
  induction tr as [|ev tr IH]; intros w H.
  - cbn in H. inversion H. now left.
  - right. cbn [scan] in H.
    destruct (writeStep w ev) as [w1|] eqn:E; [|discriminate].
    destruct (IH _ H) as [[-> ->] | (before & files & assets & out & ->)].
    + destruct ev; cbn in E; try discriminate;
        try (destruct w; discriminate).
      exists [], files, assets, out. reflexivity.
    + exists (ev :: before), files, assets, out. reflexivity.
Qed.

(** X8: with [writeToFileSystem], an output is yielded right after its
    files were handed to [writeResultFiles]: the event before every
    output of a session is the writing of result files, and the output
    is the summary without files. *)
Theorem output_follows_write options host sess before value rest :
  writeToFileSystem options = true ->
  trace options host sess = before ++ EYield value :: rest ->
  isSummary value = true
  /\ exists earlier files assets out,
       before = earlier ++ [EWriteResultFiles files assets out].
Proof.
  intros Hw Htr. split.
  - pose proof (trace_respectsMode options host sess) as H.
    rewrite forallb_forall in H.
    specialize (H (EYield value)). rewrite Htr in H.
    assert (Hin : In (EYield value) (before ++ EYield value :: rest))
      by (apply in_or_app; right; now left).
    specialize (H Hin).
    cbn in H. apply Bool.eqb_prop in H. now rewrite H.
  - destruct (trace_written options host sess Hw) as (w & Hscan).
    rewrite Htr, scan_app in Hscan.
    destruct (scan writeStep false before) as [w0|] eqn:Eb; [|discriminate].
    cbn [scan writeStep] in Hscan. destruct w0; [|discriminate].
    destruct (scan_write_last _ _ Eb) as [[_ E] | Hlast]; [discriminate|].
    exact Hlast.
Qed.

Lemma output_follows_write_witness :
  writeToFileSystem (sampleOptions true) = true
  /\ trace (sampleOptions true) (sampleHost false) shrinkingSession
     = firstn 13 (trace (sampleOptions true) (sampleHost false) shrinkingSession)
       ++ EYield (Output true)
       :: skipn 14 (trace (sampleOptions true) (sampleHost false) shrinkingSession)
  /\ exists earlier files assets out,
       firstn 13 (trace (sampleOptions true) (sampleHost false) shrinkingSession)
       = earlier ++ [EWriteResultFiles files assets out].
Proof.
  assert (Hw : writeToFileSystem (sampleOptions true) = true) by reflexivity.
  assert (Htr : trace (sampleOptions true) (sampleHost false) shrinkingSession
     = firstn 13 (trace (sampleOptions true) (sampleHost false) shrinkingSession)
       ++ EYield (Output true)
       :: skipn 14 (trace (sampleOptions true) (sampleHost false) shrinkingSession))
    by (vm_compute; reflexivity).
  split; [exact Hw|]. split; [exact Htr|].
  exact (proj2 (@output_follows_write (sampleOptions true) (sampleHost false)
                  shrinkingSession _ _ _ Hw Htr)).
Defined.

(** ** Ways out *)





Lemma loopEvents_no_delete tr :
  Forall (fun ev => loopEvent ev = true) tr ->
  forall ev, In ev tr -> isDeleteOutputDir ev = false.
Proof.
  intros H ev Hin. rewrite Forall_forall in H. specialize (H ev Hin).
  destruct ev; try discriminate; reflexivity.
Qed.

(** X10: the output directory is deleted at the very start or not at all.
    Every trace starts with the deletion when [deleteOutputPath] and
    [writeToFileSystem] are both set, and nothing after that start is a
    deletion: no rebuild deletes the output directory.  When the deletion
    fails, its exception is thrown and nothing else happens: the build
    action is not called and the Sass worker pool is not shut down, with
    or without watch mode. *)
Theorem output_directory_deleted_first_or_never options host sess :
  (exists rest,
     trace options host sess = deleteTrace options ++ rest
     /\ forall ev, In ev rest -> isDeleteOutputDir ev = false)
  /\ (forall e,
        deleteOutputPath options && writeToFileSystem options = true ->
        deleted sess = Rejected e ->
        run options host sess = (deleteTrace options, None, Throws e)
        /\ builds (deleteTrace options) = []
        /\ shutdowns (deleteTrace options) = 0).
Proof.
  split.
  - unfold trace. rewrite run_unfold.
    assert (Hsd : forall ev, In ev (shutdownUnlessWatching options) ->
                             isDeleteOutputDir ev = false).
    { unfold shutdownUnlessWatching. destruct (watch options); in_cases. }
    assert (Hhead : forall r, exists rest,
              headTrace options host r = deleteTrace options ++ rest
              /\ forall ev, In ev rest -> isDeleteOutputDir ev = false).
    { intros r. eexists. split; [reflexivity|].
      unfold shutdownUnlessWatching, setupTrace, emitTrace.
      destruct (writeToFileSystem options), (watch options), (progress options),
        (signal options), (shouldWatchRoot host); in_cases. }
    assert (Hmore : forall r more, 
              (forall ev, In ev more -> isDeleteOutputDir ev = false) ->
              exists rest,
                headTrace options host r ++ more = deleteTrace options ++ rest
                /\ forall ev, In ev rest -> isDeleteOutputDir ev = false).
    { intros r more Hm. destruct (Hhead r) as (rest & -> & Hr).
      exists (rest ++ more). split; [now rewrite app_assoc|].
      intros ev Hin. apply in_app_or in Hin. destruct Hin; auto. }
    destruct (if deleteOutputPath options && writeToFileSystem options
              then deleted sess else Fulfilled tt).
    2:{ exists []. split; [now rewrite app_nil_r | intros ev []]. }
    destruct (initial sess) as [r|e].
    2:{ eexists. split; [reflexivity|]. intros ev [<- | Hin]; auto. }
    destruct (logged0 sess).
    2:{ eexists. split; [reflexivity|]. intros ev [<- | [<- | Hin]]; auto. }
    destruct (if writeToFileSystem options then written0 sess else Fulfilled tt);
      [|apply Hhead].
    destruct (consumer0 sess); [|apply Hmore; in_cases].
    destruct (watch options); [|apply Hmore; in_cases].
    destruct (rebuildLoop _ _ _ _) as [[tr st'] c] eqn:L. cbn [fst].
    destruct (rebuildLoop_effect _ _ _ _ L) as (Hev & _).
    apply Hmore. intros ev [<- | Hin]; [reflexivity|].
    cbn [app] in Hin. apply in_app_or in Hin. destruct Hin as [Hin | Hin].
    + exact (@loopEvents_no_delete tr Hev ev Hin).
    + revert ev Hin. unfold teardownTrace. in_cases.
  - intros e Hd Hrej. rewrite run_unfold, Hd, Hrej.
    unfold deleteTrace. rewrite Hd. repeat split.
Qed.

Lemma output_directory_deleted_first_or_never_witness :
  deleteOutputPath (sampleOptions false) && writeToFileSystem (sampleOptions false)
  = true
  /\ deleted undeletableSession = Rejected "EBUSY"
  /\ run (sampleOptions false) (sampleHost false) undeletableSession
     = ([EDeleteOutputDir "/ws" "/ws/dist" ["browser"; "server"]], None,
        Throws "EBUSY").
Proof.
  split; [reflexivity|]. split; [reflexivity|].
  exact (proj1 (proj2 (@output_directory_deleted_first_or_never
                         (sampleOptions false) (sampleHost false)
                         undeletableSession) "EBUSY" eq_refl eq_refl)).
Defined.




(** X12: the Sass worker pool is never shut down twice in a session.
    Without watch mode, once the initial build has been called the pool
    is shut down exactly once, whether the build returns or throws, and
    this happens before any output is yielded. *)
Theorem pool_shut_down_at_most_once options host sess :
  shutdowns (trace options host sess) <= 1
  /\ (watch options = false ->
      (deleteOutputPath options && writeToFileSystem options = true ->
       deleted sess = Fulfilled tt) ->
      shutdowns (trace options host sess) = 1
      /\ exists before rest,
           trace options host sess = before ++ EShutdownSassWorkerPool :: rest
           /\ yields before = []
           /\ builds rest = []).
Proof.
  assert (Hdel : shutdowns (deleteTrace options) = 0).
  { unfold deleteTrace.
    destruct (deleteOutputPath options && writeToFileSystem options); reflexivity. }
  assert (Hydel : yields (deleteTrace options) = []).
  { unfold deleteTrace.
    destruct (deleteOutputPath options && writeToFileSystem options); reflexivity. }
  assert (Hem : forall r, builds (emitTrace options r) = []).
  { intros r. unfold emitTrace. destruct (writeToFileSystem options); reflexivity. }
  split.
  - unfold trace. rewrite run_unfold.
    assert (Hsd : shutdowns (shutdownUnlessWatching options) <= 1).
    { unfold shutdownUnlessWatching. destruct (watch options); cbn; lia. }
    assert (Hhead : forall r, shutdowns (headTrace options host r)
                              = if watch options then 0 else 1)
      by (intros r; apply shutdowns_headTrace).
    destruct (if deleteOutputPath options && writeToFileSystem options
              then deleted sess else Fulfilled tt); [|cbn [fst]; lia].
    destruct (initial sess) as [r|e];
      [|cbn [fst]; rewrite !shutdowns_app, Hdel; cbn; lia].
    destruct (logged0 sess);
      [|cbn [fst]; rewrite !shutdowns_app, Hdel; cbn; lia].
    destruct (if writeToFileSystem options then written0 sess else Fulfilled tt);
      [|cbn [fst]; rewrite Hhead; destruct (watch options); lia].
    destruct (consumer0 sess);
      [|cbn [fst]; rewrite shutdowns_app, Hhead; destruct (watch options);
        cbn; lia].
    destruct (watch options) eqn:Hw;
      [|cbn [fst]; rewrite shutdowns_app, Hhead; cbn; lia].
    destruct (rebuildLoop _ _ _ _) as [[tr st'] c] eqn:L. cbn [fst].
    destruct (rebuildLoop_effect _ _ _ _ L) as (Hev & _).
    rewrite !shutdowns_app, Hhead, (loopEvents_shutdowns Hev). cbn. lia.
  - intros Hw Hd. unfold trace. rewrite run_unfold, Hw.
    assert (Hd' : (if deleteOutputPath options && writeToFileSystem options
                   then deleted sess else Fulfilled tt) = Fulfilled tt).
    { destruct (deleteOutputPath options && writeToFileSystem options); auto. }
    rewrite Hd'. unfold headTrace, shutdownUnlessWatching. rewrite Hw.
    destruct (initial sess) as [r|e].
    2:{ cbn [fst]. split; [rewrite !shutdowns_app, Hdel; reflexivity|].
        exists (deleteTrace options ++ [EAction None]), [].
        split; [now rewrite <- app_assoc|].
        split; [rewrite yields_app, Hydel; reflexivity | reflexivity]. }
    destruct (logged0 sess).
    2:{ cbn [fst]. split; [rewrite !shutdowns_app, Hdel; reflexivity|].
        exists (deleteTrace options ++ [EAction None; ELogMessages (rid r)]), [].
        split; [now rewrite <- app_assoc|].
        split; [rewrite yields_app, Hydel; reflexivity | reflexivity]. }
    assert (Hsplit : forall more,
              (deleteTrace options ++ [EAction None; ELogMessages (rid r)]
                 ++ [EShutdownSassWorkerPool] ++ [] ++ emitTrace options r) ++ more
              = (deleteTrace options ++ [EAction None; ELogMessages (rid r)])
                  ++ EShutdownSassWorkerPool :: (emitTrace options r ++ more)).
    { intros more. now rewrite <- !app_assoc. }
    assert (Hcount : forall more, shutdowns more = 0 ->
              shutdowns ((deleteTrace options ++ [EAction None; ELogMessages (rid r)]
                 ++ [EShutdownSassWorkerPool] ++ [] ++ emitTrace options r) ++ more)
              = 1).
    { intros more Hm. rewrite !shutdowns_app, Hdel, Hm. cbn.
      unfold emitTrace. destruct (writeToFileSystem options); reflexivity. }
    assert (Hyb : yields (deleteTrace options
                            ++ [EAction None; ELogMessages (rid r)]) = []).
    { rewrite yields_app, Hydel. reflexivity. }
    destruct (if writeToFileSystem options then written0 sess else Fulfilled tt).
    + destruct (consumer0 sess); cbn [fst];
        (split; [now apply Hcount|]);
        eexists _, _; (split; [apply Hsplit|]);
        (split; [exact Hyb|]); rewrite builds_app, Hem; reflexivity.
    + cbn [fst]. specialize (Hcount [] eq_refl). specialize (Hsplit []).
      rewrite app_nil_r in Hcount, Hsplit. split; [exact Hcount|].
      eexists _, _. split; [exact Hsplit|]. split; [exact Hyb|].
      rewrite app_nil_r. apply Hem.
Qed.

Lemma pool_shut_down_at_most_once_witness :
  watch (sampleOptions false) = false
  /\ shutdowns (trace (sampleOptions false) (sampleHost false) failedSession) = 1
  /\ shutdowns (trace (sampleOptions false) (sampleHost false) shrinkingSession) = 1.
Proof.
  split; [reflexivity|]. split.
  - apply (@pool_shut_down_at_most_once (sampleOptions false) (sampleHost false)
             failedSession); [reflexivity | intros _; reflexivity].
  - apply (@pool_shut_down_at_most_once (sampleOptions false) (sampleHost false)
             shrinkingSession); [reflexivity | intros _; reflexivity].
Defined.

(** ** The watcher that is created *)

Lemma hasBackslash_app s1 s2 :
  hasBackslash (s1 ++ s2) = hasBackslash s1 || hasBackslash s2.
Proof.
  induction s1 as [|c s1 IH]; [reflexivity|].
  cbn. rewrite IH. now rewrite orb_assoc.
Qed.

Lemma replace_backslashes_clean s : hasBackslash (replace_backslashes s) = false.
Proof.
  induction s as [|c s IH]; [reflexivity|].
  cbn. rewrite IH. destruct (Ascii.eqb c "\"%char) eqn:E; [reflexivity|].
  now rewrite E.
Qed.

Lemma replace_backslashes_id s :
  hasBackslash s = false -> replace_backslashes s = s.
Proof.
  induction s as [|c s IH]; [reflexivity|].
  cbn. intros H. apply orb_false_iff in H. destruct H as [Hc Hs].
  now rewrite Hc, IH.
Qed.

Lemma replace_backslashes_length s :
  String.length (replace_backslashes s) = String.length s.
Proof. induction s as [|c s IH]; [reflexivity | cbn; now rewrite IH]. Qed.

Lemma string_length_app s1 s2 :
  String.length (s1 ++ s2) = String.length s1 + String.length s2.
Proof. induction s1 as [|c s1 IH]; [reflexivity | cbn; now rewrite IH]. Qed.

Lemma createWatcher_in_headTrace options host r :
  filter isCreateWatcher (headTrace options host r)
  = if watch options then [ECreateWatcher (watcherConfig options)] else [].
Proof. head_cases options host; reflexivity. Qed.

Lemma filter_none {A} (f : A -> bool) l :
  (forall x, In x l -> f x = false) -> filter f l = [].
Proof.
  induction l as [|a l IH]; intros H; [reflexivity|].
  cbn. rewrite (H a (or_introl eq_refl)). apply IH. intros x Hx. apply H. now right.
Qed.

Lemma createWatcher_in_trace options host sess :
  filter isCreateWatcher (trace options host sess) = []
  \/ (watch options = true
      /\ filter isCreateWatcher (trace options host sess)
         = [ECreateWatcher (watcherConfig options)]).
Proof.
  unfold trace. rewrite run_unfold.
  assert (Hdel : filter isCreateWatcher (deleteTrace options) = []).
  { unfold deleteTrace.
    destruct (deleteOutputPath options && writeToFileSystem options); reflexivity. }
  assert (Hsd : filter isCreateWatcher (shutdownUnlessWatching options) = []).
  { unfold shutdownUnlessWatching. destruct (watch options); reflexivity. }
  assert (Hhead : forall r more, filter isCreateWatcher more = [] ->
            filter isCreateWatcher (headTrace options host r ++ more) = []
            \/ (watch options = true
                /\ filter isCreateWatcher (headTrace options host r ++ more)
                   = [ECreateWatcher (watcherConfig options)])).
  { intros r more Hm. rewrite filter_app, createWatcher_in_headTrace, Hm.
    destruct (watch options); [right; split; reflexivity | now left]. }
  destruct (if deleteOutputPath options && writeToFileSystem options
            then deleted sess else Fulfilled tt); [|now left].
  destruct (initial sess) as [r|e];
    [|left; cbn [fst]; rewrite !filter_app, Hdel, Hsd; reflexivity].
  destruct (logged0 sess);
    [|left; cbn [fst]; rewrite !filter_app, Hdel, Hsd; reflexivity].
  destruct (if writeToFileSystem options then written0 sess else Fulfilled tt).
  2:{ cbn [fst]. specialize (Hhead r [] eq_refl). now rewrite app_nil_r in Hhead. }
  destruct (consumer0 sess); [|apply Hhead; reflexivity].
  destruct (watch options) eqn:Hw; [|apply Hhead; reflexivity].
  destruct (rebuildLoop _ _ _ _) as [[tr st'] c] eqn:L. cbn [fst].
  destruct (rebuildLoop_effect _ _ _ _ L) as (Hev & _).
  apply Hhead. cbn [app filter isCreateWatcher]. rewrite filter_app.
  rewrite (filter_none isCreateWatcher tr (loopEvents_no_watcher_created Hev)).
  reflexivity.
Qed.

(** X13: a session creates at most one watcher, and only in watch mode.
    The watcher polls exactly when [poll] is given, follows symlinks
    exactly when [preserveSymlinks] is set, and ignores the output path,
    the cache path and the dot directories under the workspace root,
    written with forward slashes only wherever the root has backslashes;
    it ignores the [node_modules] directories too unless
    [preserveSymlinks] is set. *)
Theorem created_watcher_configuration options host sess cfg :
  In (ECreateWatcher cfg) (trace options host sess) ->
  watch options = true
  /\ filter isCreateWatcher (trace options host sess) = [ECreateWatcher cfg]
  /\ (polling cfg = true <-> exists ms, poll options = Some ms)
  /\ interval cfg = poll options
  /\ followSymlinks cfg = preserveSymlinks options
  /\ (exists glob,
        ignored cfg
        = [base (outputOptions options); basePath (cacheOptions options); glob]
          ++ (if preserveSymlinks options then [] else ["**/node_modules/**"])
        /\ glob = (replace_backslashes (workspaceRoot options) ++ "/**/.*/**")%string
        /\ hasBackslash glob = false
        /\ String.length glob = String.length (workspaceRoot options) + 9
        /\ (hasBackslash (workspaceRoot options) = false ->
            glob = (workspaceRoot options ++ "/**/.*/**")%string)).
Proof.
  intros Hin.
  assert (Hf : In (ECreateWatcher cfg)
                  (filter isCreateWatcher (trace options host sess)))
    by (apply filter_In; split; [assumption | reflexivity]).
  destruct (createWatcher_in_trace options host sess) as [E | [Hw E]];
    rewrite E in Hf; [destruct Hf|].
  destruct Hf as [Heq | []]. inversion Heq; subst cfg. clear Heq.
  split; [assumption|]. split; [assumption|].
  unfold watcherConfig. cbn [polling interval followSymlinks ignored].
  split; [|split; [reflexivity|split; [reflexivity|]]].
  - destruct (poll options) as [ms|]; split; eauto; try discriminate.
    intros [ms H]. discriminate.
  - eexists. split; [reflexivity|]. split; [reflexivity|]. split; [|split].
    + rewrite hasBackslash_app, replace_backslashes_clean. reflexivity.
    + rewrite string_length_app, replace_backslashes_length. reflexivity.
    + intros H. now rewrite replace_backslashes_id.
Qed.

Lemma created_watcher_configuration_witness :
  In (ECreateWatcher (watcherConfig memoryOptions))
     (trace memoryOptions (sampleHost false) shrinkingSession)
  /\ ignored (watcherConfig memoryOptions)
     = ["C:\ws\dist"; "C:\ws\.angular\cache"; "C:/ws/**/.*/**"]
  /\ polling (watcherConfig memoryOptions) = true.
Proof.
  assert (Hin : In (ECreateWatcher (watcherConfig memoryOptions))
                   (trace memoryOptions (sampleHost false) shrinkingSession))
    by (vm_compute; tauto).
  split; [exact Hin|]. split; [reflexivity|].
  destruct (@created_watcher_configuration memoryOptions (sampleHost false)
              shrinkingSession (watcherConfig memoryOptions) Hin)
    as (_ & _ & Hp & _).
  apply Hp. exists 500. reflexivity.
Defined.

(** ** The licence validation script *)

Lemma stripGuess_marked x :
  LicenseValidation.stripGuess (x ++ "*") = x.
Proof.
  induction x as [|c rest IH]; [reflexivity|].
  cbn [String.append LicenseValidation.stripGuess].
  destruct (rest ++ "*")%string as [|c' rest'] eqn:E.
  - destruct rest; discriminate.
  - rewrite IH. reflexivity.
Qed.

Lemma stripGuess_unmarked x :
  marked x = false -> LicenseValidation.stripGuess x = x.
Proof.
  induction x as [|c rest IH]; [reflexivity|].
  cbn [marked LicenseValidation.stripGuess].
  destruct rest as [|c' rest'].
  - intros ->. reflexivity.
  - intros H. rewrite (IH H). reflexivity.
Qed.

Lemma normalize_guessed value :
  (forall license, In license (LicenseValidation.concat value) ->
                   marked license = false) ->
  LicenseValidation.normalize (guessed value) = LicenseValidation.normalize value.
Proof.
  unfold LicenseValidation.normalize.
  intros H. f_equal.
  destruct value as [license | licenses];
    cbn [guessed LicenseValidation.concat map] in *.
  - rewrite stripGuess_marked, stripGuess_unmarked; [reflexivity|].
    apply H. now left.
  - induction licenses as [|license rest IH]; [reflexivity|].
    cbn [map]. rewrite stripGuess_marked, stripGuess_unmarked by (apply H; now left).
    f_equal. apply IH. intros l Hl. apply H. now right.
Qed.

Lemma append_not_empty a b :
  b <> EmptyString -> (a ++ b)%string <> EmptyString.
Proof. destruct a; [trivial | discriminate]. Qed.

Lemma ignoredPackages_not_empty packages :
  ~ In EmptyString (LicenseValidation.ignoredPackages packages).
Proof.
  unfold LicenseValidation.ignoredPackages.
  intros [H | H]; [discriminate|].
  apply in_map_iff in H. destruct H as (pkg & H & _).
  revert H. apply append_not_empty. discriminate.
Qed.

Lemma find_eqb (key : string) l :
  find (fun ignored => String.eqb ignored key) l
  = if existsb (String.eqb key) l then Some key else None.
Proof.
  induction l as [|x l IH]; [reflexivity|].
  cbn [find existsb]. rewrite (String.eqb_sym key x).
  destruct (String.eqb x key) eqn:E; [|exact IH].
  apply String.eqb_eq in E. subst x. reflexivity.
Qed.

Lemma existsb_eqb_In (key : string) l :
  existsb (String.eqb key) l = true <-> In key l.
Proof.
  rewrite existsb_exists. split.
  - intros (x & Hin & E). apply String.eqb_eq in E. now subst x.
  - intros Hin. exists key. split; [assumption | apply String.eqb_refl].
Qed.

Lemma ignored_is_membership packages key :
  LicenseValidation.truthy
    (find (fun ignored => String.eqb ignored key)
       (LicenseValidation.ignoredPackages packages)) = true
  <-> In key (LicenseValidation.ignoredPackages packages).
Proof.
  rewrite find_eqb, <- existsb_eqb_In.
  destruct (existsb (String.eqb key) (LicenseValidation.ignoredPackages packages)) eqn:E.
  - destruct key as [|c rest]; [|cbn; tauto].
    apply existsb_eqb_In in E. now apply ignoredPackages_not_empty in E.
  - cbn. split; discriminate.
Qed.

Lemma not_ignored packages key :
  negb (LicenseValidation.truthy
          (find (fun ignored => String.eqb ignored key)
             (LicenseValidation.ignoredPackages packages))) = true
  <-> ~ In key (LicenseValidation.ignoredPackages packages).
Proof.
  rewrite <- ignored_is_membership, negb_true_iff.
  symmetry. apply not_true_iff_false.
Qed.

Lemma not_passing env value :
  negb (LicenseValidation._passesSpdx env (LicenseValidation.normalize value)
          LicenseValidation.allowedLicenses) = true
  <-> LicenseValidation.spdxSatisfies env (expression env value)
        (LicenseValidation.join " OR " LicenseValidation.allowedLicenses)
      <> Some true.
Proof.
  unfold LicenseValidation._passesSpdx, expression.
  destruct (LicenseValidation.spdxSatisfies _ _ _) as [[|]|]; cbn;
    split; congruence.
Qed.

Lemma In_badLicensePackages env packages json pkg :
  In pkg (LicenseValidation.badLicensePackages env packages json) <->
  exists value,
    In (LicenseValidation.id pkg, value) json
    /\ LicenseValidation.licenses pkg = LicenseValidation.normalize value
    /\ LicenseValidation.spdxSatisfies env (expression env value)
         (LicenseValidation.join " OR " LicenseValidation.allowedLicenses)
       <> Some true
    /\ ~ In (LicenseValidation.id pkg) (LicenseValidation.ignoredPackages packages).
Proof.
  unfold LicenseValidation.badLicensePackages.
  rewrite filter_In, filter_In, in_map_iff, not_ignored.
  split.
  - intros [[((key, value) & <- & Hin) Hp] Hi]. cbn [fst snd] in *.
    exists value. cbn [LicenseValidation.id LicenseValidation.licenses] in *.
    apply not_passing in Hp. tauto.
  - intros (value & Hin & Hl & Hp & Hi). destruct pkg as [key ls].
    cbn [LicenseValidation.id LicenseValidation.licenses] in *. subst ls.
    repeat split; try assumption.
    + exists (key, value). split; [reflexivity | assumption].
    + now apply not_passing.
Qed.

Lemma badLicensePackages_guessed env packages json :
  (forall key value license,
      In (key, value) json -> In license (LicenseValidation.concat value) ->
      marked license = false) ->
  LicenseValidation.badLicensePackages env packages (map guessedEntry json)
  = LicenseValidation.badLicensePackages env packages json.
Proof.
  intros H. unfold LicenseValidation.badLicensePackages.
  do 2 f_equal. rewrite map_map. apply map_ext_in.
  intros (key, value) Hin. cbn [guessedEntry fst snd]. f_equal.
  apply normalize_guessed. intros license. apply (H key value license Hin).
Qed.

Lemma reported_packages lines :
  reported (map LicenseValidation.ErrorPackage lines)
  = map LicenseValidation.id lines.
Proof.
  induction lines as [|pkg rest IH]; [reflexivity|].
  cbn [map]. unfold reported in *. cbn [flat_map app]. now rewrite IH.
Qed.

Lemma reported_validate env packages json :
  reported (fst (LicenseValidation.validate env packages
                   (LicenseValidation.CheckerResult json)))
  = map LicenseValidation.id
      (LicenseValidation.badLicensePackages env packages json).
Proof.
  unfold LicenseValidation.validate.
  destruct (LicenseValidation.badLicensePackages env packages json)
    as [|pkg rest] eqn:E; [reflexivity|].
  cbn [Nat.ltb Nat.leb List.length fst app].
  unfold reported. cbn [flat_map app]. rewrite flat_map_app.
  cbn [flat_map app]. rewrite app_nil_r.
  change (LicenseValidation.id pkg
          :: reported (map LicenseValidation.ErrorPackage rest)
          = map LicenseValidation.id (pkg :: rest)).
  now rewrite reported_packages.
Qed.

Lemma In_reported env packages json key :
  In key (reported (fst (LicenseValidation.validate env packages
                           (LicenseValidation.CheckerResult json))))
  <-> exists value,
        In (key, value) json
        /\ LicenseValidation.spdxSatisfies env (expression env value)
             (LicenseValidation.join " OR " LicenseValidation.allowedLicenses)
           <> Some true
        /\ ~ In key (LicenseValidation.ignoredPackages packages).
Proof.
  rewrite reported_validate, in_map_iff. split.
  - intros (pkg & <- & Hin). apply In_badLicensePackages in Hin.
    destruct Hin as (value & Hin & _ & Hp & Hi). eauto.
  - intros (value & Hin & Hp & Hi).
    exists {| LicenseValidation.id := key;
              LicenseValidation.licenses := LicenseValidation.normalize value |}.
    split; [reflexivity|]. apply In_badLicensePackages.
    exists value. cbn. auto.
Qed.

Lemma expression_one env x :
  expression env (LicenseValidation.One x)
  = LicenseValidation.textOf env
      (LicenseValidation.replaceLicense (LicenseValidation.stripGuess x)).
Proof. reflexivity. Qed.

Lemma expression_many env licenses :
  expression env (LicenseValidation.Many licenses)
  = LicenseValidation.join " AND "
      (map (fun x => expression env (LicenseValidation.One x)) licenses).
Proof.
  unfold expression, LicenseValidation.normalize.
  cbn [LicenseValidation.concat]. rewrite !map_map. reflexivity.
Qed.

Lemma replaceLicense_other x :
  x <> "Apache 2.0" -> x <> "BSD" ->
  ~ In x LicenseValidation.objectPrototypeKeys ->
  LicenseValidation.replaceLicense x = LicenseValidation.Named x.
Proof.
  intros H1 H2 H3. unfold LicenseValidation.replaceLicense,
    LicenseValidation.lookup, LicenseValidation.licenseReplacements.
  cbn [find fst snd option_map].
  apply String.eqb_neq in H1, H2.
  rewrite (String.eqb_sym "Apache 2.0" x), H1, (String.eqb_sym "BSD" x), H2.
  cbn [option_map].
  destruct (existsb (String.eqb x) LicenseValidation.objectPrototypeKeys) eqn:E;
    [|reflexivity].
  apply existsb_eqb_In in E. contradiction.
Qed.

Lemma replaceLicense_inherited x :
  In x LicenseValidation.objectPrototypeKeys ->
  LicenseValidation.replaceLicense x = LicenseValidation.Inherited x.
Proof.
  intros H. unfold LicenseValidation.objectPrototypeKeys in H.
  repeat (destruct H as [<- | H]; [reflexivity|]). destruct H.
Qed.

(** X14: the number the validation resolves with.  It is 1 when
    [license-checker] reports an error, and 0 or 2 otherwise: 0 exactly
    when every package is an ignored one or has licences that
    [spdxSatisfies] accepts against the allowed list without throwing.
    Whether a package is ignored is a plain membership test of its id.
    The expression that is judged joins the licences of the package with
    [AND], each under the name it has once a final asterisk is dropped
    and [Apache 2.0] and [BSD] are replaced by [Apache-2.0] and
    [BSD-2-Clause]; a name that is a property every object inherits is
    judged as the text of that property, any other name as it is. *)
Theorem license_validation_exit_code env packages message json :
  snd (LicenseValidation.validate env packages
         (LicenseValidation.CheckerError message)) = 1
  /\ (snd (LicenseValidation.validate env packages
             (LicenseValidation.CheckerResult json)) = 0
      \/ snd (LicenseValidation.validate env packages
                (LicenseValidation.CheckerResult json)) = 2)
  /\ (snd (LicenseValidation.validate env packages
             (LicenseValidation.CheckerResult json)) = 0
      <-> forall key value,
            In (key, value) json ->
            In key (LicenseValidation.ignoredPackages packages)
            \/ LicenseValidation.spdxSatisfies env (expression env value)
                 (LicenseValidation.join " OR " LicenseValidation.allowedLicenses)
               = Some true)
  /\ (forall licenses,
        expression env (LicenseValidation.Many licenses)
        = LicenseValidation.join " AND "
            (map (fun x => expression env (LicenseValidation.One x)) licenses))
  /\ (forall x, exists judged,
        expression env (LicenseValidation.One (x ++ "*")) = judged
        /\ (marked x = false ->
            expression env (LicenseValidation.One x) = judged)
        /\ (x = "Apache 2.0" -> judged = "Apache-2.0")
        /\ (x = "BSD" -> judged = "BSD-2-Clause")
        /\ (In x ["constructor"; "__defineGetter__"; "__defineSetter__";
                  "hasOwnProperty"; "__lookupGetter__"; "__lookupSetter__";
                  "isPrototypeOf"; "propertyIsEnumerable"; "toString";
                  "valueOf"; "__proto__"; "toLocaleString"] ->
            judged = LicenseValidation.inheritedText env x)
        /\ (x <> "Apache 2.0" -> x <> "BSD" ->
            ~ In x ["constructor"; "__defineGetter__"; "__defineSetter__";
                    "hasOwnProperty"; "__lookupGetter__"; "__lookupSetter__";
                    "isPrototypeOf"; "propertyIsEnumerable"; "toString";
                    "valueOf"; "__proto__"; "toLocaleString"] ->
            judged = x))
  /\ LicenseValidation.join " OR " LicenseValidation.allowedLicenses
     = "MIT OR ISC OR Apache-2.0 OR Python-2.0 OR Artistic-2.0 OR BlueOak-1.0.0 OR BSD-2-Clause OR BSD-3-Clause OR BSD-4-Clause OR CC-BY-3.0 OR CC-BY-4.0 OR Unlicense OR CC0-1.0 OR 0BSD".
Proof.
  split; [reflexivity|].
  assert (Hbad : forall pkg,
             In pkg (LicenseValidation.badLicensePackages env packages json) <-> _)
    by (intros pkg; apply In_badLicensePackages).
  assert (Hcode :
    (snd (LicenseValidation.validate env packages
            (LicenseValidation.CheckerResult json)) = 0
     \/ snd (LicenseValidation.validate env packages
               (LicenseValidation.CheckerResult json)) = 2)
    /\ (snd (LicenseValidation.validate env packages
               (LicenseValidation.CheckerResult json)) = 0
        <-> forall key value,
              In (key, value) json ->
              In key (LicenseValidation.ignoredPackages packages)
              \/ LicenseValidation.spdxSatisfies env (expression env value)
                   (LicenseValidation.join " OR "
                      LicenseValidation.allowedLicenses)
                 = Some true)).
  { unfold LicenseValidation.validate.
    destruct (LicenseValidation.badLicensePackages env packages json)
      as [|pkg rest]; cbn [Nat.ltb Nat.leb List.length snd].
    - split; [now left|]. split; [|reflexivity].
      intros _ key value Hin.
      destruct (in_dec string_dec key (LicenseValidation.ignoredPackages packages))
        as [Hi | Hi]; [now left | right].
      destruct (LicenseValidation.spdxSatisfies env (expression env value)
                  (LicenseValidation.join " OR " LicenseValidation.allowedLicenses))
        as [[|]|] eqn:E; [reflexivity| |];
        exfalso;
        apply (proj2 (Hbad {| LicenseValidation.id := key;
                              LicenseValidation.licenses :=
                                LicenseValidation.normalize value |}));
        exists value; cbn [LicenseValidation.id LicenseValidation.licenses];
        rewrite E; repeat split; auto; discriminate.
    - split; [now right|]. split; [discriminate|].
      intros H. exfalso.
      destruct (proj1 (Hbad pkg) (or_introl eq_refl))
        as (value & Hin & _ & Hp & Hi).
      destruct (H _ _ Hin); contradiction. }
  destruct Hcode as (H02 & H0).
  split; [exact H02|]. split; [exact H0|].
  split; [apply expression_many|]. split; [|reflexivity].
  intros x.
  exists (LicenseValidation.textOf env (LicenseValidation.replaceLicense x)).
  split; [now rewrite expression_one, stripGuess_marked|].
  split; [intros Hm; now rewrite expression_one, stripGuess_unmarked|].
  split; [intros ->; reflexivity|]. split; [intros ->; reflexivity|].
  split.
  - intros Hin. now rewrite replaceLicense_inherited.
  - intros H1 H2 H3. now rewrite replaceLicense_other.
Qed.

(** X15: the asterisk with which [license-checker] marks a guessed
    licence makes no difference: when every licence of every package is
    marked, the validation prints and returns what it does for the
    unmarked names. *)
Theorem guess_marker_is_ignored env packages json :
  (forall key value license,
      In (key, value) json -> In license (LicenseValidation.concat value) ->
      marked license = false) ->
  LicenseValidation.validate env packages
    (LicenseValidation.CheckerResult (map guessedEntry json))
  = LicenseValidation.validate env packages (LicenseValidation.CheckerResult json).
Proof.
  intros H. unfold LicenseValidation.validate.
  rewrite (badLicensePackages_guessed env packages json H), length_map.
  reflexivity.
Qed.

Lemma guess_marker_is_ignored_witness :
  (forall key value license,
      In (key, value) sampleJson -> In license (LicenseValidation.concat value) ->
      marked license = false)
  /\ LicenseValidation.validate sampleSpdx samplePackages
       (LicenseValidation.CheckerResult (map guessedEntry sampleJson))
     = LicenseValidation.validate sampleSpdx samplePackages
         (LicenseValidation.CheckerResult sampleJson).
Proof.
  assert (H : forall key value license,
             In (key, value) sampleJson ->
             In license (LicenseValidation.concat value) ->
             marked license = false).
  { intros key value license Hin Hl. unfold sampleJson in Hin.
    repeat (destruct Hin as [Hin | Hin];
            [inversion Hin; subst; destruct Hl as [<- | []]; reflexivity|]).
    destruct Hin. }
  split; [exact H|].
  exact (@guess_marker_is_ignored sampleSpdx samplePackages sampleJson H).
Defined.

(** X16: what the validation reports.  The packages it names are
    exactly those of the checker's result that are not ignored and whose
    licences [spdxSatisfies] does not accept (also because it throws).
    None of the repository's own packages at its placeholder version is
    ever named, nor is the package with the broken licence field.  The
    total that is printed is the number of packages named, and the
    message that all licences are valid is printed exactly when none is
    named.  The first line always gives the number of packages tested. *)
Theorem invalid_license_report env packages json :
  (forall key,
      In key (reported (fst (LicenseValidation.validate env packages
                               (LicenseValidation.CheckerResult json))))
      <-> exists value,
            In (key, value) json
            /\ LicenseValidation.spdxSatisfies env (expression env value)
                 (LicenseValidation.join " OR " LicenseValidation.allowedLicenses)
               <> Some true
            /\ ~ In key (LicenseValidation.ignoredPackages packages))
  /\ (forall pkg,
        In pkg packages ->
        ~ In (LicenseValidation.name pkg ++ "@"
              ++ (if LicenseValidation.experimental pkg
                  then "0.0.0-EXPERIMENTAL-PLACEHOLDER"
                  else "0.0.0-PLACEHOLDER"))%string
             (reported (fst (LicenseValidation.validate env packages
                               (LicenseValidation.CheckerResult json)))))
  /\ ~ In "pako@1.0.11"
          (reported (fst (LicenseValidation.validate env packages
                            (LicenseValidation.CheckerResult json))))
  /\ (forall n,
        In (LicenseValidation.ErrorTotal n)
           (fst (LicenseValidation.validate env packages
                   (LicenseValidation.CheckerResult json)))
        -> n = List.length
                 (reported (fst (LicenseValidation.validate env packages
                                   (LicenseValidation.CheckerResult json))))
           /\ 0 < n)
  /\ (In LicenseValidation.InfoAllValid
         (fst (LicenseValidation.validate env packages
                 (LicenseValidation.CheckerResult json)))
      <-> reported (fst (LicenseValidation.validate env packages
                           (LicenseValidation.CheckerResult json))) = [])
  /\ hd_error (fst (LicenseValidation.validate env packages
                      (LicenseValidation.CheckerResult json)))
     = Some (LicenseValidation.InfoTesting (List.length json)).
Proof.
  split; [intros key; apply In_reported|].
  split.
  { intros pkg Hpkg Hin. apply In_reported in Hin.
    destruct Hin as (_ & _ & _ & Hi). apply Hi.
    unfold LicenseValidation.ignoredPackages. right.
    apply in_map_iff. exists pkg. split; [reflexivity | assumption]. }
  split.
  { intros Hin. apply In_reported in Hin.
    destruct Hin as (_ & _ & _ & Hi). apply Hi. now left. }
  rewrite reported_validate. unfold LicenseValidation.validate.
  destruct (LicenseValidation.badLicensePackages env packages json)
    as [|pkg rest]; cbn [Nat.ltb Nat.leb List.length fst].
  - split; [|split; [|reflexivity]].
    + intros n [H | [H | []]]; discriminate.
    + split; [reflexivity|]. intros _. right. now left.
  - split; [|split; [|reflexivity]].
    + intros n Hin. rewrite length_map. cbn [List.length].
      cbn [app] in Hin. destruct Hin as [H | [H | Hin]]; try discriminate.
      change (In (LicenseValidation.ErrorTotal n)
                (map LicenseValidation.ErrorPackage (pkg :: rest)
                 ++ [LicenseValidation.ErrorTotal (S (List.length rest))])) in Hin.
      apply in_app_or in Hin. destruct Hin as [Hin | [Hin | []]].
      * apply in_map_iff in Hin. destruct Hin as (x & Hx & _). discriminate.
      * inversion Hin. split; [reflexivity | lia].
    + split; [|discriminate]. cbn [app].
      intros [H | [H | Hin]]; try discriminate.
      change (In LicenseValidation.InfoAllValid
                (map LicenseValidation.ErrorPackage (pkg :: rest)
                 ++ [LicenseValidation.ErrorTotal (S (List.length rest))])) in Hin.
      apply in_app_or in Hin. destruct Hin as [Hin | [Hin | []]]; [|discriminate].
      apply in_map_iff in Hin. destruct Hin as (x & Hx & _). discriminate.
Qed.

(** A run of the validation on a small tree: two packages pass (one
    through the replacement table), two fail but are ignored, and two
    are reported, one of them because its licence cannot be parsed. *)
Example sample_validation :
  reported (fst (LicenseValidation.validate sampleSpdx samplePackages
                   (LicenseValidation.CheckerResult sampleJson)))
  = ["copyleft@2.0.0"; "odd@1.0.0"]
  /\ snd (LicenseValidation.validate sampleSpdx samplePackages
            (LicenseValidation.CheckerResult sampleJson)) = 2.
Proof. split; reflexivity. Qed.
